(** * TaskManager: the offline-first local task store and its sync engine

    A shallow embedding of [lib/tasks.ts] (the local store, a single SQLite
    table [tasks]), [lib/api.ts] (the remote client's result taxonomy) and
    [lib/sync.ts] (push, conflict resolution, pull, the sync guard and the
    retry wrapper), followed by the properties of the store's provenance
    flags and of the engine.

    Modelling conventions.
    - The table [tasks] is the list of its rows in rowid order; [id] is its
      primary key.  The table is taken as provisioned ([initializeDatabase]
      has run, which [initializeSync] does before the first cycle), so the
      [no such table] handlers of the source are not exercised.
    - [number] is [Z]; [string | null] and optional fields are [option];
      the INTEGER flag columns are [Z] and [rowToTask] turns them into [bool]
      with [=== 1], as the source does.
    - [Date.now()] and [generateUUID()] are inputs of the operations that
      call them.
    - A sync cycle runs without another task of the event loop touching the
      store between its steps; where calls made during a suspended cycle
      matter, a [Session] interleaves them with the cycle at its entry and
      between its two phases. *)

From Stdlib Require Import ZArith String List Bool Lia Sorted Permutation QArith Qround Ascii.
From stdpp Require Import base strings list gmap pretty.
Import ListNotations.

Local Open Scope string_scope.
Local Open Scope Z_scope.

(** ** Data model ([types/task.ts], [lib/tasks.ts]) *)

(** [interface TaskRow]: one row of table [tasks]. *)
Record TaskRow := mkRow {
  row_id : string;
  row_title : string;
  row_description : option string;
  row_status : string;
  row_lastUpdatedAt : Z;
  row_serverLastUpdatedAt : option Z;
  row_syncStatus : string;
  row_locallyCreated : Z;
  row_locallyModified : Z;
  row_locallyDeleted : Z
}.

(** [interface Task]. *)
Record Task := mkTask {
  task_id : string;
  task_title : string;
  task_description : option string;
  task_status : string;
  task_lastUpdatedAt : Z;
  task_serverLastUpdatedAt : option Z;
  task_syncStatus : string;
  task_locallyCreated : bool;
  task_locallyModified : bool;
  task_locallyDeleted : bool
}.

Record CreateTaskInput := mkCreateInput {
  ci_title : string;
  ci_description : option string
}.

Record UpdateTaskInput := mkUpdateInput {
  ui_title : option string;
  ui_description : option string;
  ui_status : option string
}.

Definition rowToTask (row : TaskRow) : Task :=
  {| task_id := row_id row;
     task_title := row_title row;
     task_description := row_description row;
     task_status := row_status row;
     task_lastUpdatedAt := row_lastUpdatedAt row;
     task_serverLastUpdatedAt := row_serverLastUpdatedAt row;
     task_syncStatus := row_syncStatus row;
     task_locallyCreated := row_locallyCreated row =? 1;
     task_locallyModified := row_locallyModified row =? 1;
     task_locallyDeleted := row_locallyDeleted row =? 1 |}.

(** ** The table and its SQL statements *)

Definition DB := list TaskRow.

Definition has_id (id : string) (r : TaskRow) : bool := String.eqb (row_id r) id.

(** [SELECT * FROM tasks WHERE <cond>]. *)
Definition select_where (cond : TaskRow -> bool) (db : DB) : list TaskRow :=
  List.filter cond db.

(** [UPDATE tasks SET ... WHERE id = ?]. *)
Definition update_where_id (set : TaskRow -> TaskRow) (id : string) (db : DB) : DB :=
  List.map (fun r => if has_id id r then set r else r) db.

(** [DELETE FROM tasks WHERE id = ?]. *)
Definition delete_where_id (id : string) (db : DB) : DB :=
  List.filter (fun r => negb (has_id id r)) db.

(** [INSERT INTO tasks ...]: fails on a primary-key clash. *)
Definition insert_row (r : TaskRow) (db : DB) : option DB :=
  if List.existsb (has_id (row_id r)) db then None else Some (db ++ [r])%list.

(** [INSERT OR REPLACE INTO tasks ...]: the clashing row is deleted and the
    new one gets a fresh rowid, at the end of the table. *)
Definition insert_or_replace (r : TaskRow) (db : DB) : DB :=
  (delete_where_id (row_id r) db ++ [r])%list.

(** Column assignments of the [SET] clauses. *)
Definition set_title (v : string) (r : TaskRow) : TaskRow :=
  mkRow (row_id r) v (row_description r) (row_status r) (row_lastUpdatedAt r)
        (row_serverLastUpdatedAt r) (row_syncStatus r) (row_locallyCreated r)
        (row_locallyModified r) (row_locallyDeleted r).

Definition set_description (v : option string) (r : TaskRow) : TaskRow :=
  mkRow (row_id r) (row_title r) v (row_status r) (row_lastUpdatedAt r)
        (row_serverLastUpdatedAt r) (row_syncStatus r) (row_locallyCreated r)
        (row_locallyModified r) (row_locallyDeleted r).

Definition set_status (v : string) (r : TaskRow) : TaskRow :=
  mkRow (row_id r) (row_title r) (row_description r) v (row_lastUpdatedAt r)
        (row_serverLastUpdatedAt r) (row_syncStatus r) (row_locallyCreated r)
        (row_locallyModified r) (row_locallyDeleted r).

Definition set_lastUpdatedAt (v : Z) (r : TaskRow) : TaskRow :=
  mkRow (row_id r) (row_title r) (row_description r) (row_status r) v
        (row_serverLastUpdatedAt r) (row_syncStatus r) (row_locallyCreated r)
        (row_locallyModified r) (row_locallyDeleted r).

Definition set_serverLastUpdatedAt (v : option Z) (r : TaskRow) : TaskRow :=
  mkRow (row_id r) (row_title r) (row_description r) (row_status r)
        (row_lastUpdatedAt r) v (row_syncStatus r) (row_locallyCreated r)
        (row_locallyModified r) (row_locallyDeleted r).

Definition set_syncStatus (v : string) (r : TaskRow) : TaskRow :=
  mkRow (row_id r) (row_title r) (row_description r) (row_status r)
        (row_lastUpdatedAt r) (row_serverLastUpdatedAt r) v (row_locallyCreated r)
        (row_locallyModified r) (row_locallyDeleted r).

Definition set_locallyCreated (v : Z) (r : TaskRow) : TaskRow :=
  mkRow (row_id r) (row_title r) (row_description r) (row_status r)
        (row_lastUpdatedAt r) (row_serverLastUpdatedAt r) (row_syncStatus r) v
        (row_locallyModified r) (row_locallyDeleted r).

Definition set_locallyModified (v : Z) (r : TaskRow) : TaskRow :=
  mkRow (row_id r) (row_title r) (row_description r) (row_status r)
        (row_lastUpdatedAt r) (row_serverLastUpdatedAt r) (row_syncStatus r)
        (row_locallyCreated r) v (row_locallyDeleted r).

Definition set_locallyDeleted (v : Z) (r : TaskRow) : TaskRow :=
  mkRow (row_id r) (row_title r) (row_description r) (row_status r)
        (row_lastUpdatedAt r) (row_serverLastUpdatedAt r) (row_syncStatus r)
        (row_locallyCreated r) (row_locallyModified r) v.

(** An optional assignment: pushed on [updates] only when the input field is
    not [undefined]. *)
Definition set_if {A} (set : A -> TaskRow -> TaskRow) (o : option A) (r : TaskRow) : TaskRow :=
  match o with Some v => set v r | None => r end.

(** ** The local store ([lib/tasks.ts]) *)

Definition getTaskById (db : DB) (id : string) : option Task :=
  option_map rowToTask (List.find (has_id id) db).

(** [createTask]: [None] is the primary-key exception of the INSERT. *)
Definition createTask (id : string) (now : Z) (input : CreateTaskInput) (db : DB)
  : option (DB * option Task) :=
  match insert_row (mkRow id (ci_title input) (ci_description input) "pending" now
                          None "pending" 1 0 0) db with
  | Some db' => Some (db', getTaskById db' id)
  | None => None
  end.

(** [SELECT * FROM tasks WHERE locallyDeleted = 0 ORDER BY lastUpdatedAt DESC]:
    a stable insertion sort on the timestamp. *)
Fixpoint insert_desc (r : TaskRow) (l : list TaskRow) : list TaskRow :=
  match l with
  | [] => [r]
  | x :: l' => if row_lastUpdatedAt x <=? row_lastUpdatedAt r
               then r :: x :: l' else x :: insert_desc r l'
  end.

Definition order_by_lastUpdatedAt_desc (l : list TaskRow) : list TaskRow :=
  List.fold_right insert_desc [] l.

Definition getAllTasks (db : DB) : list Task :=
  List.map rowToTask
    (order_by_lastUpdatedAt_desc (select_where (fun r => row_locallyDeleted r =? 0) db)).

Definition no_updates (input : UpdateTaskInput) : bool :=
  match ui_title input, ui_description input, ui_status input with
  | None, None, None => true
  | _, _, _ => false
  end.

Definition updateTask (id : string) (now : Z) (input : UpdateTaskInput) (db : DB)
  : DB * option Task :=
  match getTaskById db id with
  | None => (db, None)
  | Some existingTask =>
      if no_updates input then (db, Some existingTask)
      else
        let set r :=
          let r := set_if set_title (ui_title input) r in
          let r := set_if (fun d => set_description (Some d)) (ui_description input) r in
          let r := set_if set_status (ui_status input) r in
          let r := set_lastUpdatedAt now r in
          if negb (task_locallyCreated existingTask)
          then set_syncStatus "pending" (set_locallyModified 1 r)
          else r in
        let db' := update_where_id set id db in
        (db', getTaskById db' id)
  end.

Definition deleteTask (id : string) (now : Z) (db : DB) : DB * bool :=
  match getTaskById db id with
  | None => (db, false)
  | Some task =>
      if task_locallyCreated task then
        let db' := delete_where_id id db in
        (db', (0 <? Z.of_nat (List.length db) - Z.of_nat (List.length db')))
      else
        (update_where_id
           (fun r => set_syncStatus "pending" (set_lastUpdatedAt now (set_locallyDeleted 1 r)))
           id db, true)
  end.

Definition toggleTaskComplete (id : string) (now : Z) (db : DB) : DB * option Task :=
  match getTaskById db id with
  | None => (db, None)
  | Some task =>
      let newStatus := if String.eqb (task_status task) "completed"
                       then "pending" else "completed" in
      updateTask id now (mkUpdateInput None None (Some newStatus)) db
  end.

Definition getPendingSyncTasks (db : DB) : list Task :=
  List.map rowToTask (select_where (fun r => String.eqb (row_syncStatus r) "pending") db).

Definition created_cond (r : TaskRow) : bool :=
  (row_locallyCreated r =? 1) && (row_locallyDeleted r =? 0).

Definition modified_cond (r : TaskRow) : bool :=
  (row_locallyModified r =? 1) && (row_locallyCreated r =? 0) && (row_locallyDeleted r =? 0).

Definition deleted_cond (r : TaskRow) : bool := row_locallyDeleted r =? 1.

Definition getLocallyCreatedTasks (db : DB) : list Task :=
  List.map rowToTask (select_where created_cond db).

Definition getLocallyModifiedTasks (db : DB) : list Task :=
  List.map rowToTask (select_where modified_cond db).

Definition getLocallyDeletedTasks (db : DB) : list Task :=
  List.map rowToTask (select_where deleted_cond db).

(** [markTaskAsSynced(id, serverTask?)]: [serverTask] carries only
    [lastUpdatedAt]. *)
Definition markTaskAsSynced (id : string) (serverTask : option Z) (db : DB) : DB :=
  update_where_id
    (fun r =>
       let r := set_locallyModified 0 (set_locallyCreated 0 (set_syncStatus "synced" r)) in
       match serverTask with
       | Some ts => set_serverLastUpdatedAt (Some ts) (set_lastUpdatedAt ts r)
       | None => r
       end)
    id db.

Definition removeSyncedDeletedTask (id : string) (db : DB) : DB :=
  delete_where_id id db.

(** The argument of [upsertTaskFromServer]. *)
Record ServerRecord := mkServerRecord {
  sr_id : string;
  sr_title : string;
  sr_description : option string;
  sr_status : string;
  sr_lastUpdatedAt : Z
}.

Definition upsertTaskFromServer (serverTask : ServerRecord) (db : DB) : DB :=
  insert_or_replace
    (mkRow (sr_id serverTask) (sr_title serverTask) (sr_description serverTask)
           (sr_status serverTask) (sr_lastUpdatedAt serverTask)
           (Some (sr_lastUpdatedAt serverTask)) "synced" 0 0 0)
    db.

Definition markTaskAsConflict (id : string) (db : DB) : DB :=
  update_where_id (set_syncStatus "conflict") id db.

(** ** The remote client ([lib/api.ts]) *)

Record ApiTask := mkApiTask {
  api_id : string;
  api_userId : string;
  api_title : string;
  api_description : option string;
  api_status : string;
  api_lastUpdatedAt : Z
}.

Record CreateTaskPayload := mkCreatePayload {
  cp_title : string;
  cp_description : option string;
  cp_status : string;
  cp_lastUpdatedAt : Z
}.

Record UpdateTaskPayload := mkUpdatePayload {
  up_title : option string;
  up_description : option string;
  up_status : option string;
  up_lastUpdatedAt : option Z
}.

(** The errors a call of the client can throw; all of them are [Error]
    instances, so every handler of the engine reads [error.message].
    [TypeError] is the [response.data] of a bodiless response. *)
Inductive ApiException :=
| UnauthorizedError (message : string)
| NotFoundError (message : string)
| ConflictError (message : string) (serverTask : ApiTask)
| ApiError (statusCode : Z) (message : string)
| ServerError (statusCode : Z) (message : string)
| NetworkError (message : string)
| TypeError (message : string).

Definition error_message (e : ApiException) : string :=
  match e with
  | UnauthorizedError m | NotFoundError m | ConflictError m _
  | ApiError _ m | ServerError _ m | NetworkError m | TypeError m => m
  end.

Inductive Result (A : Type) :=
| Returned (a : A)
| Thrown (e : ApiException).
Arguments Returned {A} a.
Arguments Thrown {A} e.

(** Everything behind [apiRequest] (the token getter, the network, the
    service and its data) is a state of type [S] that each call may change. *)
Class RemoteService (S : Type) := {
  api_fetchTasks : S -> Result (list ApiTask) * S;
  api_createTask : CreateTaskPayload -> S -> Result ApiTask * S;
  api_updateTask : string -> UpdateTaskPayload -> S -> Result ApiTask * S;
  api_deleteTask : string -> S -> Result unit * S
}.

(** ** JavaScript string helpers *)

(** [hay.includes(needle)]. *)
Fixpoint includes (needle hay : string) : bool :=
  String.prefix needle hay ||
  match hay with
  | EmptyString => false
  | String _ hay' => includes needle hay'
  end.

(** The double-quote character of the message templates. *)
Definition dquote : string := String (Ascii.ascii_of_nat 34) EmptyString.

(** A string is truthy when it is not empty. *)
Definition truthy (s : string) : bool :=
  match s with EmptyString => false | String _ _ => true end.

(** ** The engine's state ([lib/sync.ts], [lib/network.ts]) *)

Inductive SyncState := idle | syncing | error.

Inductive NetworkStatus := online | offline | unknown.

(** [interface SyncStatus]. *)
Record SyncStatus := mkSyncStatus {
  st_state : SyncState;
  st_lastSyncTime : option Z;
  st_pendingChanges : Z;
  st_error : option string;
  st_isOnline : bool
}.

(** What the engine does to its environment, in order. *)
Inductive Event :=
| EvFetchTasks
| EvCreateTask (payload : CreateTaskPayload)
| EvUpdateTask (id : string) (payload : UpdateTaskPayload)
| EvDeleteTask (id : string)
| EvStatus (listener : nat) (status : SyncStatus)
| EvComplete (listener : nat) (success : bool) (err : option string)
| EvRetryLog (attempt : Z) (lastErr : option string) (delay : Z)
| EvSleep (ms : Z)
| EvGiveUpLog (maxAttempts : Z) (lastErr : option string).

Definition is_network_call (e : Event) : bool :=
  match e with
  | EvFetchTasks | EvCreateTask _ | EvUpdateTask _ _ | EvDeleteTask _ => true
  | _ => false
  end.

Definition is_status_event (e : Event) : bool :=
  match e with EvStatus _ _ => true | _ => false end.

Section Engine.

Context {S : Type} `{RemoteService S}.

(** The [process.env] constants of [lib/sync.ts]. *)
Variables RETRY_DELAY_MS ERROR_BACKOFF_MS : Z.

Record World := mkWorld {
  w_db : DB;
  syncState : SyncState;
  lastSyncTime : option Z;
  lastError : option string;
  isSyncInProgress : bool;
  statusListeners : list nat;
  completeListeners : list nat;
  currentStatus : NetworkStatus;
  w_remote : S;
  w_clock : Z;
  w_trace : list Event
}.

(** *** A state monad over [World] *)

Definition M (A : Type) : Type := World -> A * World.

Definition ret {A} (a : A) : M A := fun w => (a, w).

Definition bind {A B} (m : M A) (k : A -> M B) : M B :=
  fun w => let (a, w') := m w in k a w'.

Notation "'let*' x := m 'in' k" := (bind m (fun x => k))
  (at level 10, x name, m at level 100, k at level 200).
Notation "'run' m 'then' k" := (bind m (fun _ => k))
  (at level 10, m at level 100, k at level 200).

Definition gets {A} (f : World -> A) : M A := fun w => (f w, w).

Definition modify (f : World -> World) : M unit := fun w => (tt, f w).

Definition with_db (f : DB -> DB) (w : World) : World :=
  mkWorld (f (w_db w)) (syncState w) (lastSyncTime w) (lastError w) (isSyncInProgress w)
          (statusListeners w) (completeListeners w) (currentStatus w) (w_remote w)
          (w_clock w) (w_trace w).

Definition with_syncState (v : SyncState) (w : World) : World :=
  mkWorld (w_db w) v (lastSyncTime w) (lastError w) (isSyncInProgress w)
          (statusListeners w) (completeListeners w) (currentStatus w) (w_remote w)
          (w_clock w) (w_trace w).

Definition with_lastSyncTime (v : option Z) (w : World) : World :=
  mkWorld (w_db w) (syncState w) v (lastError w) (isSyncInProgress w)
          (statusListeners w) (completeListeners w) (currentStatus w) (w_remote w)
          (w_clock w) (w_trace w).

Definition with_lastError (v : option string) (w : World) : World :=
  mkWorld (w_db w) (syncState w) (lastSyncTime w) v (isSyncInProgress w)
          (statusListeners w) (completeListeners w) (currentStatus w) (w_remote w)
          (w_clock w) (w_trace w).

Definition with_isSyncInProgress (v : bool) (w : World) : World :=
  mkWorld (w_db w) (syncState w) (lastSyncTime w) (lastError w) v
          (statusListeners w) (completeListeners w) (currentStatus w) (w_remote w)
          (w_clock w) (w_trace w).

Definition with_currentStatus (v : NetworkStatus) (w : World) : World :=
  mkWorld (w_db w) (syncState w) (lastSyncTime w) (lastError w) (isSyncInProgress w)
          (statusListeners w) (completeListeners w) v (w_remote w)
          (w_clock w) (w_trace w).

Definition with_remote (v : S) (w : World) : World :=
  mkWorld (w_db w) (syncState w) (lastSyncTime w) (lastError w) (isSyncInProgress w)
          (statusListeners w) (completeListeners w) (currentStatus w) v
          (w_clock w) (w_trace w).

Definition with_clock (v : Z) (w : World) : World :=
  mkWorld (w_db w) (syncState w) (lastSyncTime w) (lastError w) (isSyncInProgress w)
          (statusListeners w) (completeListeners w) (currentStatus w) (w_remote w)
          v (w_trace w).

Definition with_trace (f : list Event -> list Event) (w : World) : World :=
  mkWorld (w_db w) (syncState w) (lastSyncTime w) (lastError w) (isSyncInProgress w)
          (statusListeners w) (completeListeners w) (currentStatus w) (w_remote w)
          (w_clock w) (f (w_trace w)).

Definition emit (evs : list Event) : M unit :=
  modify (with_trace (fun t => (t ++ evs)%list)).

(** A store statement run for its effect on the table. *)
Definition store (f : DB -> DB) : M unit := modify (with_db f).

(** A call of the remote client: logged, then answered by the service. *)
Definition call {A} (ev : Event) (f : S -> Result A * S) : M (Result A) :=
  run emit [ev] then
  fun w => let (r, s') := f (w_remote w) in (r, with_remote s' w).

Definition Date_now : M Z := gets w_clock.

(** [sleep(ms)]: the timer fires after [ms] milliseconds. *)
Definition sleep (ms : Z) : M unit :=
  run emit [EvSleep ms] then
  modify (fun w => with_clock (w_clock w + ms) w).

(** [for (const x of xs) { ... }] threading the [errors] array. *)
Fixpoint for_each {A E} (body : E -> A -> M E) (xs : list A) (errors : E) : M E :=
  match xs with
  | [] => ret errors
  | x :: xs' => let* errors' := body errors x in for_each body xs' errors'
  end.

(** *** Status ([getSyncStatus], the listeners, [setSyncState]) *)

Definition isOnline (w : World) : bool :=
  match currentStatus w with online => true | _ => false end.

Definition getPendingChangesCount (db : DB) : Z :=
  let created := Z.of_nat (List.length (getLocallyCreatedTasks db)) in
  let modified := Z.of_nat (List.length (getLocallyModifiedTasks db)) in
  let deleted := Z.of_nat (List.length (getLocallyDeletedTasks db)) in
  created + modified + deleted.

Definition getSyncStatus (w : World) : SyncStatus :=
  {| st_state := syncState w;
     st_lastSyncTime := lastSyncTime w;
     st_pendingChanges := getPendingChangesCount (w_db w);
     st_error := lastError w;
     st_isOnline := isOnline w |}.

Definition notifyStatusListeners : M unit :=
  fun w => emit (List.map (fun l => EvStatus l (getSyncStatus w)) (statusListeners w)) w.

Definition notifySyncComplete (success : bool) (err : option string) : M unit :=
  fun w => emit (List.map (fun l => EvComplete l success err) (completeListeners w)) w.

Definition setSyncState (state : SyncState) (err : option string) : M unit :=
  run modify (with_syncState state) then
  run match err, state with
      | Some e, _ =>
          if truthy e then modify (with_lastError (Some e))
          else match state with
               | idle => modify (with_lastError None)
               | _ => ret tt
               end
      | None, idle => modify (with_lastError None)
      | None, _ => ret tt
      end then
  notifyStatusListeners.

(** *** Push phase ([pushChanges], [handleConflict]) *)

Definition upsertArg (serverTask : ApiTask) : ServerRecord :=
  {| sr_id := api_id serverTask;
     sr_title := api_title serverTask;
     sr_description := api_description serverTask;
     sr_status := api_status serverTask;
     sr_lastUpdatedAt := api_lastUpdatedAt serverTask |}.

(** The body of an update request: the task's own field values and the
    timestamp the server is expected to hold. *)
Definition updatePayload (task : Task) (base : Z) : UpdateTaskPayload :=
  {| up_title := Some (task_title task);
     up_description := task_description task;
     up_status := Some (task_status task);
     up_lastUpdatedAt := Some base |}.

Definition handleConflict (localTask : Task) (serverTask : ApiTask) : M unit :=
  if api_lastUpdatedAt serverTask <? task_lastUpdatedAt localTask then
    let payload := updatePayload localTask (api_lastUpdatedAt serverTask) in
    let* r := call (EvUpdateTask (task_id localTask) payload)
                   (api_updateTask (task_id localTask) payload) in
    match r with
    | Returned updatedTask =>
        store (markTaskAsSynced (task_id localTask) (Some (api_lastUpdatedAt updatedTask)))
    | Thrown _ => store (markTaskAsConflict (task_id localTask))
    end
  else
    store (upsertTaskFromServer (upsertArg serverTask)).

Definition pushCreatedTask (errors : list string) (task : Task) : M (list string) :=
  let payload :=
    {| cp_title := task_title task;
       cp_description := task_description task;
       cp_status := task_status task;
       cp_lastUpdatedAt := task_lastUpdatedAt task |} in
  let* r := call (EvCreateTask payload) (api_createTask payload) in
  match r with
  | Returned serverTask =>
      run store (markTaskAsSynced (task_id task) (Some (api_lastUpdatedAt serverTask))) then
      ret errors
  | Thrown e =>
      ret (errors ++ ["Failed to create task " +:+ dquote +:+ task_title task +:+ dquote
                      +:+ ": " +:+ error_message e])%list
  end.

Definition pushModifiedTask (errors : list string) (task : Task) : M (list string) :=
  let payload :=
    updatePayload task (match task_serverLastUpdatedAt task with
                        | Some ts => ts
                        | None => task_lastUpdatedAt task
                        end) in
  let* r := call (EvUpdateTask (task_id task) payload) (api_updateTask (task_id task) payload) in
  match r with
  | Returned serverTask =>
      run store (markTaskAsSynced (task_id task) (Some (api_lastUpdatedAt serverTask))) then
      ret errors
  | Thrown (ConflictError _ serverTask) =>
      run handleConflict task serverTask then
      ret errors
  | Thrown (NotFoundError _) =>
      run store (markTaskAsConflict (task_id task)) then
      ret (errors ++ ["Task " +:+ dquote +:+ task_title task +:+ dquote
                      +:+ " was deleted on server"])%list
  | Thrown e =>
      ret (errors ++ ["Failed to update task " +:+ dquote +:+ task_title task +:+ dquote
                      +:+ ": " +:+ error_message e])%list
  end.

Definition pushDeletedTask (errors : list string) (task : Task) : M (list string) :=
  let* r := call (EvDeleteTask (task_id task)) (api_deleteTask (task_id task)) in
  match r with
  | Returned _ =>
      run store (removeSyncedDeletedTask (task_id task)) then
      ret errors
  | Thrown (NotFoundError _) =>
      run store (removeSyncedDeletedTask (task_id task)) then
      ret errors
  | Thrown e =>
      ret (errors ++ ["Failed to delete task " +:+ dquote +:+ task_title task +:+ dquote
                      +:+ ": " +:+ error_message e])%list
  end.

Record PushResult := mkPushResult {
  push_success : bool;
  push_errors : list string
}.

Definition pushChanges : M PushResult :=
  let* createdTasks := gets (fun w => getLocallyCreatedTasks (w_db w)) in
  let* errors := for_each pushCreatedTask createdTasks [] in
  let* modifiedTasks := gets (fun w => getLocallyModifiedTasks (w_db w)) in
  let* errors := for_each pushModifiedTask modifiedTasks errors in
  let* deletedTasks := gets (fun w => getLocallyDeletedTasks (w_db w)) in
  let* errors := for_each pushDeletedTask deletedTasks errors in
  ret {| push_success := match errors with [] => true | _ => false end;
         push_errors := errors |}.

(** *** Pull phase ([pullChanges]) *)

Record PullResult := mkPullResult {
  pull_success : bool;
  pull_error : option string
}.

(** [new Set(localPendingTasks.map((t) => t.id))]. *)
Definition localPendingIds (db : DB) : gset string :=
  list_to_set
    (List.map task_id
       (getLocallyCreatedTasks db ++ getLocallyModifiedTasks db ++ getLocallyDeletedTasks db)%list).

(** [new Map(serverTasks.map((t) => [t.id, t]))]: a later entry replaces an
    earlier one with the same key. *)
Definition serverTaskMap (serverTasks : list ApiTask) : gmap string ApiTask :=
  List.fold_left (fun m t => <[api_id t := t]> m) serverTasks ∅.

Definition set_has (ids : gset string) (id : string) : bool := bool_decide (id ∈ ids).

Definition map_has (m : gmap string ApiTask) (id : string) : bool :=
  match m !! id with Some _ => true | None => false end.

Definition undefined_string : string := "undefined".

(** The guard of the reconciliation block:
    [serverTasks.length > 0 || !serverTasks.some((t) => t.id.includes('undefined'))]. *)
Definition pull_guard (serverTasks : list ApiTask) : bool :=
  (0 <? Z.of_nat (List.length serverTasks)) ||
  negb (List.existsb (fun t => includes undefined_string (api_id t)) serverTasks).

Definition pullUpsert (pending : gset string) (_ : unit) (serverTask : ApiTask) : M unit :=
  if set_has pending (api_id serverTask) then ret tt
  else store (upsertTaskFromServer (upsertArg serverTask)).

Definition pullRemove (serverMap : gmap string ApiTask) (_ : unit) (localTask : Task) : M unit :=
  if negb (map_has serverMap (task_id localTask))
  then store (removeSyncedDeletedTask (task_id localTask))
  else ret tt.

(** The reconciliation of a fetched record set against the store; the
    [else] branch only warns. *)
Definition pullReconcile (serverTasks : list ApiTask) : M unit :=
  let* localTasks := gets (fun w => getAllTasks (w_db w)) in
  let* pending := gets (fun w => localPendingIds (w_db w)) in
  let serverMap := serverTaskMap serverTasks in
  if pull_guard serverTasks then
    run for_each (pullUpsert pending) serverTasks tt then
    let syncedLocalTasks :=
      List.filter (fun task => negb (set_has pending (task_id task))
                               && negb (task_locallyCreated task)) localTasks in
    for_each (pullRemove serverMap) syncedLocalTasks tt
  else ret tt.

Definition pullChanges : M PullResult :=
  let* r := call EvFetchTasks api_fetchTasks in
  match r with
  | Returned serverTasks =>
      run pullReconcile serverTasks then
      ret {| pull_success := true; pull_error := None |}
  | Thrown e =>
      ret {| pull_success := false; pull_error := Some (error_message e) |}
  end.

(** *** The sync cycle ([sync]) *)

(** The aggregated message of a failed cycle. *)
Definition syncErrorMsg (pushResult : PushResult) (pullResult : PullResult) : string :=
  String.concat "; "
    (List.filter truthy
       (push_errors pushResult ++
        [match pull_error pullResult with
         | Some e => if truthy e then "Pull failed: " +:+ e else EmptyString
         | None => EmptyString
         end])%list).

(** The body after the two guards, up to and including the [finally]. *)
Definition syncCycle : M bool :=
  let* pushResult := pushChanges in
  let* pullResult := pullChanges in
  let* result :=
    if push_success pushResult && pull_success pullResult then
      let* now := Date_now in
      run modify (with_lastSyncTime (Some now)) then
      run setSyncState idle None then
      run notifySyncComplete true None then
      ret true
    else
      let errorMsg := syncErrorMsg pushResult pullResult in
      run setSyncState error (Some errorMsg) then
      run notifySyncComplete false (Some errorMsg) then
      ret false in
  run modify (with_isSyncInProgress false) then
  run notifyStatusListeners then
  ret result.

(** Entry of an accepted cycle: the flag is taken and [syncing] published. *)
Definition syncBegin : M unit :=
  run modify (with_isSyncInProgress true) then
  setSyncState syncing None.

Definition sync : M bool :=
  let* inProgress := gets isSyncInProgress in
  if inProgress then ret false
  else
    let* on := gets isOnline in
    if negb on then
      run notifyStatusListeners then
      ret false
    else
      run syncBegin then
      syncCycle.

(** *** Bounded retry ([syncWithRetry], [syncNow]) *)

Definition retryDelay (lastErr : option string) (attempt : Z) : Z :=
  if match lastErr with
     | Some e => includes "Unauthorized" e
     | None => false
     end
  then ERROR_BACKOFF_MS
  else RETRY_DELAY_MS * attempt.

(** The [for] loop of [syncWithRetry]; [fuel] bounds the iterations left. *)
Fixpoint retryLoop (fuel : nat) (maxAttempts attempt : Z) (lastErr : option string) : M bool :=
  match fuel with
  | O => run emit [EvGiveUpLog maxAttempts lastErr] then ret false
  | Datatypes.S fuel' =>
      if attempt <=? maxAttempts then
        let* success := sync in
        if success then ret true
        else
          let* currentStatus := gets getSyncStatus in
          let lastErr := st_error currentStatus in
          run (if attempt <? maxAttempts then
                 let delay := retryDelay lastErr attempt in
                 run emit [EvRetryLog attempt lastErr delay] then
                 sleep delay
               else ret tt) then
          retryLoop fuel' maxAttempts (attempt + 1) lastErr
      else
        run emit [EvGiveUpLog maxAttempts lastErr] then ret false
  end.

Definition syncWithRetry (maxAttempts : Z) : M bool :=
  retryLoop (Z.to_nat maxAttempts) maxAttempts 1 None.

(** The loop entered at [attempt], with the iterations it has left. *)
Definition retryFrom (maxAttempts attempt : Z) (lastErr : option string) : M bool :=
  retryLoop (Z.to_nat (maxAttempts - attempt + 1)) maxAttempts attempt lastErr.

(** [syncNow]: a single attempt. *)
Definition syncNow : M bool := syncWithRetry 1.

(** The world after the retry message and the back-off sleep that follow a
    failed attempt. *)
Definition after_backoff (attempt delay : Z) (w : World) : World :=
  snd (sleep delay (snd (emit [EvRetryLog attempt (lastError w) delay] w))).

Definition isSyncing (w : World) : bool := isSyncInProgress w.

(** Two worlds that agree on the module-level variables of the engine and
    of the network monitor. *)
Definition same_engine (w w' : World) : Prop :=
  syncState w' = syncState w /\ lastSyncTime w' = lastSyncTime w /\
  lastError w' = lastError w /\ isSyncInProgress w' = isSyncInProgress w /\
  statusListeners w' = statusListeners w /\ completeListeners w' = completeListeners w /\
  currentStatus w' = currentStatus w /\ w_clock w' = w_clock w.

End Engine.

Arguments World S : clear implicits.
Arguments M S A : clear implicits.

(** ** Histories of the local store *)

(** The calls that write to the table, with the values they draw from their
    environment ([generateUUID], [Date.now]). *)
Inductive StoreOp :=
| OpCreateTask (id : string) (now : Z) (input : CreateTaskInput)
| OpUpdateTask (id : string) (now : Z) (input : UpdateTaskInput)
| OpDeleteTask (id : string) (now : Z)
| OpToggleTaskComplete (id : string) (now : Z)
| OpMarkTaskAsSynced (id : string) (serverTask : option Z)
| OpRemoveSyncedDeletedTask (id : string)
| OpUpsertTaskFromServer (serverTask : ServerRecord)
| OpMarkTaskAsConflict (id : string).

Definition apply_op (db : DB) (op : StoreOp) : DB :=
  match op with
  | OpCreateTask id now input =>
      match createTask id now input db with
      | Some (db', _) => db'
      | None => db
      end
  | OpUpdateTask id now input => fst (updateTask id now input db)
  | OpDeleteTask id now => fst (deleteTask id now db)
  | OpToggleTaskComplete id now => fst (toggleTaskComplete id now db)
  | OpMarkTaskAsSynced id serverTask => markTaskAsSynced id serverTask db
  | OpRemoveSyncedDeletedTask id => removeSyncedDeletedTask id db
  | OpUpsertTaskFromServer serverTask => upsertTaskFromServer serverTask db
  | OpMarkTaskAsConflict id => markTaskAsConflict id db
  end.

(** The store after a history, starting from the empty table. *)
Definition run_ops (ops : list StoreOp) : DB := List.fold_left apply_op ops [].

(** The primary key: no two rows share an id. *)
Definition unique_ids (db : DB) : Prop := List.NoDup (List.map row_id db).

(** The assignments used by the store never touch the primary key. *)
Definition keeps_id (set : TaskRow -> TaskRow) : Prop :=
  forall r, row_id (set r) = row_id r.

(** A locally created row carries no other provenance flag. *)
Definition created_alone (r : TaskRow) : Prop :=
  row_locallyCreated r = 1 -> row_locallyModified r = 0 /\ row_locallyDeleted r = 0.

(** What every history of the store maintains. *)
Definition store_inv (db : DB) : Prop :=
  unique_ids db /\ List.Forall created_alone db.

(** A task as it reads after its [syncStatus] column was rewritten. *)
Definition task_with_syncStatus (v : string) (t : Task) : Task :=
  mkTask (task_id t) (task_title t) (task_description t) (task_status t)
         (task_lastUpdatedAt t) (task_serverLastUpdatedAt t) v
         (task_locallyCreated t) (task_locallyModified t) (task_locallyDeleted t).

(** The base timestamp of a plain update push:
    [task.serverLastUpdatedAt ?? task.lastUpdatedAt]. *)
Definition push_base (task : Task) : Z :=
  match task_serverLastUpdatedAt task with
  | Some ts => ts
  | None => task_lastUpdatedAt task
  end.

Definition is_update_call (e : Event) : bool :=
  match e with EvUpdateTask _ _ => true | _ => false end.

(** The writes the push loops for created and modified records make. *)
Definition push_write (op : StoreOp) : bool :=
  match op with
  | OpMarkTaskAsSynced _ _ | OpMarkTaskAsConflict _ | OpUpsertTaskFromServer _ => true
  | _ => false
  end.

(** Every soft-deleted row of [db'] was already soft-deleted in [db]. *)
Definition deleted_from (db db' : DB) : Prop :=
  forall r', List.In r' db' -> row_locallyDeleted r' = 1 ->
             exists r, List.In r db /\ row_id r = row_id r' /\ row_locallyDeleted r = 1.

(** Every row of [db'] is a row of [db], as it was or with [locallyCreated]
    and [locallyModified] cleared. *)
Definition cleared_from (db db' : DB) : Prop :=
  forall r', List.In r' db' ->
             exists r, List.In r db /\ row_id r = row_id r' /\
                       row_locallyDeleted r' = row_locallyDeleted r /\
                       (r' = r \/ (row_locallyCreated r' = 0 /\ row_locallyModified r' = 0)).

(** A row with a change still to be pushed. *)
Definition pending_cond (r : TaskRow) : bool :=
  created_cond r || modified_cond r || deleted_cond r.

(** Rows whose id is in the protected set. *)
Definition protected (ids : gset string) (r : TaskRow) : bool := set_has ids (row_id r).

(** ** Concrete scenarios *)

(** A task that was created, pushed, edited and then deleted. *)
Definition edited_then_deleted : list StoreOp :=
  [ OpCreateTask "t1" 10 (mkCreateInput "Buy milk" None);
    OpMarkTaskAsSynced "t1" (Some 20);
    OpUpdateTask "t1" 30 (mkUpdateInput (Some "Buy oat milk") None None);
    OpDeleteTask "t1" 40 ].

(** The store after one pull of a record from the server. *)
Definition synced_store : DB :=
  run_ops [OpUpsertTaskFromServer (mkServerRecord "t1" "Buy milk" None "pending" 100)].

(** The store after a record pulled with timestamp [base] was edited locally
    at time [now]. *)
Definition edited_store (base now : Z) : DB :=
  run_ops [OpUpsertTaskFromServer (mkServerRecord "t1" "Buy milk" None "pending" base);
           OpUpdateTask "t1" now (mkUpdateInput (Some "Buy oat milk") None None)].

Definition modified_store : DB := edited_store 100 150.

(** The edited record as the store returns it. *)
Definition edited_task (base now : Z) : Task :=
  mkTask "t1" "Buy oat milk" None "pending" now (Some base) "pending" false true false.

(** The server's version of that record, at timestamp 200. *)
Definition server_version : ApiTask :=
  mkApiTask "t1" "u1" "Buy soy milk" (Some "2l") "completed" 200.

(** A remote service that answers from a fixed table. *)
Record Oracle := mkOracle {
  on_fetch : Result (list ApiTask);
  on_create : CreateTaskPayload -> Result ApiTask;
  on_update : string -> UpdateTaskPayload -> Result ApiTask;
  on_delete : string -> Result unit
}.

#[export] Instance Oracle_service : RemoteService Oracle := {|
  api_fetchTasks s := (on_fetch s, s);
  api_createTask payload s := (on_create s payload, s);
  api_updateTask id payload s := (on_update s id payload, s);
  api_deleteTask id s := (on_delete s id, s)
|}.

(** A service on which every call fails with the given error. *)
Definition failing_service (e : ApiException) : Oracle :=
  {| on_fetch := Thrown e;
     on_create := fun _ => Thrown e;
     on_update := fun _ _ => Thrown e;
     on_delete := fun _ => Thrown e |}.

(** A service that holds no record: updates and deletes are not found. *)
Definition empty_service : Oracle :=
  {| on_fetch := Returned [];
     on_create := fun p => Returned (mkApiTask "s1" "u1" (cp_title p) (cp_description p)
                                               (cp_status p) (cp_lastUpdatedAt p));
     on_update := fun _ _ => Thrown (NotFoundError "Resource not found");
     on_delete := fun _ => Thrown (NotFoundError "Resource not found") |}.

(** A service whose record list is the single record with id [undefined]. *)
Definition suspicious_service : Oracle :=
  {| on_fetch := Returned [mkApiTask "undefined" "u1" "ghost" None "pending" 7];
     on_create := fun _ => Thrown (NetworkError "unreachable");
     on_update := fun _ _ => Thrown (NetworkError "unreachable");
     on_delete := fun _ => Thrown (NetworkError "unreachable") |}.

(** A service that answers every update with a conflict against [serverTask]
    unless the update is based on that record's timestamp. *)
Definition conflicting_service (serverTask : ApiTask) : Oracle :=
  {| on_fetch := Returned [serverTask];
     on_create := fun _ => Thrown (NetworkError "unreachable");
     on_update := fun id p =>
       if bool_decide (up_lastUpdatedAt p = Some (api_lastUpdatedAt serverTask))
       then Returned (mkApiTask id "u1" (default EmptyString (up_title p)) (up_description p)
                                (default EmptyString (up_status p))
                                (api_lastUpdatedAt serverTask + 1))
       else Thrown (ConflictError "Stale update conflict" serverTask);
     on_delete := fun _ => Thrown (NetworkError "unreachable") |}.

(** A service that accepts every update and stamps it with [ts]. *)
Definition accepting_service (ts : Z) : Oracle :=
  {| on_fetch := Returned [];
     on_create := fun p => Returned (mkApiTask "s1" "u1" (cp_title p) (cp_description p)
                                               (cp_status p) ts);
     on_update := fun id p =>
       Returned (mkApiTask id "u1" (default EmptyString (up_title p)) (up_description p)
                           (default EmptyString (up_status p)) ts);
     on_delete := fun _ => Returned tt |}.

(** An idle engine, online, with one status and one completion listener. *)
Definition start_world (remote : Oracle) (db : DB) : World Oracle :=
  mkWorld db idle None None false [1%nat] [2%nat] online remote 1000 [].

(** An engine that has accepted a cycle and not finished it. *)
Definition in_flight_world : World Oracle :=
  snd (syncBegin (start_world empty_service modified_store)).

(** The same, after the network went away. *)
Definition in_flight_offline_world : World Oracle :=
  with_currentStatus offline in_flight_world.

(** An engine whose service rejects the token, and one whose service is
    unreachable. *)
Definition unauthorized_world : World Oracle :=
  start_world (failing_service (UnauthorizedError "Unauthorized - token expired"))
              modified_store.

Definition unreachable_world : World Oracle :=
  start_world (failing_service (NetworkError "Network request failed")) modified_store.

(** An engine whose client has no token: [apiRequest] throws
    [UnauthorizedError('No authentication token available')]. *)
Definition missing_token_world : World Oracle :=
  start_world (failing_service (UnauthorizedError "No authentication token available"))
              modified_store.

(** ** Further vocabulary for the store *)

(** The id a store operation is addressed to. *)
Definition op_target (op : StoreOp) : string :=
  match op with
  | OpCreateTask id _ _ | OpUpdateTask id _ _ | OpDeleteTask id _
  | OpToggleTaskComplete id _ | OpMarkTaskAsSynced id _
  | OpRemoveSyncedDeletedTask id | OpMarkTaskAsConflict id => id
  | OpUpsertTaskFromServer serverTask => sr_id serverTask
  end.

(** A flag column holding 0 or 1. *)
Definition is_flag (z : Z) : Prop := z = 0 \/ z = 1.

(** A row as the statements of the store write it. *)
Definition wf_row (r : TaskRow) : Prop :=
  is_flag (row_locallyCreated r) /\ is_flag (row_locallyModified r) /\
  is_flag (row_locallyDeleted r) /\
  (row_syncStatus r = "synced" \/ row_syncStatus r = "pending"
   \/ row_syncStatus r = "conflict") /\
  (row_syncStatus r = "synced" -> row_locallyCreated r = 0 /\ row_locallyModified r = 0) /\
  (row_locallyCreated r = 1 ->
   row_locallyModified r = 0 /\ row_locallyDeleted r = 0 /\
   row_serverLastUpdatedAt r = None).

Definition store_wf (db : DB) : Prop := unique_ids db /\ List.Forall wf_row db.

(** The record [updateTask] leaves where it found [t]. *)
Definition updated_task (now : Z) (input : UpdateTaskInput) (t : Task) : Task :=
  mkTask (task_id t)
         (match ui_title input with Some v => v | None => task_title t end)
         (match ui_description input with Some d => Some d | None => task_description t end)
         (match ui_status input with Some v => v | None => task_status t end)
         now (task_serverLastUpdatedAt t)
         (if task_locallyCreated t then task_syncStatus t else "pending")
         (task_locallyCreated t)
         (if task_locallyCreated t then task_locallyModified t else true)
         (task_locallyDeleted t).

(** The record a soft delete leaves where it found [t]. *)
Definition soft_deleted_task (now : Z) (t : Task) : Task :=
  mkTask (task_id t) (task_title t) (task_description t) (task_status t) now
         (task_serverLastUpdatedAt t) "pending"
         (task_locallyCreated t) (task_locallyModified t) true.

(** The status [toggleTaskComplete] writes. *)
Definition toggled_status (status : string) : string :=
  if String.eqb status "completed" then "pending" else "completed".

(** The record a pull or an accepted server version leaves in the store. *)
Definition server_task (serverTask : ServerRecord) : Task :=
  mkTask (sr_id serverTask) (sr_title serverTask) (sr_description serverTask)
         (sr_status serverTask) (sr_lastUpdatedAt serverTask)
         (Some (sr_lastUpdatedAt serverTask)) "synced" false false false.

(** Most recent timestamp first. *)
Definition newest_first (tasks : list Task) : Prop :=
  StronglySorted (fun a b => task_lastUpdatedAt b <= task_lastUpdatedAt a) tasks.

(** A store with a pushed record [t1] and a record [t2] not yet pushed. *)
Definition two_task_store : DB :=
  run_ops [OpUpsertTaskFromServer (mkServerRecord "t1" "Buy milk" None "pending" 100);
           OpCreateTask "t2" 120 (mkCreateInput "Call Ana" (Some "before noon"))].

(** The [SET] clause [updateTask] builds; [created] is
    [existingTask.locallyCreated]. *)
Definition update_assignments (now : Z) (input : UpdateTaskInput) (created : bool)
  (r : TaskRow) : TaskRow :=
  let r := set_if set_title (ui_title input) r in
  let r := set_if (fun d => set_description (Some d)) (ui_description input) r in
  let r := set_if set_status (ui_status input) r in
  let r := set_lastUpdatedAt now r in
  if negb created then set_syncStatus "pending" (set_locallyModified 1 r) else r.

(** ** Further vocabulary for the engine *)

(** The body of a create request. *)
Definition createPayload (task : Task) : CreateTaskPayload :=
  {| cp_title := task_title task;
     cp_description := task_description task;
     cp_status := task_status task;
     cp_lastUpdatedAt := task_lastUpdatedAt task |}.

(** The messages of the push phase. *)
Definition create_failed_msg (task : Task) (e : ApiException) : string :=
  "Failed to create task " +:+ dquote +:+ task_title task +:+ dquote
  +:+ ": " +:+ error_message e.

Definition update_failed_msg (task : Task) (e : ApiException) : string :=
  "Failed to update task " +:+ dquote +:+ task_title task +:+ dquote
  +:+ ": " +:+ error_message e.

Definition delete_failed_msg (task : Task) (e : ApiException) : string :=
  "Failed to delete task " +:+ dquote +:+ task_title task +:+ dquote
  +:+ ": " +:+ error_message e.

Definition is_not_found (e : ApiException) : bool :=
  match e with NotFoundError _ => true | _ => false end.

Definition is_conflict (e : ApiException) : bool :=
  match e with ConflictError _ _ => true | _ => false end.

Definition is_create_call (e : Event) : bool :=
  match e with EvCreateTask _ => true | _ => false end.

Definition is_delete_call (e : Event) : bool :=
  match e with EvDeleteTask _ => true | _ => false end.

Definition is_complete_event (e : Event) : bool :=
  match e with EvComplete _ _ _ => true | _ => false end.

(** [w'] is [w] after some events, all of them satisfying [p]. *)
Definition extends_with {S : Type} (p : Event -> bool) (w w' : World S) : Prop :=
  exists evs, w_trace w' = (w_trace w ++ evs)%list /\ List.forallb p evs = true.

(** The version of record [id] that the last matching entry of a fetched
    list carries. *)
Fixpoint latest_server_version (id : string) (serverTasks : list ApiTask) : option ApiTask :=
  match serverTasks with
  | [] => None
  | a :: rest =>
      match latest_server_version id rest with
      | Some b => Some b
      | None => if String.eqb (api_id a) id then Some a else None
      end
  end.

(** No record waits to be pushed as a create, or as a delete. *)
Definition none_created (db : DB) : Prop :=
  forall r, List.In r db -> created_cond r = false.

Definition none_deleted (db : DB) : Prop :=
  forall r, List.In r db -> deleted_cond r = false.

(** A service that accepts creates under its own id [s1] and lists nothing
    else than what [listed] says. *)
Definition listing_service (listed : list ApiTask) : Oracle :=
  {| on_fetch := Returned listed;
     on_create := fun p => Returned (mkApiTask "s1" "u1" (cp_title p) (cp_description p)
                                               (cp_status p) 500);
     on_update := fun id p =>
       Returned (mkApiTask id "u1" (default EmptyString (up_title p)) (up_description p)
                           (default EmptyString (up_status p)) 500);
     on_delete := fun _ => Returned tt |}.

(** The store with one record created locally and never pushed. *)
Definition created_store : DB :=
  run_ops [OpCreateTask "c1" 120 (mkCreateInput "Buy milk" None)].

Definition created_task : Task :=
  mkTask "c1" "Buy milk" None "pending" 120 None "pending" true false false.

(** A fetched list with two entries for the same id. *)
Definition listed_twice : list ApiTask :=
  [server_version; mkApiTask "t1" "u1" "Buy rye bread" None "pending" 300].

(** ** Record ids ([generateUUID], [lib/db.ts]) *)

Definition hex_digits : list ascii := list_ascii_of_string "0123456789abcdef".

Definition hex_digit (d : Z) : ascii := List.nth (Z.to_nat d) hex_digits "0"%char.

(** [v.toString(16)]: the digits of [v] from the most significant one, after
    a minus sign when [v] is negative. *)
Fixpoint hex_of_nonneg (fuel : nat) (v : Z) : string :=
  match fuel with
  | O => EmptyString
  | Datatypes.S fuel' =>
      if v <? 16 then String (hex_digit v) EmptyString
      else hex_of_nonneg fuel' (v / 16) +:+ String (hex_digit (v mod 16)) EmptyString
  end.

Definition toString16 (v : Z) : string :=
  if v <? 0 then "-" +:+ hex_of_nonneg (Z.to_nat (- v)) (- v)
  else hex_of_nonneg (Datatypes.S (Z.to_nat v)) v.

(** The callback handed to [replace]: [c] is the matched character and
    [random] what [Math.random()] returned; [| 0] truncates the product,
    which is its floor as the product is not negative. *)
Definition uuid_digit (c : ascii) (random : Q) : string :=
  let r := Qfloor (random * inject_Z 16) in
  let v := if Ascii.eqb c "x" then r else Z.lor (Z.land r 3) 8 in
  toString16 v.

(** [template.replace(/[xy]/g, callback)]: the matches are replaced from
    left to right, and the [k]-th call of the callback makes the [k]-th
    draw of the random source. *)
Fixpoint replace_xy (callback : ascii -> Q -> string) (template : string)
         (random : nat -> Q) (k : nat) : string :=
  match template with
  | EmptyString => EmptyString
  | String c rest =>
      if Ascii.eqb c "x" || Ascii.eqb c "y"
      then callback c (random k) +:+ replace_xy callback rest random (Datatypes.S k)
      else String c (replace_xy callback rest random k)
  end.

Definition uuid_template : string := "xxxxxxxx-xxxx-4xxx-yxxx-xxxxxxxxxxxx".

Definition generateUUID (random : nat -> Q) : string :=
  replace_xy uuid_digit uuid_template random 0.

(** The strings a template stands for: a lower-case hexadecimal digit for
    [x], one of [8 9 a b] for [y], the character itself otherwise. *)
Definition is_hex (c : ascii) : bool := List.existsb (Ascii.eqb c) hex_digits.

Definition is_variant (c : ascii) : bool :=
  List.existsb (Ascii.eqb c) (list_ascii_of_string "89ab").

Fixpoint fits (template s : string) : bool :=
  match template, s with
  | EmptyString, EmptyString => true
  | String t template', String c s' =>
      (if Ascii.eqb t "x" then is_hex c
       else if Ascii.eqb t "y" then is_variant c
       else Ascii.eqb c t)
      && fits template' s'
  | _, _ => false
  end.

(** ** The network monitor ([lib/network.ts]) *)

Module Network.

(** [NetInfoState], as far as the monitor reads it. *)
Record NetInfoState := mkNetInfoState {
  ni_isConnected : option bool;
  ni_isInternetReachable : option bool;
  ni_type : string
}.

Record NetworkState := mkNetworkState {
  ns_status : NetworkStatus;
  ns_isConnected : bool;
  ns_isInternetReachable : option bool;
  ns_type : option string
}.

Definition parseNetInfoState (state : NetInfoState) : NetworkState :=
  let isConnected := default false (ni_isConnected state) in
  let isInternetReachable := ni_isInternetReachable state in
  let status :=
    if isConnected then
      match isInternetReachable with
      | Some false => offline
      | Some true => online
      | None => online
      end
    else offline in
  mkNetworkState status isConnected isInternetReachable (Some (ni_type state)).

(** The module's variables: [currentState], the listeners in the order in
    which they were added, and the calls made to them so far. *)
Record Monitor := mkMonitor {
  currentState : NetworkState;
  listeners : list nat;
  told : list (nat * NetworkState)
}.

Definition initial : Monitor :=
  mkMonitor (mkNetworkState unknown false None None) [] [].

Definition notifyListeners (state : NetworkState) (m : Monitor) : Monitor :=
  mkMonitor (currentState m) (listeners m)
            (told m ++ List.map (fun listener => (listener, state)) (listeners m))%list.

Definition handleNetworkChange (state : NetInfoState) (m : Monitor) : Monitor :=
  let newState := parseNetInfoState state in
  notifyListeners newState (mkMonitor newState (listeners m) (told m)).

Definition isOnline (m : Monitor) : bool :=
  match ns_status (currentState m) with online => true | _ => false end.

Definition isOffline (m : Monitor) : bool :=
  match ns_status (currentState m) with offline => true | _ => false end.

(** The monitor after the events of a list, oldest first. *)
Definition handle_all (events : list NetInfoState) (m : Monitor) : Monitor :=
  List.fold_left (fun m state => handleNetworkChange state m) events m.

End Network.

(** ** The HTTP client ([apiRequest], [lib/api.ts]) *)

(** [getAuthToken]: not configured, or a getter and the token it answers. *)
Inductive TokenGetter :=
| NoGetter
| Getter (token : option string).

(** A value with which [fetch] or the reading of a body rejects. *)
Inductive Raised :=
| RaisedTypeError (message : string)
| RaisedError (message : string)
| RaisedOther.

Inductive Attempt (A : Type) :=
| Resolves (a : A)
| Rejects (e : Raised).
Arguments Resolves {A} a.
Arguments Rejects {A} e.

(** A JSON body: read through [ApiErrorResponse] in the error branches, and
    through [ApiResponse], whose [data] is [jb_data], on success. *)
Record JsonBody (T : Type) := mkJsonBody {
  jb_error : option string;
  jb_message : option string;
  jb_serverTask : option ApiTask;
  jb_data : T
}.
Arguments mkJsonBody {T} _ _ _ _.
Arguments jb_error {T} _.
Arguments jb_message {T} _.
Arguments jb_serverTask {T} _.
Arguments jb_data {T} _.

Record Response (T : Type) := mkResponse {
  resp_status : Z;
  resp_text : Attempt string;
  resp_json : Attempt (JsonBody T)
}.
Arguments mkResponse {T} _ _ _.
Arguments resp_status {T} _.
Arguments resp_text {T} _.
Arguments resp_json {T} _.

(** [a || b] on an optional string. *)
Definition or_else (a : option string) (b : string) : string :=
  match a with
  | Some s => if truthy s then s else b
  | None => b
  end.

(** The [statusCode] the constructors of the error classes set. *)
Definition statusCode (e : ApiException) : option Z :=
  match e with
  | UnauthorizedError _ => Some 401
  | NotFoundError _ => Some 404
  | ConflictError _ _ => Some 409
  | ApiError code _ | ServerError code _ => Some code
  | NetworkError _ | TypeError _ => None
  end.

(** The outcome of the [try] block: a value ([None] is [undefined]), one of
    the client's own errors, or whatever the reading of the body raised. *)
Inductive TryOutcome (T : Type) :=
| Done (value : option T)
| Throws (e : ApiException)
| Raises (e : Raised).
Arguments Done {T} value.
Arguments Throws {T} e.
Arguments Raises {T} e.

Definition classify {T} (response : Response T) : TryOutcome T :=
  let status := resp_status response in
  if status =? 204 then Done None
  else if status =? 401 then
    let errorDetails :=
      match resp_text response with
      | Resolves errorText => errorText
      | Rejects _ => EmptyString
      end in
    Throws (UnauthorizedError ("Unauthorized - " +:+ errorDetails))
  else if status =? 404 then Throws (NotFoundError "Resource not found")
  else if status =? 409 then
    match resp_json response with
    | Resolves errorData =>
        match jb_serverTask errorData with
        | Some serverTask =>
            Throws (ConflictError (default "Stale update conflict" (jb_error errorData))
                                  serverTask)
        | None => Throws (ApiError 409 (or_else (jb_error errorData) "Conflict"))
        end
    | Rejects e => Raises e
    end
  else if (400 <=? status) && (status <? 500) then
    let errorMessage := "Request failed with status " +:+ pretty status in
    Throws (ApiError status
              match resp_json response with
              | Resolves errorData =>
                  or_else (jb_error errorData) (or_else (jb_message errorData) errorMessage)
              | Rejects _ => errorMessage
              end)
  else if 500 <=? status then
    let errorMessage := "Server error (" +:+ pretty status +:+ ")" in
    Throws (ServerError status
              match resp_json response with
              | Resolves errorData =>
                  or_else (jb_error errorData) (or_else (jb_message errorData) errorMessage)
              | Rejects _ => errorMessage
              end)
  else
    match resp_json response with
    | Resolves data => Done (Some (jb_data data))
    | Rejects e => Raises e
    end.

(** The [catch] block, on a value that is neither an [ApiError] nor a
    [NetworkError]. *)
Definition wrapRaised (e : Raised) : ApiException :=
  match e with
  | RaisedTypeError message =>
      if includes "fetch" message
      then NetworkError "Network error - Please check your connection"
      else NetworkError message
  | RaisedError message => NetworkError message
  | RaisedOther => NetworkError "Unknown error occurred"
  end.

(** [apiRequest]: [answer] is what [fetch] gives for the request. *)
Definition apiRequest {T} (getAuthToken : TokenGetter) (answer : Attempt (Response T))
  : Result (option T) :=
  match getAuthToken with
  | NoGetter => Thrown (UnauthorizedError "Auth token getter not configured")
  | Getter token =>
      if match token with Some t => truthy t | None => false end then
        match answer with
        | Resolves response =>
            match classify response with
            | Done value => Returned value
            | Throws e => Thrown e
            | Raises e => Thrown (wrapRaised e)
            end
        | Rejects e => Thrown (wrapRaised e)
        end
      else Thrown (UnauthorizedError "No authentication token available")
  end.

(** What reading [data] off [undefined] raises. *)
Definition undefined_data : ApiException :=
  TypeError "Cannot read property 'data' of undefined".

(** [response.data], where [response] is what [apiRequest] returned. *)
Definition response_data {T} (r : Result (option T)) : Result T :=
  match r with
  | Returned (Some data) => Returned data
  | Returned None => Thrown undefined_data
  | Thrown e => Thrown e
  end.

(** The token getter and, request by request, what [fetch] gives. *)
Record Http := mkHttp {
  http_token : TokenGetter;
  http_get_tasks : Attempt (Response (list ApiTask));
  http_post_task : CreateTaskPayload -> Attempt (Response ApiTask);
  http_put_task : string -> UpdateTaskPayload -> Attempt (Response ApiTask);
  http_delete_task : string -> Attempt (Response unit)
}.

(** [fetchTasks], [createTask], [updateTask] and [deleteTask] of the
    client; only the last one does not read [data]. *)
#[export] Instance Http_service : RemoteService Http := {|
  api_fetchTasks h := (response_data (apiRequest (http_token h) (http_get_tasks h)), h);
  api_createTask payload h :=
    (response_data (apiRequest (http_token h) (http_post_task h payload)), h);
  api_updateTask id payload h :=
    (response_data (apiRequest (http_token h) (http_put_task h id payload)), h);
  api_deleteTask id h :=
    (match apiRequest (http_token h) (http_delete_task h id) with
     | Returned _ => Returned tt
     | Thrown e => Thrown e
     end, h)
|}.

(** Whether the body of a response can be read as JSON. *)
Definition json_parses {T} (response : Response T) : bool :=
  match resp_json response with Resolves _ => true | Rejects _ => false end.

(** A server that answers every request with the same status and a body
    that is not JSON, to a client that holds a token. *)
Definition bodiless_answer {T} (status : Z) : Attempt (Response T) :=
  Resolves (mkResponse status (Resolves EmptyString)
                       (Rejects (RaisedError "JSON Parse error: Unexpected end of input"))).

Definition bodiless_http (status : Z) : Http :=
  mkHttp (Getter (Some "jwt")) (bodiless_answer status) (fun _ => bodiless_answer status)
         (fun _ _ => bodiless_answer status) (fun _ => bodiless_answer status).

(** An idle engine, online, on top of the HTTP client. *)
Definition http_world (h : Http) (db : DB) : World Http :=
  mkWorld db idle None None false [1%nat] [2%nat] online h 1000 [].

(** The record of [edited_then_deleted], as the deleted batch holds it. *)
Definition deleted_task : Task :=
  mkTask "t1" "Buy oat milk" None "pending" 40 (Some 20) "pending" false true true.

(** A row whose [syncStatus] is [pending] carries a provenance flag. *)
Definition pending_flagged (r : TaskRow) : Prop :=
  row_syncStatus r = "pending" ->
  row_locallyCreated r = 1 \/ row_locallyModified r = 1 \/ row_locallyDeleted r = 1.

(** The update calls the push phase makes for one record of the modified
    batch: the push itself, on the base the record carries, and, when
    [handleConflict] re-issues it, the same update on the server's
    timestamp. *)
Definition update_calls (task : Task) (reissue : option Z) : list Event :=
  EvUpdateTask (task_id task) (updatePayload task (push_base task))
  :: match reissue with
     | Some base => [EvUpdateTask (task_id task) (updatePayload task base)]
     | None => []
     end.

(** [calls] is what the push phase sends for [task]: one update, or two
    when a conflict is resolved in favour of the local record, whose
    timestamp is then the later one. *)
Definition update_calls_for (task : Task) (calls : list Event) : Prop :=
  exists reissue,
    calls = update_calls task reissue /\
    forall base, reissue = Some base -> base < task_lastUpdatedAt task.

(** ** Calls into the engine while a cycle is suspended ([sync], [initializeSync]) *)

Section Sessions.

Context {S : Type} `{RemoteService S}.

Local Notation "'let*' x := m 'in' k" := (bind m (fun x => k))
  (at level 10, x name, m at level 100, k at level 200).
Local Notation "'run' m 'then' k" := (bind m (fun _ => k))
  (at level 10, m at level 100, k at level 200).

(** A call of [sync()] up to its first [await]: [Some b] when the promise
    is settled with [b] by one of the two guards, [None] when the cycle has
    been entered and is suspended at [await pushChanges()].  What
    [pushChanges] does before its own first [await] (it reads a batch and
    calls the client) is counted with the resumption; it assigns none of the
    engine's variables. *)
Definition syncEnter : M S (option bool) :=
  let* inProgress := gets isSyncInProgress in
  if inProgress then ret (Some false)
  else
    let* on := gets isOnline in
    if negb on then
      run notifyStatusListeners then
      ret (Some false)
    else
      run syncBegin then
      ret None.

(** The rest of an accepted cycle once its push phase has returned. *)
Definition syncAfterPush (pushResult : PushResult) : M S bool :=
  let* pullResult := pullChanges in
  let* result :=
    if push_success pushResult && pull_success pullResult then
      let* now := Date_now in
      run modify (with_lastSyncTime (Some now)) then
      run setSyncState idle None then
      run notifySyncComplete true None then
      ret true
    else
      let errorMsg := syncErrorMsg pushResult pullResult in
      run setSyncState error (Some errorMsg) then
      run notifySyncComplete false (Some errorMsg) then
      ret false in
  run modify (with_isSyncInProgress false) then
  run notifyStatusListeners then
  ret result.

(** [initializeSync], on a provisioned table ([initializeDatabase] does not
    throw): the flag is cleared; [addNetworkListener] calls the callback at
    once with the current network state, an object and so truthy, which
    leaves [!isSyncInProgress] as the callback's test; then [sync()] is
    called.  The source drops the promises of both calls; they are returned
    here so that the cycles they start can be counted.  The registration of
    the callback itself lives in the network monitor. *)
Definition initializeSync : M S (list (option bool)) :=
  run modify (with_isSyncInProgress false) then
  let* inProgress := gets isSyncInProgress in
  let* fromListener :=
    if true && negb inProgress then
      let* promise := syncEnter in
      ret [promise]
    else ret [] in
  let* promise := syncEnter in
  ret (fromListener ++ [promise])%list.

(** Where a cycle in flight is suspended: at [await pushChanges()], or at
    [await pullChanges()] with the result of its push phase. *)
Inductive Stage :=
| Entered
| Pushed (pushResult : PushResult).

(** The engine and the cycles in flight: those that were accepted and have
    not gone through their [finally] block yet. *)
Record Session := mkSession {
  ses_world : World S;
  ses_cycles : list Stage
}.

(** What the event loop runs next: a call of [sync()] (from [syncWithRetry],
    the periodic timer, the network callback or the UI), a call of
    [initializeSync()], the resumption of the [i]-th cycle in flight up to
    its next suspension, or any other code of the app ([Elsewhere]: a write
    of the local store from the UI, a change of connectivity, a listener
    added or removed). *)
Inductive EngineStep :=
| CallSync
| CallInitializeSync
| Resume (i : nat)
| Elsewhere (f : World S -> World S).

Definition started (promise : option bool) : list Stage :=
  match promise with
  | None => [Entered]
  | Some _ => []
  end.

Definition engine_step (step : EngineStep) (s : Session) : Session :=
  match step with
  | CallSync =>
      let (promise, w) := syncEnter (ses_world s) in
      mkSession w (ses_cycles s ++ started promise)%list
  | CallInitializeSync =>
      let (promises, w) := initializeSync (ses_world s) in
      mkSession w (ses_cycles s ++ List.flat_map started promises)%list
  | Resume i =>
      match ses_cycles s !! i with
      | None => s
      | Some Entered =>
          let (pushResult, w) := pushChanges (ses_world s) in
          mkSession w (<[i := Pushed pushResult]> (ses_cycles s))
      | Some (Pushed pushResult) =>
          let (_, w) := syncAfterPush pushResult (ses_world s) in
          mkSession w (delete i (ses_cycles s))
      end
  | Elsewhere f => mkSession (f (ses_world s)) (ses_cycles s)
  end.

Definition run_steps (steps : list EngineStep) (s : Session) : Session :=
  List.fold_left (fun s step => engine_step step s) steps s.

(** The steps of a run in which [initializeSync] is called only when no
    cycle is in flight.  The in-progress flag is a variable private to
    [lib/sync.ts], so code elsewhere cannot assign it. *)
Definition step_allowed (step : EngineStep) (s : Session) : Prop :=
  match step with
  | CallInitializeSync => ses_cycles s = []
  | Elsewhere f => forall w, isSyncInProgress (f w) = isSyncInProgress w
  | _ => True
  end.

Fixpoint quiet_inits (steps : list EngineStep) (s : Session) : Prop :=
  match steps with
  | [] => True
  | step :: rest => step_allowed step s /\ quiet_inits rest (engine_step step s)
  end.

(** No cycle in flight and the flag clear, or one cycle in flight and the
    flag set. *)
Definition single_flight (s : Session) : Prop :=
  (ses_cycles s = [] /\ isSyncInProgress (ses_world s) = false) \/
  (exists stage, ses_cycles s = [stage] /\ isSyncInProgress (ses_world s) = true).

End Sessions.

Arguments Session S : clear implicits.

(** A cycle was accepted and is suspended in its push phase; then
    [initializeSync] is called, as [app/_layout.tsx] does from two
    effects; then both cycles in flight are resumed through their push
    phases. *)
Definition one_cycle_in_flight : Session Oracle :=
  run_steps [CallSync] (mkSession (start_world empty_service modified_store) []).

Definition after_second_initializeSync : Session Oracle :=
  run_steps [CallInitializeSync] one_cycle_in_flight.

Definition both_cycles_pushed : Session Oracle :=
  run_steps [Resume 0%nat; Resume 1%nat] after_second_initializeSync.

(** A client whose token getter answers [null]. *)
Definition tokenless_http : Http :=
  mkHttp (Getter None) (bodiless_answer 200) (fun _ => bodiless_answer 200)
         (fun _ _ => bodiless_answer 200) (fun _ => bodiless_answer 200).

(** A client that holds a token and whose every [fetch] fails. *)
Definition unreachable_answer {T} : Attempt (Response T) :=
  Rejects (RaisedTypeError "Network request failed").

Definition unreachable_http : Http :=
  mkHttp (Getter (Some "jwt")) unreachable_answer (fun _ => unreachable_answer)
         (fun _ _ => unreachable_answer) (fun _ => unreachable_answer).

(** The store with one record created locally, whose title quotes the word
    the retry wrapper looks for. *)
Definition titled_store : DB :=
  run_ops [OpCreateTask "c1" 120 (mkCreateInput "Report Unauthorized access" None)].

(** * Properties *)

(** ** The SQL statements *)

Lemma has_id_true id r : has_id id r = true <-> row_id r = id.
Proof. unfold has_id. apply String.eqb_eq. Qed.

Lemma has_id_false id r : has_id id r = false <-> row_id r <> id.
Proof. unfold has_id. apply String.eqb_neq. Qed.

Lemma find_update_same set id db :
  keeps_id set ->
  List.find (has_id id) (update_where_id set id db)
  = option_map set (List.find (has_id id) db).
Proof.
  intros Hk. induction db as [|r db IH]; simpl; [reflexivity|].
  destruct (has_id id r) eqn:E.
  - assert (has_id id (set r) = true) as ->; [|reflexivity].
    apply has_id_true. rewrite Hk. now apply has_id_true.
  - rewrite E. exact IH.
Qed.

Lemma find_update_other set id id' db :
  keeps_id set -> id' <> id ->
  List.find (has_id id') (update_where_id set id db) = List.find (has_id id') db.
Proof.
  intros Hk Hne. induction db as [|r db IH]; simpl; [reflexivity|].
  destruct (has_id id r) eqn:E.
  - apply has_id_true in E.
    assert (has_id id' (set r) = false) as ->
      by (apply has_id_false; rewrite Hk; congruence).
    assert (has_id id' r = false) as -> by (apply has_id_false; congruence).
    exact IH.
  - destruct (has_id id' r); [reflexivity|exact IH].
Qed.

Lemma ids_update_where_id set id db :
  keeps_id set -> List.map row_id (update_where_id set id db) = List.map row_id db.
Proof.
  intros Hk. unfold update_where_id. rewrite List.map_map.
  apply List.map_ext. intros r. destruct (has_id id r); [apply Hk|reflexivity].
Qed.

Lemma in_update_where_id set id db r' :
  List.In r' (update_where_id set id db) <->
  exists r, List.In r db /\ r' = if has_id id r then set r else r.
Proof.
  unfold update_where_id. rewrite List.in_map_iff.
  split; intros (r & H1 & H2); exists r; [split|split]; auto.
Qed.

Lemma in_delete_where_id id db r :
  List.In r (delete_where_id id db) <-> List.In r db /\ row_id r <> id.
Proof.
  unfold delete_where_id. rewrite List.filter_In.
  rewrite Bool.negb_true_iff, has_id_false. reflexivity.
Qed.

Lemma find_delete_same id db : List.find (has_id id) (delete_where_id id db) = None.
Proof.
  induction db as [|r db IH]; simpl; [reflexivity|].
  destruct (has_id id r) eqn:E; simpl; [exact IH|]. now rewrite E.
Qed.

Lemma find_delete_other id id' db :
  id' <> id ->
  List.find (has_id id') (delete_where_id id db) = List.find (has_id id') db.
Proof.
  intros Hne. induction db as [|r db IH]; simpl; [reflexivity|].
  destruct (has_id id r) eqn:E; simpl.
  - apply has_id_true in E.
    assert (has_id id' r = false) as -> by (apply has_id_false; congruence).
    exact IH.
  - destruct (has_id id' r); [reflexivity|exact IH].
Qed.

Lemma find_app_none {A} (f : A -> bool) l1 l2 :
  List.find f l1 = None -> List.find f (l1 ++ l2)%list = List.find f l2.
Proof.
  induction l1 as [|x l1 IH]; simpl; [reflexivity|].
  destruct (f x); [discriminate|exact IH].
Qed.

Lemma find_app_some {A} (f : A -> bool) l1 l2 x :
  List.find f l1 = Some x -> List.find f (l1 ++ l2)%list = Some x.
Proof.
  induction l1 as [|y l1 IH]; simpl; [discriminate|].
  destruct (f y); [auto|exact IH].
Qed.

Lemma find_insert_or_replace_same r db :
  List.find (has_id (row_id r)) (insert_or_replace r db) = Some r.
Proof.
  unfold insert_or_replace. rewrite find_app_none by apply find_delete_same.
  simpl. assert (has_id (row_id r) r = true) as -> by now apply has_id_true.
  reflexivity.
Qed.

Lemma find_insert_or_replace_other r id db :
  id <> row_id r ->
  List.find (has_id id) (insert_or_replace r db) = List.find (has_id id) db.
Proof.
  intros Hne. unfold insert_or_replace.
  destruct (List.find (has_id id) db) as [x|] eqn:E.
  - apply find_app_some. now rewrite find_delete_other.
  - rewrite find_app_none by now rewrite find_delete_other.
    simpl. assert (has_id id r = false) as -> by (apply has_id_false; congruence).
    reflexivity.
Qed.

Lemma unique_ids_find db r :
  unique_ids db -> List.In r db -> List.find (has_id (row_id r)) db = Some r.
Proof.
  unfold unique_ids. induction db as [|x db IH]; simpl; intros Hnd Hin; [contradiction|].
  inversion Hnd as [|? ? Hnotin Hnd']; subst.
  destruct Hin as [->|Hin].
  - assert (has_id (row_id r) r = true) as -> by now apply has_id_true.
    reflexivity.
  - destruct (has_id (row_id r) x) eqn:E.
    + apply has_id_true in E. exfalso. apply Hnotin. rewrite E.
      now apply List.in_map.
    + now apply IH.
Qed.

Lemma unique_ids_delete id db : unique_ids db -> unique_ids (delete_where_id id db).
Proof.
  unfold unique_ids, delete_where_id. induction db as [|x db IH]; simpl; intros Hnd; [exact Hnd|].
  inversion Hnd as [|? ? Hnotin Hnd']; subst.
  destruct (negb (has_id id x)); simpl; [|now apply IH].
  constructor; [|now apply IH].
  intros Hin. apply Hnotin. apply List.in_map_iff in Hin as (r & Hr & Hin).
  apply List.filter_In in Hin as [Hin _]. apply List.in_map_iff. eauto.
Qed.

Lemma unique_ids_snoc r db :
  unique_ids db -> List.find (has_id (row_id r)) db = None -> unique_ids (db ++ [r])%list.
Proof.
  unfold unique_ids. intros Hnd Hfind. rewrite List.map_app. simpl.
  apply List.NoDup_app; [exact Hnd|repeat constructor; simpl; tauto|].
  intros x Hin [<-|[]]. apply List.in_map_iff in Hin as (r' & Hr' & Hin).
  eapply List.find_none in Hfind; [|exact Hin].
  apply has_id_false in Hfind. congruence.
Qed.

(** ** Reading back after a write *)

Lemma markTaskAsSynced_set_keeps_id serverTask :
  keeps_id (fun r =>
       let r := set_locallyModified 0 (set_locallyCreated 0 (set_syncStatus "synced" r)) in
       match serverTask with
       | Some ts => set_serverLastUpdatedAt (Some ts) (set_lastUpdatedAt ts r)
       | None => r
       end).
Proof. intros r. destruct serverTask; reflexivity. Qed.

Lemma getTaskById_markTaskAsSynced_other id id' serverTask db :
  id' <> id -> getTaskById (markTaskAsSynced id serverTask db) id' = getTaskById db id'.
Proof.
  intros Hne. unfold getTaskById, markTaskAsSynced.
  now rewrite find_update_other by (auto using markTaskAsSynced_set_keeps_id).
Qed.

(** C1, as amended: [markTaskAsSynced] applied to a stored record sets
    [syncStatus] to [synced] and clears [locallyCreated] and
    [locallyModified]; [locallyDeleted] keeps the value it had.  So the three
    flags are all false afterwards exactly when the record was not
    soft-deleted before; with a server timestamp, both timestamps adopt it. *)
Theorem markTaskAsSynced_clears_created_and_modified :
  forall (db : DB) (id : string) (serverTask : option Z) (t : Task),
    getTaskById db id = Some t ->
    exists t',
      getTaskById (markTaskAsSynced id serverTask db) id = Some t' /\
      task_syncStatus t' = "synced" /\
      task_locallyCreated t' = false /\
      task_locallyModified t' = false /\
      task_locallyDeleted t' = task_locallyDeleted t /\
      (task_locallyDeleted t = false ->
       task_locallyCreated t' = false /\ task_locallyModified t' = false /\
       task_locallyDeleted t' = false) /\
      (forall ts, serverTask = Some ts ->
                  task_lastUpdatedAt t' = ts /\ task_serverLastUpdatedAt t' = Some ts).
Proof.
  intros db id serverTask t Hget. unfold getTaskById in *.
  unfold markTaskAsSynced.
  rewrite find_update_same by apply markTaskAsSynced_set_keeps_id.
  destruct (List.find (has_id id) db) as [r|]; [|discriminate].
  simpl in Hget. injection Hget as <-.
  eexists. split; [reflexivity|].
  split; [destruct serverTask; reflexivity|].
  split; [destruct serverTask; reflexivity|].
  split; [destruct serverTask; reflexivity|].
  split; [destruct serverTask; reflexivity|].
  split.
  - intros Hdel. destruct serverTask; (split; [reflexivity|split; [reflexivity|exact Hdel]]).
  - intros ts ->. split; reflexivity.
Qed.

Lemma markTaskAsSynced_clears_created_and_modified_witness :
  exists t',
    getTaskById (markTaskAsSynced "t1" (Some 50) (run_ops edited_then_deleted)) "t1" = Some t' /\
    task_syncStatus t' = "synced" /\
    task_locallyCreated t' = false /\
    task_locallyModified t' = false /\
    task_locallyDeleted t' = true.
Proof.
  assert (getTaskById (run_ops edited_then_deleted) "t1"
          = Some (mkTask "t1" "Buy oat milk" None "pending" 40 (Some 20) "pending"
                         false true true)) as Hget by (vm_compute; reflexivity).
  destruct (markTaskAsSynced_clears_created_and_modified _ _ (Some 50) _ Hget)
    as (t' & H1 & H2 & H3 & H4 & H5 & _).
  exists t'. repeat split; assumption.
Defined.

(** C1 fails as stated: on a soft-deleted record, [markTaskAsSynced] sets
    [syncStatus] to [synced] while [locallyDeleted] stays true. *)
Lemma markTaskAsSynced_keeps_locallyDeleted :
  getTaskById (markTaskAsSynced "t1" (Some 50) (run_ops edited_then_deleted)) "t1"
  = Some (mkTask "t1" "Buy oat milk" None "pending" 50 (Some 50) "synced" false false true)
  /\ ~ (forall t',
          getTaskById (markTaskAsSynced "t1" (Some 50) (run_ops edited_then_deleted)) "t1"
          = Some t' ->
          task_locallyCreated t' = false /\ task_locallyModified t' = false /\
          task_locallyDeleted t' = false /\ task_syncStatus t' = "synced").
Proof.
  assert (getTaskById (markTaskAsSynced "t1" (Some 50) (run_ops edited_then_deleted)) "t1"
          = Some (mkTask "t1" "Buy oat milk" None "pending" 50 (Some 50) "synced"
                         false false true)) as Hget by (vm_compute; reflexivity).
  split; [exact Hget|].
  intros Hall. destruct (Hall _ Hget) as (_ & _ & Hdel & _). discriminate Hdel.
Qed.

(** ** The invariant of the store's histories *)

Lemma existsb_false_find {A} (f : A -> bool) l :
  List.existsb f l = false -> List.find f l = None.
Proof.
  induction l as [|x l IH]; simpl; [reflexivity|].
  destruct (f x); simpl; [discriminate|exact IH].
Qed.

Lemma store_inv_update set id db :
  keeps_id set ->
  (forall r, List.In r db -> has_id id r = true -> created_alone r -> created_alone (set r)) ->
  store_inv db -> store_inv (update_where_id set id db).
Proof.
  intros Hk Hset [Hu Hall]. split.
  - unfold unique_ids. now rewrite ids_update_where_id.
  - rewrite List.Forall_forall in *. intros r' Hin.
    apply in_update_where_id in Hin as (r & Hin & ->).
    destruct (has_id id r) eqn:E; auto.
Qed.

Lemma store_inv_delete id db : store_inv db -> store_inv (delete_where_id id db).
Proof.
  intros [Hu Hall]. split; [now apply unique_ids_delete|].
  rewrite List.Forall_forall in *. intros r Hin.
  apply in_delete_where_id in Hin as [Hin _]. auto.
Qed.

Lemma store_inv_snoc r db :
  List.find (has_id (row_id r)) db = None -> created_alone r ->
  store_inv db -> store_inv (db ++ [r])%list.
Proof.
  intros Hfind Hr [Hu Hall]. split; [now apply unique_ids_snoc|].
  apply List.Forall_app. split; [exact Hall|]. now constructor.
Qed.

Lemma store_inv_createTask id now input db db' t :
  createTask id now input db = Some (db', t) -> store_inv db -> store_inv db'.
Proof.
  unfold createTask, insert_row. simpl.
  destruct (List.existsb (has_id id) db) eqn:E; [discriminate|].
  intros [= <- _] Hinv. apply store_inv_snoc; auto.
  - simpl. now apply existsb_false_find.
  - intros _. simpl. auto.
Qed.

Lemma getTaskById_some_row db id t :
  getTaskById db id = Some t ->
  exists r, List.find (has_id id) db = Some r /\ t = rowToTask r /\
            List.In r db /\ row_id r = id.
Proof.
  unfold getTaskById. destruct (List.find (has_id id) db) as [r|] eqn:E; [|discriminate].
  intros [= <-]. exists r. apply List.find_some in E as [Hin Hid].
  apply has_id_true in Hid. auto.
Qed.

Lemma unique_row db id r r' :
  unique_ids db -> List.find (has_id id) db = Some r ->
  List.In r' db -> has_id id r' = true -> r' = r.
Proof.
  intros Hu Hfind Hin Hid. apply has_id_true in Hid. subst id.
  rewrite (unique_ids_find db r' Hu Hin) in Hfind. congruence.
Qed.

Lemma store_inv_updateTask id now input db : store_inv db -> store_inv (fst (updateTask id now input db)).
Proof.
  intros Hinv. unfold updateTask.
  destruct (getTaskById db id) as [existingTask|] eqn:Hget; [|exact Hinv].
  destruct (no_updates input); [exact Hinv|]. simpl.
  apply getTaskById_some_row in Hget as (r0 & Hfind & -> & _ & _).
  apply store_inv_update; [| |exact Hinv].
  - intros r. destruct input as [[?|] [?|] [?|]]; simpl;
      destruct (row_locallyCreated r0 =? 1); reflexivity.
  - intros r Hin Hid Hr.
    assert (r = r0) as -> by (eapply unique_row; eauto; apply Hinv).
    unfold created_alone in *. simpl.
    destruct (row_locallyCreated r0 =? 1) eqn:E; simpl.
    + destruct input as [[?|] [?|] [?|]]; simpl; exact Hr.
    + apply Z.eqb_neq in E.
      destruct input as [[?|] [?|] [?|]]; simpl; intros; contradiction.
Qed.

Lemma store_inv_deleteTask id now db : store_inv db -> store_inv (fst (deleteTask id now db)).
Proof.
  intros Hinv. unfold deleteTask.
  destruct (getTaskById db id) as [task|] eqn:Hget; [|exact Hinv].
  apply getTaskById_some_row in Hget as (r0 & Hfind & -> & _ & _). simpl.
  destruct (row_locallyCreated r0 =? 1) eqn:E; simpl.
  - now apply store_inv_delete.
  - apply store_inv_update; [intros r; reflexivity| |exact Hinv].
    intros r Hin Hid _.
    assert (r = r0) as -> by (eapply unique_row; eauto; apply Hinv).
    apply Z.eqb_neq in E. unfold created_alone. simpl. intros; contradiction.
Qed.

Lemma store_inv_toggleTaskComplete id now db :
  store_inv db -> store_inv (fst (toggleTaskComplete id now db)).
Proof.
  intros Hinv. unfold toggleTaskComplete.
  destruct (getTaskById db id); [|exact Hinv]. now apply store_inv_updateTask.
Qed.

Lemma store_inv_markTaskAsSynced id serverTask db :
  store_inv db -> store_inv (markTaskAsSynced id serverTask db).
Proof.
  intros Hinv.
  apply store_inv_update; [apply markTaskAsSynced_set_keeps_id| |exact Hinv].
  intros r _ _ _. unfold created_alone. destruct serverTask; simpl; discriminate.
Qed.

Lemma store_inv_upsertTaskFromServer serverTask db :
  store_inv db -> store_inv (upsertTaskFromServer serverTask db).
Proof.
  intros Hinv. unfold upsertTaskFromServer, insert_or_replace.
  apply store_inv_snoc.
  - apply find_delete_same.
  - unfold created_alone. simpl. discriminate.
  - now apply store_inv_delete.
Qed.

Lemma store_inv_markTaskAsConflict id db : store_inv db -> store_inv (markTaskAsConflict id db).
Proof.
  intros Hinv. apply store_inv_update; [intros r; reflexivity| |exact Hinv].
  intros r _ _ Hr. exact Hr.
Qed.

Lemma store_inv_apply_op db op : store_inv db -> store_inv (apply_op db op).
Proof.
  intros Hinv. destruct op; simpl.
  - destruct (createTask id now input db) as [[db' t]|] eqn:E; [|exact Hinv].
    eapply store_inv_createTask; eauto.
  - now apply store_inv_updateTask.
  - now apply store_inv_deleteTask.
  - now apply store_inv_toggleTaskComplete.
  - now apply store_inv_markTaskAsSynced.
  - now apply store_inv_delete.
  - now apply store_inv_upsertTaskFromServer.
  - now apply store_inv_markTaskAsConflict.
Qed.

Lemma store_inv_fold ops : forall db, store_inv db -> store_inv (List.fold_left apply_op ops db).
Proof.
  induction ops as [|op ops IH]; simpl; intros db Hinv; [exact Hinv|].
  apply IH. now apply store_inv_apply_op.
Qed.

Lemma store_inv_run_ops ops : store_inv (run_ops ops).
Proof. apply store_inv_fold. split; constructor. Qed.

(** The primary key holds after every history. *)
Lemma unique_ids_run_ops ops : unique_ids (run_ops ops).
Proof. apply store_inv_run_ops. Qed.

(** C3 fails as stated: after create, push, edit, delete (all of them
    operations of the store) the record has [locallyModified] and
    [locallyDeleted] both true. *)
Lemma modified_and_deleted_together :
  List.map rowToTask (run_ops edited_then_deleted)
  = [mkTask "t1" "Buy oat milk" None "pending" 40 (Some 20) "pending" false true true]
  /\ ~ (forall ops t, List.In t (List.map rowToTask (run_ops ops)) ->
                      ~ (task_locallyModified t = true /\ task_locallyDeleted t = true)).
Proof.
  assert (List.map rowToTask (run_ops edited_then_deleted)
          = [mkTask "t1" "Buy oat milk" None "pending" 40 (Some 20) "pending"
                    false true true]) as Hrun by (vm_compute; reflexivity).
  split; [exact Hrun|].
  intros Hall. apply (Hall edited_then_deleted _ ltac:(rewrite Hrun; left; reflexivity)).
  split; reflexivity.
Qed.

(** ** The provenance queries *)

Lemma in_getLocallyCreatedTasks db t :
  List.In t (getLocallyCreatedTasks db) ->
  task_locallyCreated t = true /\ task_locallyDeleted t = false.
Proof.
  unfold getLocallyCreatedTasks, select_where. rewrite List.in_map_iff.
  intros (r & <- & Hin). apply List.filter_In in Hin as [_ Hc].
  unfold created_cond in Hc. apply andb_prop in Hc as [Hc Hd].
  simpl. split; [exact Hc|]. apply Z.eqb_eq in Hd. now rewrite Hd.
Qed.

Lemma in_getLocallyModifiedTasks db t :
  List.In t (getLocallyModifiedTasks db) ->
  task_locallyModified t = true /\ task_locallyCreated t = false /\
  task_locallyDeleted t = false.
Proof.
  unfold getLocallyModifiedTasks, select_where. rewrite List.in_map_iff.
  intros (r & <- & Hin). apply List.filter_In in Hin as [_ Hc].
  unfold modified_cond in Hc. apply andb_prop in Hc as [Hc Hd].
  apply andb_prop in Hc as [Hm Hc].
  apply Z.eqb_eq in Hd, Hc. simpl. rewrite Hd, Hc. auto.
Qed.

Lemma in_getLocallyDeletedTasks db t :
  List.In t (getLocallyDeletedTasks db) -> task_locallyDeleted t = true.
Proof.
  unfold getLocallyDeletedTasks, select_where. rewrite List.in_map_iff.
  intros (r & <- & Hin). apply List.filter_In in Hin as [_ Hc]. exact Hc.
Qed.

(** C3, as amended: [locallyModified] and [locallyDeleted] can be true
    together; what every history of the store maintains is that a record
    with [locallyCreated] true has [locallyModified] and [locallyDeleted]
    false, and a record with [locallyDeleted] true is never returned by
    [getLocallyModifiedTasks] (deletion supersedes modification in the push
    queries, not in the flags). *)
Theorem created_flag_excludes_the_others :
  forall (ops : list StoreOp) (t : Task),
    List.In t (List.map rowToTask (run_ops ops)) ->
    (task_locallyCreated t = true ->
     task_locallyModified t = false /\ task_locallyDeleted t = false) /\
    (task_locallyDeleted t = true ->
     ~ List.In t (getLocallyModifiedTasks (run_ops ops))).
Proof.
  intros ops t Hin. split.
  - apply List.in_map_iff in Hin as (r & <- & Hin).
    destruct (store_inv_run_ops ops) as [_ Hall].
    rewrite List.Forall_forall in Hall. specialize (Hall r Hin).
    simpl. intros Hc. apply Z.eqb_eq in Hc. destruct (Hall Hc) as [-> ->].
    split; reflexivity.
  - intros Hd Hm. apply in_getLocallyModifiedTasks in Hm as (_ & _ & Hd').
    congruence.
Qed.

Lemma created_flag_excludes_the_others_witness :
  (true = true -> false = false /\ false = false) /\
  (false = true ->
   ~ List.In (mkTask "t1" "Buy milk" None "pending" 10 None "pending" true false false)
       (getLocallyModifiedTasks (run_ops [OpCreateTask "t1" 10 (mkCreateInput "Buy milk" None)]))).
Proof.
  apply (created_flag_excludes_the_others
           [OpCreateTask "t1" 10 (mkCreateInput "Buy milk" None)]
           (mkTask "t1" "Buy milk" None "pending" 10 None "pending" true false false)).
  vm_compute. left. reflexivity.
Defined.

Lemma conds_exclusive r :
  (created_cond r = true -> modified_cond r = false /\ deleted_cond r = false) /\
  (modified_cond r = true -> deleted_cond r = false).
Proof.
  unfold created_cond, modified_cond, deleted_cond.
  destruct (row_locallyCreated r =? 1) eqn:C1; destruct (row_locallyCreated r =? 0) eqn:C0;
    destruct (row_locallyDeleted r =? 0) eqn:D0; destruct (row_locallyDeleted r =? 1) eqn:D1;
    destruct (row_locallyModified r =? 1); simpl; split; intros; try split;
    try reflexivity; try discriminate;
    repeat match goal with
           | E : (_ =? _) = true |- _ => apply Z.eqb_eq in E
           | E : (_ =? _) = false |- _ => apply Z.eqb_neq in E
           end; try lia.
Qed.

Lemma pending_count_cons r db :
  getPendingChangesCount (r :: db)
  = getPendingChangesCount db + (if pending_cond r then 1 else 0).
Proof.
  unfold getPendingChangesCount, getLocallyCreatedTasks, getLocallyModifiedTasks,
    getLocallyDeletedTasks, select_where, pending_cond.
  rewrite !List.length_map. simpl.
  destruct (conds_exclusive r) as [Hc Hm].
  destruct (created_cond r) eqn:C.
  - destruct (Hc eq_refl) as [-> ->]. simpl. lia.
  - destruct (modified_cond r) eqn:Mo.
    + rewrite (Hm eq_refl). simpl. lia.
    + destruct (deleted_cond r); simpl; lia.
Qed.

Lemma pending_count_filter db :
  getPendingChangesCount db = Z.of_nat (List.length (List.filter pending_cond db)).
Proof.
  induction db as [|r db IH]; [reflexivity|].
  rewrite pending_count_cons, IH. simpl.
  destruct (pending_cond r); simpl; lia.
Qed.

Lemma NoDup_map_filter {A B} (f : A -> B) (p : A -> bool) l :
  List.NoDup (List.map f l) -> List.NoDup (List.map f (List.filter p l)).
Proof.
  induction l as [|x l IH]; simpl; intros Hnd; [exact Hnd|].
  inversion Hnd as [|? ? Hnotin Hnd']; subst.
  destruct (p x); simpl; [|now apply IH].
  constructor; [|now apply IH].
  intros Hin. apply Hnotin. apply List.in_map_iff in Hin as (y & Hy & Hin).
  apply List.filter_In in Hin as [Hin _]. apply List.in_map_iff. eauto.
Qed.

Lemma NoDup_map_inj_on {A B} (f : A -> B) l x y :
  List.NoDup (List.map f l) -> List.In x l -> List.In y l -> f x = f y -> x = y.
Proof.
  induction l as [|z l IH]; simpl; intros Hnd Hx Hy Hf; [contradiction|].
  inversion Hnd as [|? ? Hnotin Hnd']; subst.
  destruct Hx as [->|Hx], Hy as [->|Hy]; auto.
  - exfalso. apply Hnotin. rewrite Hf. now apply List.in_map.
  - exfalso. apply Hnotin. rewrite <- Hf. now apply List.in_map.
Qed.

Lemma task_ids_of_rows l : List.map task_id (List.map rowToTask l) = List.map row_id l.
Proof. rewrite List.map_map. reflexivity. Qed.

Lemma ids_of_filters_disjoint (p q : TaskRow -> bool) db id :
  unique_ids db ->
  (forall r, p r = true -> q r = false) ->
  List.In id (List.map row_id (List.filter p db)) ->
  ~ List.In id (List.map row_id (List.filter q db)).
Proof.
  intros Hu Hpq Hp Hq.
  apply List.in_map_iff in Hp as (x & Hx & Hp), Hq as (y & Hy & Hq).
  apply List.filter_In in Hp as [Hinx Hp], Hq as [Hiny Hq].
  assert (x = y) as -> by (eapply NoDup_map_inj_on; eauto; congruence).
  rewrite (Hpq y Hp) in Hq. discriminate.
Qed.

(** The ids of the three push batches, in push order. *)
Lemma pending_ids_NoDup db :
  unique_ids db ->
  List.NoDup (List.map task_id
                (getLocallyCreatedTasks db ++ getLocallyModifiedTasks db
                 ++ getLocallyDeletedTasks db)%list).
Proof.
  intros Hu. unfold getLocallyCreatedTasks, getLocallyModifiedTasks,
    getLocallyDeletedTasks, select_where.
  rewrite !List.map_app, !task_ids_of_rows.
  apply List.NoDup_app; [now apply NoDup_map_filter| |].
  - apply List.NoDup_app; [now apply NoDup_map_filter|now apply NoDup_map_filter|].
    intros id. apply ids_of_filters_disjoint; [exact Hu|].
    intros r. apply conds_exclusive.
  - intros id Hc Hin. apply List.in_app_or in Hin as [Hin|Hin]; revert Hin.
    + eapply ids_of_filters_disjoint; eauto.
      intros r Hr. now destruct (proj1 (conds_exclusive r) Hr).
    + eapply ids_of_filters_disjoint; eauto.
      intros r Hr. now destruct (proj1 (conds_exclusive r) Hr).
Qed.

(** ** The engine *)

Section EngineFacts.

Context {S : Type} `{RemoteService S}.
Variables RETRY_DELAY_MS ERROR_BACKOFF_MS : Z.

Implicit Types w : World S.

Lemma for_each_preserves {A E} (I : World S -> Prop) (body : E -> A -> M S E) xs :
  (forall e x w, List.In x xs -> I w -> I (snd (body e x w))) ->
  forall e w, I w -> I (snd (for_each body xs e w)).
Proof.
  induction xs as [|x xs IH]; intros Hbody e w Hw; [exact Hw|].
  simpl. unfold bind. specialize (Hbody e x w (or_introl eq_refl) Hw) as Hx.
  destruct (body e x w) as [e' w']. simpl in Hx.
  apply IH; [|exact Hx]. intros e0 x0 w0 Hin. apply Hbody. now right.
Qed.

Lemma call_db {A} ev (f : S -> Result A * S) w : w_db (snd (call ev f w)) = w_db w.
Proof.
  unfold call, bind, emit, modify. simpl. destruct (f (w_remote w)); reflexivity.
Qed.

Lemma call_spec {A} ev (f : S -> Result A * S) w :
  call ev f w
  = (fst (f (w_remote w)),
     with_remote (snd (f (w_remote w))) (with_trace (fun t => (t ++ [ev])%list) w)).
Proof.
  unfold call, bind, emit, modify. simpl. destruct (f (w_remote w)); reflexivity.
Qed.

(** *** The in-progress guard *)

Lemma syncBegin_takes_flag w : isSyncInProgress (snd (syncBegin w)) = true.
Proof.
  unfold syncBegin, setSyncState, notifyStatusListeners, bind, modify, emit, ret.
  reflexivity.
Qed.

(** The first guard: with the in-progress flag set, a call of [sync]
    returns [false] and leaves the whole world as it was: no push, no pull,
    no network call, no notification, and the same sync state,
    [lastSyncTime] and [lastError]. *)
Theorem sync_rejected_while_in_progress :
  forall w, isSyncInProgress w = true -> sync w = (false, w).
Proof.
  intros w Hflag. unfold sync, bind, gets. rewrite Hflag. reflexivity.
Qed.

(** Between the entry of an accepted cycle and its end, every further call
    is rejected: at most one cycle is in flight. *)
Lemma sync_rejected_after_syncBegin w :
  sync (snd (syncBegin w)) = (false, snd (syncBegin w)).
Proof. unfold sync, bind, gets. now rewrite syncBegin_takes_flag. Qed.

(** *** The offline guard *)

(** C8, as amended: a call of [sync] while offline returns [false], makes
    no network call and leaves the store, the sync state, [lastSyncTime] and
    [lastError] unchanged; it re-publishes the current status to every
    status listener when no cycle is in progress, and publishes nothing when
    one is, since the in-progress guard comes first. *)
Theorem sync_rejected_while_offline :
  forall w,
    isOnline w = false ->
    fst (sync w) = false /\
    w_db (snd (sync w)) = w_db w /\
    w_remote (snd (sync w)) = w_remote w /\
    syncState (snd (sync w)) = syncState w /\
    lastSyncTime (snd (sync w)) = lastSyncTime w /\
    lastError (snd (sync w)) = lastError w /\
    List.filter is_network_call (w_trace (snd (sync w)))
    = List.filter is_network_call (w_trace w) /\
    (isSyncInProgress w = false ->
     w_trace (snd (sync w))
     = (w_trace w
        ++ List.map (fun l => EvStatus l (getSyncStatus w)) (statusListeners w))%list) /\
    (isSyncInProgress w = true -> w_trace (snd (sync w)) = w_trace w).
Proof.
  intros w Hoff. unfold sync, bind, gets.
  destruct (isSyncInProgress w) eqn:Hflag.
  - simpl. repeat split; auto. discriminate.
  - rewrite Hoff. simpl. repeat split; auto; try discriminate.
    rewrite List.filter_app.
    assert (List.filter is_network_call
              (List.map (fun l => EvStatus l (getSyncStatus w)) (statusListeners w)) = [])
      as ->; [|now rewrite List.app_nil_r].
    induction (statusListeners w); [reflexivity|exact IHl].
Qed.

End EngineFacts.

Lemma sync_rejected_while_in_progress_witness :
  isSyncInProgress in_flight_world = true /\
  sync in_flight_world = (false, in_flight_world).
Proof.
  split; [vm_compute; reflexivity|].
  apply (sync_rejected_while_in_progress in_flight_world).
  vm_compute; reflexivity.
Defined.

Lemma sync_rejected_while_offline_witness :
  fst (sync (with_currentStatus offline (start_world empty_service modified_store))) = false /\
  w_trace (snd (sync (with_currentStatus offline (start_world empty_service modified_store))))
  = [EvStatus 1 (mkSyncStatus idle None 1 None false)].
Proof.
  destruct (sync_rejected_while_offline
              (with_currentStatus offline (start_world empty_service modified_store))
              ltac:(vm_compute; reflexivity))
    as (Hres & _ & _ & _ & _ & _ & _ & Hpub & _).
  split; [exact Hres|].
  rewrite Hpub by (vm_compute; reflexivity). vm_compute. reflexivity.
Defined.

(** C8 fails as stated: offline and with a cycle in progress, [sync] returns
    [false] without publishing anything to the registered status listener. *)
Lemma sync_offline_in_progress_publishes_nothing :
  isOnline in_flight_offline_world = false /\
  statusListeners in_flight_offline_world = [1%nat] /\
  sync in_flight_offline_world = (false, in_flight_offline_world) /\
  w_trace (snd (sync in_flight_offline_world))
  <> (w_trace in_flight_offline_world
      ++ List.map (fun l => EvStatus l (getSyncStatus in_flight_offline_world))
           (statusListeners in_flight_offline_world))%list.
Proof.
  assert (sync in_flight_offline_world = (false, in_flight_offline_world)) as Hsync
    by (vm_compute; reflexivity).
  split; [vm_compute; reflexivity|].
  split; [vm_compute; reflexivity|].
  split; [exact Hsync|].
  rewrite Hsync. simpl snd. intros Heq.
  apply (f_equal (@List.length Event)) in Heq.
  rewrite List.length_app in Heq. vm_compute in Heq. discriminate Heq.
Qed.

(** ** The pull phase *)

Lemma pull_guard_true serverTasks : pull_guard serverTasks = true.
Proof. destruct serverTasks; reflexivity. Qed.

(** C9 (the code departs from it): the guard of the reconciliation block
    holds for every response, so the branch that warns about a suspicious
    response and skips is never taken.  On a response whose only record has
    id [undefined], the pull upserts that record and hard-deletes the synced
    local record the response does not list. *)
Theorem pull_suspicious_response_is_reconciled :
  on_fetch suspicious_service
  = Returned [mkApiTask "undefined" "u1" "ghost" None "pending" 7] /\
  List.map row_id synced_store = ["t1"] /\
  pull_guard [mkApiTask "undefined" "u1" "ghost" None "pending" 7] = true /\
  w_db (snd (pullChanges (start_world suspicious_service synced_store)))
  = [mkRow "undefined" "ghost" None "pending" 7 (Some 7) "synced" 0 0 0] /\
  (forall serverTasks, pull_guard serverTasks = true).
Proof.
  split; [reflexivity|]. split; [vm_compute; reflexivity|].
  split; [reflexivity|]. split; [vm_compute; reflexivity|].
  apply pull_guard_true.
Qed.

Section PullFacts.

Context {S : Type} `{RemoteService S}.

Implicit Types w : World S.

Lemma filter_protected_delete ids id db :
  set_has ids id = false ->
  List.filter (protected ids) (delete_where_id id db) = List.filter (protected ids) db.
Proof.
  intros Hid. unfold delete_where_id.
  induction db as [|r db IH]; simpl; [reflexivity|].
  destruct (has_id id r) eqn:E; simpl.
  - apply has_id_true in E. unfold protected at 2. rewrite E, Hid. exact IH.
  - destruct (protected ids r); [f_equal|]; exact IH.
Qed.

Lemma filter_protected_upsert ids serverTask db :
  set_has ids (sr_id serverTask) = false ->
  List.filter (protected ids) (upsertTaskFromServer serverTask db)
  = List.filter (protected ids) db.
Proof.
  intros Hid. unfold upsertTaskFromServer, insert_or_replace. simpl.
  rewrite List.filter_app, filter_protected_delete by exact Hid.
  simpl. unfold protected at 2. simpl. rewrite Hid. apply List.app_nil_r.
Qed.

Lemma pullReconcile_keeps_protected serverTasks w :
  List.filter (protected (localPendingIds (w_db w))) (w_db (snd (pullReconcile serverTasks w)))
  = List.filter (protected (localPendingIds (w_db w))) (w_db w).
Proof.
  unfold pullReconcile, bind, gets. rewrite pull_guard_true.
  set (ids := localPendingIds (w_db w)).
  set (I := fun w' : World S =>
              List.filter (protected ids) (w_db w') = List.filter (protected ids) (w_db w)).
  assert (I (snd (for_each (pullUpsert ids) serverTasks tt w))) as Hup.
  { apply for_each_preserves; [|reflexivity].
    intros [] a w' _ Hw'. unfold pullUpsert.
    destruct (set_has ids (api_id a)) eqn:E; [exact Hw'|].
    unfold I, store, modify. simpl.
    rewrite filter_protected_upsert by exact E. exact Hw'. }
  destruct (for_each (pullUpsert ids) serverTasks tt w) as [[] w1]. simpl in Hup.
  apply (for_each_preserves I); [|exact Hup].
  intros [] t w' Hin Hw'. apply List.filter_In in Hin as [_ Hin].
  apply andb_prop in Hin as [Hin _]. apply Bool.negb_true_iff in Hin.
  unfold pullRemove.
  destruct (negb (map_has (serverTaskMap serverTasks) (task_id t))); [|exact Hw'].
  unfold I, store, modify, removeSyncedDeletedTask. simpl.
  rewrite filter_protected_delete by exact Hin. exact Hw'.
Qed.

Lemma pullChanges_keeps_protected w :
  List.filter (protected (localPendingIds (w_db w))) (w_db (snd (pullChanges w)))
  = List.filter (protected (localPendingIds (w_db w))) (w_db w).
Proof.
  unfold pullChanges, bind. rewrite call_spec.
  destruct (fst (api_fetchTasks (w_remote w))) as [serverTasks|e]; [|reflexivity].
  match goal with
  | |- context [pullReconcile serverTasks ?w1] =>
      pose proof (pullReconcile_keeps_protected serverTasks w1) as Hrec;
      destruct (pullReconcile serverTasks w1) as [[] w2]
  end.
  exact Hrec.
Qed.

(** A row with a pending change has its id in the pending-id set. *)
Lemma pending_row_protected db r :
  List.In r db -> pending_cond r = true -> protected (localPendingIds db) r = true.
Proof.
  intros Hin Hp. unfold protected, set_has. apply bool_decide_eq_true.
  unfold localPendingIds. apply elem_of_list_to_set, list_elem_of_In.
  unfold getLocallyCreatedTasks, getLocallyModifiedTasks, getLocallyDeletedTasks, select_where.
  rewrite <- !List.map_app, task_ids_of_rows. apply List.in_map.
  unfold pending_cond in Hp.
  apply List.in_or_app.
  destruct (created_cond r) eqn:C; [left; now apply List.filter_In|].
  right. apply List.in_or_app.
  destruct (modified_cond r) eqn:Mo; [left; now apply List.filter_In|].
  right. now apply List.filter_In.
Qed.

Lemma find_filter_protected ids id db :
  set_has ids id = true ->
  List.find (has_id id) (List.filter (protected ids) db) = List.find (has_id id) db.
Proof.
  intros Hid. induction db as [|r db IH]; simpl; [reflexivity|].
  destruct (has_id id r) eqn:E.
  - assert (protected ids r = true) as ->
      by (unfold protected; apply has_id_true in E; now rewrite E).
    simpl. now rewrite E.
  - destruct (protected ids r); simpl; [rewrite E|]; exact IH.
Qed.

(** C6: a record that carries a pending local change when the pull phase
    starts (it is returned by one of the three provenance queries, so its id
    is in the pending-id set) is still in the store, unchanged, when the
    pull phase ends, whatever the server answered; reading it by id gives
    the same record, and the sub-table of protected rows as a whole is the
    same. *)
Theorem pull_leaves_pending_records_unchanged :
  forall w (r : TaskRow),
    List.In r (w_db w) ->
    pending_cond r = true ->
    set_has (localPendingIds (w_db w)) (row_id r) = true /\
    List.In r (w_db (snd (pullChanges w))) /\
    getTaskById (w_db (snd (pullChanges w))) (row_id r) = getTaskById (w_db w) (row_id r) /\
    List.filter (protected (localPendingIds (w_db w))) (w_db (snd (pullChanges w)))
    = List.filter (protected (localPendingIds (w_db w))) (w_db w).
Proof.
  intros w r Hin Hp.
  pose proof (pending_row_protected _ _ Hin Hp) as Hprot.
  pose proof (pullChanges_keeps_protected w) as Hkeep.
  split; [exact Hprot|]. split; [|split; [|exact Hkeep]].
  - assert (List.In r (List.filter (protected (localPendingIds (w_db w))) (w_db w))) as Hf
      by now apply List.filter_In.
    rewrite <- Hkeep in Hf. now apply List.filter_In in Hf.
  - unfold getTaskById.
    rewrite <- (find_filter_protected _ _ (w_db (snd (pullChanges w))) Hprot).
    rewrite <- (find_filter_protected _ _ (w_db w) Hprot).
    now rewrite Hkeep.
Qed.

End PullFacts.

Lemma pull_leaves_pending_records_unchanged_witness :
  List.In (mkRow "t1" "Buy oat milk" None "pending" 150 (Some 100) "pending" 0 1 0)
    (w_db (snd (pullChanges (start_world suspicious_service modified_store)))).
Proof.
  apply (pull_leaves_pending_records_unchanged
           (start_world suspicious_service modified_store)
           (mkRow "t1" "Buy oat milk" None "pending" 150 (Some 100) "pending" 0 1 0)).
  - vm_compute. left. reflexivity.
  - vm_compute. reflexivity.
Defined.

(** ** The push phase *)

Section PushFacts.

Context {S : Type} `{RemoteService S}.

Implicit Types w : World S.

Lemma in_modified_with_conflict db t :
  List.In t (getLocallyModifiedTasks db) ->
  List.In (task_with_syncStatus "conflict" t)
    (getLocallyModifiedTasks (markTaskAsConflict (task_id t) db)).
Proof.
  unfold getLocallyModifiedTasks, select_where. rewrite !List.in_map_iff.
  intros (r & <- & Hin). apply List.filter_In in Hin as [Hin Hc].
  exists (set_syncStatus "conflict" r). split; [reflexivity|].
  apply List.filter_In. split; [|exact Hc].
  apply in_update_where_id. exists r. split; [exact Hin|].
  assert (has_id (task_id (rowToTask r)) r = true) as -> by now apply has_id_true.
  reflexivity.
Qed.

Lemma getTaskById_markTaskAsConflict db id t :
  getTaskById db id = Some t ->
  getTaskById (markTaskAsConflict id db) id = Some (task_with_syncStatus "conflict" t).
Proof.
  unfold getTaskById, markTaskAsConflict.
  rewrite find_update_same by (intros r; reflexivity).
  destruct (List.find (has_id id) db); [|discriminate]. now intros [= <-].
Qed.

(** C2, as amended: when pushing a locally-modified record yields a
    not-found outcome, the record's [syncStatus] becomes [conflict] and the
    error string is surfaced; its provenance flags are left as they were, so
    the record is still returned by [getLocallyModifiedTasks] afterwards and
    the next cycle pushes it again as a plain update. *)
Theorem not_found_marks_conflict_and_stays_modified :
  forall w (errors : list string) (task : Task) (message : string),
    List.In task (getLocallyModifiedTasks (w_db w)) ->
    fst (api_updateTask (task_id task) (updatePayload task (push_base task)) (w_remote w))
    = Thrown (NotFoundError message) ->
    fst (pushModifiedTask errors task w)
    = (errors ++ ["Task " +:+ dquote +:+ task_title task +:+ dquote
                  +:+ " was deleted on server"])%list /\
    w_db (snd (pushModifiedTask errors task w)) = markTaskAsConflict (task_id task) (w_db w) /\
    List.In (task_with_syncStatus "conflict" task)
      (getLocallyModifiedTasks (w_db (snd (pushModifiedTask errors task w)))) /\
    (getTaskById (w_db w) (task_id task) = Some task ->
     getTaskById (w_db (snd (pushModifiedTask errors task w))) (task_id task)
     = Some (task_with_syncStatus "conflict" task)).
Proof.
  intros w errors task message Hin Hnf.
  assert (pushModifiedTask errors task w
          = ((errors ++ ["Task " +:+ dquote +:+ task_title task +:+ dquote
                         +:+ " was deleted on server"])%list,
             with_db (markTaskAsConflict (task_id task))
               (with_remote
                  (snd (api_updateTask (task_id task) (updatePayload task (push_base task))
                                       (w_remote w)))
                  (with_trace
                     (fun t => (t ++ [EvUpdateTask (task_id task)
                                        (updatePayload task (push_base task))])%list) w))))
    as ->.
  { unfold pushModifiedTask, bind. fold (push_base task). rewrite call_spec, Hnf.
    reflexivity. }
  simpl. split; [reflexivity|]. split; [reflexivity|].
  split; [now apply in_modified_with_conflict|].
  apply getTaskById_markTaskAsConflict.
Qed.

(** *** Conflict resolution *)

(** C4: [handleConflict] decides by comparing the two timestamps.  When the
    local record is strictly newer, one update is re-issued that carries the
    local field values and the server's timestamp as base; if it succeeds
    the stored record keeps its field values and is marked synced with the
    returned timestamp, and if it fails the record is marked [conflict].
    When the local record is not newer, nothing is sent and the stored
    record takes the server's field values and timestamp, marked synced. *)
Theorem handleConflict_last_write_wins :
  forall w (localTask : Task) (serverTask : ApiTask),
    getTaskById (w_db w) (task_id localTask) = Some localTask ->
    (api_lastUpdatedAt serverTask < task_lastUpdatedAt localTask ->
     let payload := updatePayload localTask (api_lastUpdatedAt serverTask) in
     let answer := api_updateTask (task_id localTask) payload (w_remote w) in
     w_trace (snd (handleConflict localTask serverTask w))
     = (w_trace w ++ [EvUpdateTask (task_id localTask) payload])%list /\
     up_title payload = Some (task_title localTask) /\
     up_description payload = task_description localTask /\
     up_status payload = Some (task_status localTask) /\
     up_lastUpdatedAt payload = Some (api_lastUpdatedAt serverTask) /\
     w_remote (snd (handleConflict localTask serverTask w)) = snd answer /\
     getTaskById (w_db (snd (handleConflict localTask serverTask w))) (task_id localTask)
     = Some match fst answer with
            | Returned updatedTask =>
                mkTask (task_id localTask) (task_title localTask)
                       (task_description localTask) (task_status localTask)
                       (api_lastUpdatedAt updatedTask) (Some (api_lastUpdatedAt updatedTask))
                       "synced" false false (task_locallyDeleted localTask)
            | Thrown _ => task_with_syncStatus "conflict" localTask
            end) /\
    (task_lastUpdatedAt localTask <= api_lastUpdatedAt serverTask ->
     api_id serverTask = task_id localTask ->
     w_trace (snd (handleConflict localTask serverTask w)) = w_trace w /\
     w_remote (snd (handleConflict localTask serverTask w)) = w_remote w /\
     getTaskById (w_db (snd (handleConflict localTask serverTask w))) (task_id localTask)
     = Some (mkTask (task_id localTask) (api_title serverTask) (api_description serverTask)
                    (api_status serverTask) (api_lastUpdatedAt serverTask)
                    (Some (api_lastUpdatedAt serverTask)) "synced" false false false)).
Proof.
  intros w localTask serverTask Hget. split.
  - intros Hnewer payload answer. unfold handleConflict.
    apply Z.ltb_lt in Hnewer. rewrite Hnewer. unfold bind. rewrite call_spec.
    fold payload. fold answer.
    apply getTaskById_some_row in Hget as (r0 & Hfind & Heq & _ & _).
    destruct (fst answer) as [updatedTask|e]; simpl.
    + repeat (split; [reflexivity|]).
      unfold getTaskById, markTaskAsSynced.
      rewrite find_update_same by apply (markTaskAsSynced_set_keeps_id (Some _)).
      rewrite Hfind. rewrite Heq. reflexivity.
    + repeat (split; [reflexivity|]).
      apply getTaskById_markTaskAsConflict. unfold getTaskById. now rewrite Hfind, Heq.
  - intros Hold Hid. unfold handleConflict.
    apply Z.ltb_ge in Hold. rewrite Hold. unfold store, modify. simpl.
    split; [reflexivity|]. split; [reflexivity|].
    unfold getTaskById, upsertTaskFromServer. rewrite <- Hid.
    rewrite (find_insert_or_replace_same
               (mkRow (api_id serverTask) (api_title serverTask) (api_description serverTask)
                      (api_status serverTask) (api_lastUpdatedAt serverTask)
                      (Some (api_lastUpdatedAt serverTask)) "synced" 0 0 0)).
    reflexivity.
Qed.

End PushFacts.

Lemma not_found_marks_conflict_and_stays_modified_witness :
  List.In (task_with_syncStatus "conflict" (edited_task 100 150))
    (getLocallyModifiedTasks
       (w_db (snd (pushModifiedTask [] (edited_task 100 150)
                     (start_world empty_service modified_store))))).
Proof.
  apply (not_found_marks_conflict_and_stays_modified
           (start_world empty_service modified_store) [] (edited_task 100 150)
           "Resource not found").
  - vm_compute. left. reflexivity.
  - vm_compute. reflexivity.
Defined.

(** C2 fails as stated: after the not-found outcome the record is still in
    the locally-modified batch, and the next cycle sends the same plain
    update again. *)
Lemma not_found_record_is_pushed_again :
  lastError (snd (sync (start_world empty_service modified_store)))
  = Some ("Task " +:+ dquote +:+ "Buy oat milk" +:+ dquote +:+ " was deleted on server") /\
  getLocallyModifiedTasks (w_db (snd (sync (start_world empty_service modified_store))))
  = [task_with_syncStatus "conflict" (edited_task 100 150)] /\
  List.filter is_update_call
    (w_trace (snd (sync (snd (sync (start_world empty_service modified_store))))))
  = [EvUpdateTask "t1" (updatePayload (edited_task 100 150) 100);
     EvUpdateTask "t1" (updatePayload (edited_task 100 150) 100)].
Proof.
  split; [vm_compute; reflexivity|]. split; vm_compute; reflexivity.
Qed.

Lemma handleConflict_last_write_wins_witness :
  getTaskById
    (w_db (snd (handleConflict (edited_task 100 300) server_version
                  (start_world (accepting_service 301) (edited_store 100 300))))) "t1"
  = Some (mkTask "t1" "Buy oat milk" None "pending" 301 (Some 301) "synced" false false false)
  /\
  getTaskById
    (w_db (snd (handleConflict (edited_task 50 100) server_version
                  (start_world (accepting_service 301) (edited_store 50 100))))) "t1"
  = Some (mkTask "t1" "Buy soy milk" (Some "2l") "completed" 200 (Some 200) "synced"
                 false false false).
Proof.
  split.
  - destruct (handleConflict_last_write_wins
                (start_world (accepting_service 301) (edited_store 100 300))
                (edited_task 100 300) server_version ltac:(vm_compute; reflexivity))
      as [Hnewer _].
    destruct (Hnewer ltac:(vm_compute; reflexivity)) as (_ & _ & _ & _ & _ & _ & Hrec).
    refine (eq_trans Hrec _). vm_compute. reflexivity.
  - destruct (handleConflict_last_write_wins
                (start_world (accepting_service 301) (edited_store 50 100))
                (edited_task 50 100) server_version ltac:(vm_compute; reflexivity))
      as [_ Holder].
    destruct (Holder ltac:(vm_compute; discriminate) ltac:(vm_compute; reflexivity))
      as (_ & _ & Hrec).
    refine (eq_trans Hrec _). vm_compute. reflexivity.
Defined.

(** ** What push and pull leave alone *)

Section FrameFacts.

Context {S : Type} `{RemoteService S}.

Implicit Types w : World S.

Lemma same_engine_refl w : same_engine w w.
Proof. repeat split. Qed.

Lemma same_engine_trans w1 w2 w3 :
  same_engine w1 w2 -> same_engine w2 w3 -> same_engine w1 w3.
Proof.
  unfold same_engine. intros (?&?&?&?&?&?&?&?) (?&?&?&?&?&?&?&?).
  repeat split; congruence.
Qed.

Lemma call_same_engine {A} ev (f : S -> Result A * S) w : same_engine w (snd (call ev f w)).
Proof. rewrite call_spec. repeat split. Qed.

Lemma for_each_same_engine {A E} (body : E -> A -> M S E) xs :
  (forall e x w, same_engine w (snd (body e x w))) ->
  forall e w, same_engine w (snd (for_each body xs e w)).
Proof.
  intros Hbody e w. apply (for_each_preserves (same_engine w)); [|apply same_engine_refl].
  intros e' x w' _ Hw'. eapply same_engine_trans; [exact Hw'|apply Hbody].
Qed.

Lemma pushCreatedTask_same_engine e t w : same_engine w (snd (pushCreatedTask e t w)).
Proof.
  unfold pushCreatedTask, bind. rewrite call_spec.
  match goal with |- context [fst ?a] => destruct (fst a) end; repeat split.
Qed.

Lemma handleConflict_same_engine t serverTask w :
  same_engine w (snd (handleConflict t serverTask w)).
Proof.
  unfold handleConflict.
  destruct (api_lastUpdatedAt serverTask <? task_lastUpdatedAt t); [|repeat split].
  unfold bind. rewrite call_spec.
  match goal with |- context [fst ?a] => destruct (fst a) end; repeat split.
Qed.

Lemma pushModifiedTask_same_engine e t w : same_engine w (snd (pushModifiedTask e t w)).
Proof.
  unfold pushModifiedTask, bind. rewrite call_spec.
  match goal with |- context [fst ?a] => destruct (fst a) as [serverTask|err] end;
    [repeat split|].
  destruct err as [m|m|m serverTask|c m|c m|m|m]; try solve [repeat split].
  match goal with
  | |- context [handleConflict t serverTask ?w1] =>
      pose proof (handleConflict_same_engine t serverTask w1) as Hc;
      destruct (handleConflict t serverTask w1) as [[] w2]
  end.
  simpl in *. destruct Hc as (?&?&?&?&?&?&?&?). repeat split; assumption.
Qed.

Lemma pushDeletedTask_same_engine e t w : same_engine w (snd (pushDeletedTask e t w)).
Proof.
  unfold pushDeletedTask, bind. rewrite call_spec.
  match goal with |- context [fst ?a] => destruct (fst a) as [u|err] end;
    [repeat split|].
  destruct err; repeat split.
Qed.

Lemma pushChanges_same_engine w : same_engine w (snd (pushChanges w)).
Proof.
  unfold pushChanges, bind, gets. simpl.
  pose proof (for_each_same_engine pushCreatedTask
                (getLocallyCreatedTasks (w_db w)) pushCreatedTask_same_engine [] w) as H1.
  destruct (for_each pushCreatedTask _ [] w) as [e1 w1]. simpl in *.
  pose proof (for_each_same_engine pushModifiedTask
                (getLocallyModifiedTasks (w_db w1)) pushModifiedTask_same_engine e1 w1) as H2.
  destruct (for_each pushModifiedTask _ e1 w1) as [e2 w2]. simpl in *.
  pose proof (for_each_same_engine pushDeletedTask
                (getLocallyDeletedTasks (w_db w2)) pushDeletedTask_same_engine e2 w2) as H3.
  destruct (for_each pushDeletedTask _ e2 w2) as [e3 w3]. simpl in *.
  eauto using same_engine_trans.
Qed.

Lemma pullReconcile_same_engine serverTasks w :
  same_engine w (snd (pullReconcile serverTasks w)).
Proof.
  unfold pullReconcile, bind, gets. rewrite pull_guard_true.
  match goal with
  | |- context [for_each (pullUpsert ?ids) serverTasks tt w] =>
      pose proof (for_each_same_engine (pullUpsert ids) serverTasks) as H1
  end.
  specialize (H1 ltac:(intros [] a w'; unfold pullUpsert;
                       destruct (set_has _ _); repeat split) tt w).
  destruct (for_each (pullUpsert _) serverTasks tt w) as [[] w1]. simpl in H1.
  eapply same_engine_trans; [exact H1|].
  apply for_each_same_engine. intros [] t w'. unfold pullRemove.
  destruct (negb _); repeat split.
Qed.

Lemma pullChanges_same_engine w : same_engine w (snd (pullChanges w)).
Proof.
  unfold pullChanges, bind. rewrite call_spec.
  destruct (fst (api_fetchTasks (w_remote w))) as [serverTasks|e]; [|repeat split].
  match goal with
  | |- context [pullReconcile serverTasks ?w1] =>
      pose proof (pullReconcile_same_engine serverTasks w1) as Hrec;
      destruct (pullReconcile serverTasks w1) as [[] w2]
  end.
  simpl in *. destruct Hrec as (?&?&?&?&?&?&?&?). repeat split; assumption.
Qed.

(** The flag taken at entry is held through the push and the pull phase, so
    a call of [sync] at any point of an accepted cycle finds it set; the
    [finally] block releases it. *)
Lemma in_progress_flag_held_through_cycle w :
  let w0 := snd (syncBegin w) in
  let w1 := snd (pushChanges w0) in
  let w2 := snd (pullChanges w1) in
  isSyncInProgress w0 = true /\ isSyncInProgress w1 = true /\ isSyncInProgress w2 = true /\
  sync w1 = (false, w1) /\ sync w2 = (false, w2).
Proof.
  intros w0 w1 w2.
  assert (isSyncInProgress w0 = true) as H0 by apply syncBegin_takes_flag.
  assert (isSyncInProgress w1 = true) as H1.
  { destruct (pushChanges_same_engine w0) as (_ & _ & _ & Hf & _). fold w1 in Hf. congruence. }
  assert (isSyncInProgress w2 = true) as H2.
  { destruct (pullChanges_same_engine w1) as (_ & _ & _ & Hf & _). fold w2 in Hf. congruence. }
  repeat split; try assumption; unfold sync, bind, gets; [now rewrite H1|now rewrite H2].
Qed.

Lemma sync_releases_flag w :
  isSyncInProgress w = false -> isSyncInProgress (snd (sync w)) = false.
Proof.
  intros Hflag. unfold sync, bind, gets. rewrite Hflag.
  destruct (isOnline w); simpl; [|exact Hflag].
  unfold syncCycle, bind.
  destruct (pushChanges _) as [pushResult w1].
  destruct (pullChanges w1) as [pullResult w2].
  destruct (push_success pushResult && pull_success pullResult); simpl; [reflexivity|].
  unfold setSyncState, bind, modify, notifySyncComplete, notifyStatusListeners, emit, modify.
  simpl. destruct (truthy (syncErrorMsg pushResult pullResult)); reflexivity.
Qed.

End FrameFacts.

(** ** The retry wrapper *)

Section RetryFacts.

Context {S : Type} `{RemoteService S}.
Variables RETRY_DELAY_MS ERROR_BACKOFF_MS : Z.

Implicit Types w : World S.

Local Abbreviation loop_ := (retryLoop RETRY_DELAY_MS ERROR_BACKOFF_MS).
Local Abbreviation from_ := (retryFrom RETRY_DELAY_MS ERROR_BACKOFF_MS).
Local Abbreviation wrapper_ := (syncWithRetry RETRY_DELAY_MS ERROR_BACKOFF_MS).
Local Abbreviation delay_ := (retryDelay RETRY_DELAY_MS ERROR_BACKOFF_MS).

(** The world in which the loop gives up with [lastErr]. *)
Let gives_up (maxAttempts : Z) (lastErr : option string) w : World S :=
  with_trace (fun t => (t ++ [EvGiveUpLog maxAttempts lastErr])%list) w.

Lemma retryLoop_exit fuel maxAttempts k e w :
  fuel = O \/ maxAttempts < k ->
  loop_ fuel maxAttempts k e w = (false, gives_up maxAttempts e w).
Proof.
  intros Hexit. destruct fuel as [|fuel]; [reflexivity|].
  destruct Hexit as [Hf|Hk]; [discriminate|].
  simpl. apply Z.leb_gt in Hk. rewrite Hk. reflexivity.
Qed.

(** One iteration of the loop. *)
Lemma retryLoop_iteration fuel maxAttempts k e w :
  k <= maxAttempts ->
  loop_ (Datatypes.S fuel) maxAttempts k e w
  = if fst (sync w) then (true, snd (sync w))
    else loop_ fuel maxAttempts (k + 1) (lastError (snd (sync w)))
           (if k <? maxAttempts
            then after_backoff k (delay_ (lastError (snd (sync w))) k) (snd (sync w))
            else snd (sync w)).
Proof.
  intros Hk. simpl. apply Z.leb_le in Hk. rewrite Hk. unfold bind at 1.
  destruct (sync w) as [[|] w']; [reflexivity|]. simpl.
  unfold bind, gets. simpl.
  destruct (k <? maxAttempts); reflexivity.
Qed.

Lemma retryFrom_iteration maxAttempts k e w :
  k <= maxAttempts ->
  from_ maxAttempts k e w
  = if fst (sync w) then (true, snd (sync w))
    else from_ maxAttempts (k + 1) (lastError (snd (sync w)))
           (if k <? maxAttempts
            then after_backoff k (delay_ (lastError (snd (sync w))) k) (snd (sync w))
            else snd (sync w)).
Proof.
  intros Hk. unfold retryFrom.
  replace (Z.to_nat (maxAttempts - k + 1))
    with (Datatypes.S (Z.to_nat (maxAttempts - (k + 1) + 1))) by lia.
  now apply retryLoop_iteration.
Qed.

(** The iterations provided are never exhausted before the loop condition
    fails. *)
Lemma retryFrom_fuel_exact maxAttempts k :
  maxAttempts < k <-> Z.to_nat (maxAttempts - k + 1) = O.
Proof. lia. Qed.

Lemma after_backoff_lastError k d w : lastError (after_backoff k d w) = lastError w.
Proof. reflexivity. Qed.

Lemma gives_up_lastError maxAttempts e w : lastError (gives_up maxAttempts e w) = lastError w.
Proof. reflexivity. Qed.

(** When the loop returns [false], the last thing it did was to log the
    give-up message, with the error of the last failed attempt. *)
Lemma retryLoop_false fuel maxAttempts :
  forall k e w,
    fst (loop_ fuel maxAttempts k e w) = false ->
    exists tr e',
      w_trace (snd (loop_ fuel maxAttempts k e w))
      = (tr ++ [EvGiveUpLog maxAttempts e'])%list /\
      ((fuel = O \/ maxAttempts < k) /\ e' = e \/
       (fuel <> O /\ k <= maxAttempts /\
        e' = lastError (snd (loop_ fuel maxAttempts k e w)))).
Proof.
  induction fuel as [|fuel IH]; intros k e w Hres.
  - exists (w_trace w), e. split; [reflexivity|]. left. auto.
  - destruct (Z_le_gt_dec k maxAttempts) as [Hk|Hk].
    + rewrite retryLoop_iteration in * by exact Hk.
      destruct (fst (sync w)); [discriminate|].
      match type of Hres with
      | fst (loop_ fuel maxAttempts ?k' ?e0 ?w0) = false =>
          destruct (IH k' e0 w0 Hres) as (tr & e' & Htr & Hcase);
          exists tr, e'; split; [exact Htr|]; right;
          split; [discriminate|]; split; [exact Hk|];
          destruct Hcase as [[Hexit ->]|(_ & _ & ->)]; [|reflexivity];
          rewrite (retryLoop_exit fuel maxAttempts k' e0 w0 Hexit)
      end.
      simpl snd. rewrite gives_up_lastError.
      destruct (k <? maxAttempts); reflexivity.
    + rewrite retryLoop_exit by (right; lia).
      exists (w_trace w), e. split; [reflexivity|]. left. split; [right; lia|reflexivity].
Qed.

(** A cycle that returns [true] ends idle, with no error left. *)
Lemma sync_true_idle w :
  fst (sync w) = true ->
  syncState (snd (sync w)) = idle /\ lastError (snd (sync w)) = None.
Proof.
  unfold sync, bind, gets.
  destruct (isSyncInProgress w); [discriminate|].
  destruct (isOnline w); simpl; [|discriminate].
  unfold syncCycle, bind.
  destruct (pushChanges _) as [pushResult w1].
  destruct (pullChanges w1) as [pullResult w2].
  destruct (push_success pushResult && pull_success pullResult); simpl.
  - intros _. split; reflexivity.
  - unfold setSyncState, bind, modify, notifySyncComplete, notifyStatusListeners, emit, modify.
    simpl. destruct (truthy (syncErrorMsg pushResult pullResult)); simpl; discriminate.
Qed.

Lemma retryLoop_true fuel maxAttempts :
  forall k e w,
    fst (loop_ fuel maxAttempts k e w) = true ->
    syncState (snd (loop_ fuel maxAttempts k e w)) = idle /\
    lastError (snd (loop_ fuel maxAttempts k e w)) = None.
Proof.
  induction fuel as [|fuel IH]; intros k e w Hres; [discriminate|].
  destruct (Z_le_gt_dec k maxAttempts) as [Hk|Hk].
  - rewrite retryLoop_iteration in * by exact Hk.
    destruct (fst (sync w)) eqn:Hsync; [now apply sync_true_idle|].
    now apply IH.
  - rewrite retryLoop_exit in Hres by (right; lia). discriminate.
Qed.


End RetryFacts.


(** The wrapper recognises an authentication failure by the word
    [Unauthorized] in the engine's last error.  The [UnauthorizedError] that
    the client throws for a missing token does not carry it, so that failure
    is backed off linearly. *)
Remark missing_token_is_backed_off_linearly :
  includes "Unauthorized" (default EmptyString (lastError (snd (sync missing_token_world))))
  = false /\
  retryDelay 500 9000 (lastError (snd (sync missing_token_world))) 2 = 500 * 2.
Proof. split; vm_compute; reflexivity. Qed.

(** ** One batch per record *)

Section BatchFacts.

Context {S : Type} `{RemoteService S}.

Implicit Types w : World S.

Lemma unique_ids_push_write db op :
  push_write op = true -> unique_ids db -> unique_ids (apply_op db op).
Proof.
  destruct op; try discriminate; simpl; intros _ Hu.
  - unfold unique_ids, markTaskAsSynced.
    now rewrite ids_update_where_id by apply markTaskAsSynced_set_keeps_id.
  - unfold upsertTaskFromServer, insert_or_replace.
    apply unique_ids_snoc; [now apply unique_ids_delete|apply find_delete_same].
  - unfold unique_ids, markTaskAsConflict.
    now rewrite ids_update_where_id by (intros r; reflexivity).
Qed.

Lemma deleted_from_refl db : deleted_from db db.
Proof. intros r Hin Hd. eauto. Qed.

Lemma deleted_from_trans a b c : deleted_from a b -> deleted_from b c -> deleted_from a c.
Proof.
  intros Hab Hbc r'' Hin Hd.
  destruct (Hbc r'' Hin Hd) as (r' & Hin' & Hid' & Hd').
  destruct (Hab r' Hin' Hd') as (r & Hin0 & Hid & Hd0).
  exists r. repeat split; [exact Hin0|congruence|exact Hd0].
Qed.

Lemma deleted_from_update set id db0 db :
  (forall r, row_id (set r) = row_id r /\ row_locallyDeleted (set r) = row_locallyDeleted r) ->
  deleted_from db0 db -> deleted_from db0 (update_where_id set id db).
Proof.
  intros Hset Hfrom r' Hin Hd.
  apply in_update_where_id in Hin as (r1 & Hin1 & ->).
  destruct (Hset r1) as [Hid1 Hd1].
  destruct (has_id id r1).
  - rewrite Hd1 in Hd. destruct (Hfrom r1 Hin1 Hd) as (r & Hin0 & Hid & Hd0).
    exists r. repeat split; [exact Hin0|congruence|exact Hd0].
  - now apply Hfrom.
Qed.

Lemma deleted_from_push_write db0 db op :
  push_write op = true -> deleted_from db0 db -> deleted_from db0 (apply_op db op).
Proof.
  destruct op; try discriminate; simpl; intros _ Hfrom.
  - apply deleted_from_update; [|exact Hfrom].
    intros r. destruct serverTask; split; reflexivity.
  - intros r' Hin Hd. unfold upsertTaskFromServer, insert_or_replace in Hin.
    apply List.in_app_or in Hin as [Hin|[<-|[]]]; [|discriminate Hd].
    apply in_delete_where_id in Hin as [Hin _]. now apply Hfrom.
  - apply deleted_from_update; [|exact Hfrom]. intros r. split; reflexivity.
Qed.

Lemma cleared_from_refl db : cleared_from db db.
Proof. intros r Hin. exists r. auto. Qed.

Lemma cleared_from_markTaskAsSynced db0 db id serverTask :
  cleared_from db0 db -> cleared_from db0 (markTaskAsSynced id serverTask db).
Proof.
  intros Hfrom r' Hin. apply in_update_where_id in Hin as (r1 & Hin1 & ->).
  destruct (Hfrom r1 Hin1) as (r & Hin0 & Hid & Hd & Hcase).
  destruct (has_id id r1); [|eauto].
  exists r. split; [exact Hin0|].
  destruct serverTask; simpl; repeat split; auto.
Qed.

Lemma cleared_from_deleted db0 db : cleared_from db0 db -> deleted_from db0 db.
Proof.
  intros Hfrom r' Hin Hd. destruct (Hfrom r' Hin) as (r & Hin0 & Hid & Hd' & _).
  exists r. repeat split; [exact Hin0|exact Hid|congruence].
Qed.

(** What one iteration of a push loop writes. *)
Lemma pushCreatedTask_db errors t w :
  w_db (snd (pushCreatedTask errors t w)) = w_db w \/
  exists ts, w_db (snd (pushCreatedTask errors t w))
             = markTaskAsSynced (task_id t) (Some ts) (w_db w).
Proof.
  unfold pushCreatedTask, bind. rewrite call_spec.
  match goal with |- context [fst ?a] => destruct (fst a) as [serverTask|e] end; simpl.
  - right. eauto.
  - left. reflexivity.
Qed.

Lemma handleConflict_db localTask serverTask w :
  exists op, push_write op = true /\
             w_db (snd (handleConflict localTask serverTask w)) = apply_op (w_db w) op.
Proof.
  unfold handleConflict.
  destruct (api_lastUpdatedAt serverTask <? task_lastUpdatedAt localTask).
  - unfold bind. rewrite call_spec.
    match goal with |- context [fst ?a] => destruct (fst a) as [updatedTask|e] end; simpl.
    + exists (OpMarkTaskAsSynced (task_id localTask) (Some (api_lastUpdatedAt updatedTask))).
      split; reflexivity.
    + exists (OpMarkTaskAsConflict (task_id localTask)). split; reflexivity.
  - exists (OpUpsertTaskFromServer (upsertArg serverTask)). split; reflexivity.
Qed.

Lemma pushModifiedTask_db errors t w :
  w_db (snd (pushModifiedTask errors t w)) = w_db w \/
  exists op, push_write op = true /\
             w_db (snd (pushModifiedTask errors t w)) = apply_op (w_db w) op.
Proof.
  unfold pushModifiedTask, bind. rewrite call_spec.
  match goal with |- context [fst ?a] => destruct (fst a) as [serverTask|e] end.
  - right. exists (OpMarkTaskAsSynced (task_id t) (Some (api_lastUpdatedAt serverTask))).
    split; reflexivity.
  - destruct e as [m|m|m serverTask|c m|c m|m|m]; try (left; reflexivity).
    + right. exists (OpMarkTaskAsConflict (task_id t)). split; reflexivity.
    + right.
      match goal with
      | |- context [handleConflict t serverTask ?w1] =>
          destruct (handleConflict_db t serverTask w1) as (op & Hop & Hdb);
          exists op; split; [exact Hop|];
          destruct (handleConflict t serverTask w1) as [[] w2]
      end.
      simpl in *. rewrite Hdb. reflexivity.
Qed.

(** The loop over the created batch only clears flags. *)
Lemma created_loop_db tasks errors w :
  unique_ids (w_db w) ->
  unique_ids (w_db (snd (for_each pushCreatedTask tasks errors w))) /\
  cleared_from (w_db w) (w_db (snd (for_each pushCreatedTask tasks errors w))).
Proof.
  intros Hu.
  apply (for_each_preserves
           (fun w' => unique_ids (w_db w') /\ cleared_from (w_db w) (w_db w')));
    [|split; [exact Hu|apply cleared_from_refl]].
  intros e t w' _ [Hu' Hc].
  destruct (pushCreatedTask_db e t w') as [->|[ts ->]]; [auto|]. split.
  - now apply (unique_ids_push_write _ (OpMarkTaskAsSynced (task_id t) (Some ts))).
  - now apply cleared_from_markTaskAsSynced.
Qed.

(** The loop over the modified batch soft-deletes nothing. *)
Lemma modified_loop_db tasks errors w :
  unique_ids (w_db w) ->
  unique_ids (w_db (snd (for_each pushModifiedTask tasks errors w))) /\
  deleted_from (w_db w) (w_db (snd (for_each pushModifiedTask tasks errors w))).
Proof.
  intros Hu.
  apply (for_each_preserves
           (fun w' => unique_ids (w_db w') /\ deleted_from (w_db w) (w_db w')));
    [|split; [exact Hu|apply deleted_from_refl]].
  intros e t w' _ [Hu' Hd].
  destruct (pushModifiedTask_db e t w') as [->|(op & Hop & ->)]; [auto|]. split.
  - now apply unique_ids_push_write.
  - now apply deleted_from_push_write.
Qed.

Lemma in_query_ids (cond : TaskRow -> bool) db id :
  List.In id (List.map task_id (List.map rowToTask (select_where cond db))) <->
  exists r, List.In r db /\ cond r = true /\ row_id r = id.
Proof.
  rewrite task_ids_of_rows, List.in_map_iff. unfold select_where. split.
  - intros (r & Hid & Hin). apply List.filter_In in Hin as [Hin Hc]. eauto.
  - intros (r & Hin & Hc & Hid). exists r. split; [exact Hid|]. now apply List.filter_In.
Qed.

Lemma query_ids_NoDup (cond : TaskRow -> bool) db :
  unique_ids db ->
  List.NoDup (List.map task_id (List.map rowToTask (select_where cond db))).
Proof. intros Hu. rewrite task_ids_of_rows. now apply NoDup_map_filter. Qed.

(** The batches of one push phase, each read when its loop starts, share
    no id. *)
Lemma push_batches_disjoint w :
  unique_ids (w_db w) ->
  let createdTasks := getLocallyCreatedTasks (w_db w) in
  let pushed1 := for_each pushCreatedTask createdTasks [] w in
  let modifiedTasks := getLocallyModifiedTasks (w_db (snd pushed1)) in
  let pushed2 := for_each pushModifiedTask modifiedTasks (fst pushed1) (snd pushed1) in
  let deletedTasks := getLocallyDeletedTasks (w_db (snd pushed2)) in
  List.NoDup (List.map task_id (createdTasks ++ modifiedTasks ++ deletedTasks)%list).
Proof.
  intros Hu createdTasks pushed1 modifiedTasks pushed2 deletedTasks.
  destruct (created_loop_db createdTasks [] w Hu) as [Hu1 Hc1].
  fold pushed1 in Hu1, Hc1.
  destruct (modified_loop_db modifiedTasks (fst pushed1) (snd pushed1) Hu1) as [Hu2 Hd2].
  fold pushed2 in Hu2, Hd2.
  pose proof (cleared_from_deleted _ _ Hc1) as Hd1.
  pose proof (deleted_from_trans _ _ _ Hd1 Hd2) as Hd02.
  rewrite !List.map_app.
  apply List.NoDup_app; [now apply query_ids_NoDup|apply List.NoDup_app|].
  - now apply query_ids_NoDup.
  - now apply query_ids_NoDup.
  - (* modified against deleted *)
    intros id Hm Hd.
    apply in_query_ids in Hm as (rm & Hinm & Hcm & Hidm).
    apply in_query_ids in Hd as (rd & Hind & Hcd & Hidd).
    unfold deleted_cond in Hcd. apply Z.eqb_eq in Hcd.
    destruct (Hd2 rd Hind Hcd) as (r & Hin & Hid & Hdel).
    assert (r = rm) as ->
      by (apply (NoDup_map_inj_on row_id _ r rm Hu1 Hin Hinm); congruence).
    pose proof (proj2 (conds_exclusive rm) Hcm) as Hno.
    unfold deleted_cond in Hno. rewrite Hdel in Hno. discriminate Hno.
  - intros id Hc Hrest.
    apply in_query_ids in Hc as (rc & Hinc & Hcc & Hidc).
    apply List.in_app_or in Hrest as [Hm|Hd].
    + (* created against modified *)
      apply in_query_ids in Hm as (rm & Hinm & Hcm & Hidm).
      destruct (Hc1 rm Hinm) as (r & Hin & Hid & _ & Hcase).
      assert (r = rc) as ->
        by (apply (NoDup_map_inj_on row_id _ r rc Hu Hin Hinc); congruence).
      unfold modified_cond in Hcm. apply andb_prop in Hcm as [Hcm _].
      apply andb_prop in Hcm as [Hmod Hcre]. apply Z.eqb_eq in Hmod, Hcre.
      destruct Hcase as [->|[_ Hz]]; [|lia].
      unfold created_cond in Hcc. apply andb_prop in Hcc as [Hcc _].
      apply Z.eqb_eq in Hcc. lia.
    + (* created against deleted *)
      apply in_query_ids in Hd as (rd & Hind & Hcd & Hidd).
      unfold deleted_cond in Hcd. apply Z.eqb_eq in Hcd.
      destruct (Hd02 rd Hind Hcd) as (r & Hin & Hid & Hdel).
      assert (r = rc) as ->
        by (apply (NoDup_map_inj_on row_id _ r rc Hu Hin Hinc); congruence).
      unfold created_cond in Hcc. apply andb_prop in Hcc as [_ Hcc].
      apply Z.eqb_eq in Hcc. lia.
Qed.

(** [pushChanges] is the three loops run on those batches. *)
Lemma pushChanges_batches w :
  let createdTasks := getLocallyCreatedTasks (w_db w) in
  let pushed1 := for_each pushCreatedTask createdTasks [] w in
  let modifiedTasks := getLocallyModifiedTasks (w_db (snd pushed1)) in
  let pushed2 := for_each pushModifiedTask modifiedTasks (fst pushed1) (snd pushed1) in
  let deletedTasks := getLocallyDeletedTasks (w_db (snd pushed2)) in
  let pushed3 := for_each pushDeletedTask deletedTasks (fst pushed2) (snd pushed2) in
  push_errors (fst (pushChanges w)) = fst pushed3 /\ snd (pushChanges w) = snd pushed3.
Proof.
  unfold pushChanges, bind, gets. simpl.
  destruct (for_each pushCreatedTask _ [] w) as [e1 w1]. simpl.
  destruct (for_each pushModifiedTask _ e1 w1) as [e2 w2]. simpl.
  destruct (for_each pushDeletedTask _ e2 w2) as [e3 w3]. split; reflexivity.
Qed.

End BatchFacts.

(** C10: the three provenance queries never return the same record twice
    between them; a record with [locallyModified] and [locallyDeleted] both
    set is returned by [getLocallyDeletedTasks] only; [pendingChanges] is
    the number of rows with a pending change, so it counts no row twice;
    the ids being the primary key, no id occurs twice in the three query
    results taken together; and in a push phase, where each batch is read
    when its loop starts, no id occurs twice in the three batches, so each
    record is pushed in at most one of them. *)
Theorem provenance_queries_are_disjoint :
  forall (db : DB),
    (forall t, List.In t (getLocallyCreatedTasks db) ->
               ~ List.In t (getLocallyModifiedTasks db) /\
               ~ List.In t (getLocallyDeletedTasks db)) /\
    (forall t, List.In t (getLocallyModifiedTasks db) ->
               ~ List.In t (getLocallyDeletedTasks db)) /\
    (forall r, List.In r db ->
               row_locallyModified r = 1 -> row_locallyDeleted r = 1 ->
               List.In (rowToTask r) (getLocallyDeletedTasks db) /\
               ~ List.In (rowToTask r) (getLocallyModifiedTasks db) /\
               ~ List.In (rowToTask r) (getLocallyCreatedTasks db)) /\
    getPendingChangesCount db = Z.of_nat (List.length (List.filter pending_cond db)) /\
    getPendingChangesCount db <= Z.of_nat (List.length db) /\
    (unique_ids db ->
     List.NoDup (List.map task_id
                   (getLocallyCreatedTasks db ++ getLocallyModifiedTasks db
                    ++ getLocallyDeletedTasks db)%list)) /\
    (forall (S : Type) (HS : RemoteService S) (w : World S),
        w_db w = db -> unique_ids db ->
        let createdTasks := getLocallyCreatedTasks (w_db w) in
        let pushed1 := for_each pushCreatedTask createdTasks [] w in
        let modifiedTasks := getLocallyModifiedTasks (w_db (snd pushed1)) in
        let pushed2 := for_each pushModifiedTask modifiedTasks (fst pushed1) (snd pushed1) in
        let deletedTasks := getLocallyDeletedTasks (w_db (snd pushed2)) in
        let pushed3 := for_each pushDeletedTask deletedTasks (fst pushed2) (snd pushed2) in
        push_errors (fst (pushChanges w)) = fst pushed3 /\
        snd (pushChanges w) = snd pushed3 /\
        List.NoDup (List.map task_id (createdTasks ++ modifiedTasks ++ deletedTasks)%list)).
Proof.
  intros db. split; [|split; [|split; [|split; [|split; [|split]]]]].
  - intros t Hc. apply in_getLocallyCreatedTasks in Hc as [Hc Hd]. split.
    + intros Hm. apply in_getLocallyModifiedTasks in Hm as (_ & Hc' & _). congruence.
    + intros Hd'. apply in_getLocallyDeletedTasks in Hd'. congruence.
  - intros t Hm Hd. apply in_getLocallyModifiedTasks in Hm as (_ & _ & Hd').
    apply in_getLocallyDeletedTasks in Hd. congruence.
  - intros r Hin Hm Hd.
    assert (task_locallyDeleted (rowToTask r) = true) as Hdel by (simpl; now rewrite Hd).
    split; [|split].
    + unfold getLocallyDeletedTasks, select_where. apply List.in_map.
      apply List.filter_In. split; [exact Hin|]. unfold deleted_cond. now rewrite Hd.
    + intros Hm'. apply in_getLocallyModifiedTasks in Hm' as (_ & _ & Hd'). congruence.
    + intros Hc. apply in_getLocallyCreatedTasks in Hc as [_ Hd']. congruence.
  - apply pending_count_filter.
  - rewrite pending_count_filter. apply inj_le. apply List.filter_length_le.
  - apply pending_ids_NoDup.
  - intros S HS w <- Hu. cbv zeta.
    split; [apply pushChanges_batches|]. split; [apply pushChanges_batches|].
    now apply push_batches_disjoint.
Qed.

Lemma provenance_queries_are_disjoint_witness :
  List.NoDup (List.map task_id
                (getLocallyCreatedTasks (run_ops edited_then_deleted)
                 ++ getLocallyModifiedTasks (run_ops edited_then_deleted)
                 ++ getLocallyDeletedTasks (run_ops edited_then_deleted))%list) /\
  ~ List.In (mkTask "t1" "Buy oat milk" None "pending" 40 (Some 20) "pending" false true true)
      (getLocallyModifiedTasks (run_ops edited_then_deleted)).
Proof.
  destruct (provenance_queries_are_disjoint (run_ops edited_then_deleted))
    as (_ & _ & Hboth & _ & _ & Hids & _).
  split.
  - apply Hids. vm_compute. repeat constructor. simpl. tauto.
  - apply (Hboth (mkRow "t1" "Buy oat milk" None "pending" 40 (Some 20) "pending" 0 1 1)).
    + vm_compute. left. reflexivity.
    + reflexivity.
    + reflexivity.
Defined.

(** * Further properties of the local store *)

(** ** Reading, inserting and missing ids *)

Lemma getTaskById_none_iff db id :
  getTaskById db id = None <-> List.find (has_id id) db = None.
Proof.
  unfold getTaskById. destruct (List.find (has_id id) db); simpl; split;
    intros; congruence.
Qed.

Lemma update_where_id_absent set id db :
  List.find (has_id id) db = None -> update_where_id set id db = db.
Proof.
  induction db as [|r db IH]; simpl; [reflexivity|].
  destruct (has_id id r); [discriminate|]. intros Hf. now rewrite IH.
Qed.

Lemma delete_where_id_absent id db :
  List.find (has_id id) db = None -> delete_where_id id db = db.
Proof.
  induction db as [|r db IH]; simpl; [reflexivity|].
  destruct (has_id id r); [discriminate|]. simpl. intros Hf. now rewrite IH.
Qed.

Lemma find_none_existsb {A} (f : A -> bool) l :
  List.find f l = None -> List.existsb f l = false.
Proof.
  induction l as [|x l IH]; simpl; [reflexivity|].
  destruct (f x); [discriminate|exact IH].
Qed.

Lemma find_snoc_other id r db :
  row_id r <> id -> List.find (has_id id) (db ++ [r])%list = List.find (has_id id) db.
Proof.
  intros Hne. destruct (List.find (has_id id) db) as [x|] eqn:E.
  - now apply find_app_some.
  - rewrite find_app_none by exact E. simpl.
    assert (has_id id r = false) as -> by now apply has_id_false.
    reflexivity.
Qed.

Lemma find_snoc_same id r db :
  row_id r = id -> List.find (has_id id) db = None ->
  List.find (has_id id) (db ++ [r])%list = Some r.
Proof.
  intros Hid Hf. rewrite find_app_none by exact Hf. simpl.
  assert (has_id id r = true) as -> by now apply has_id_true.
  reflexivity.
Qed.

(** X1: [createTask] with an id that is not in the store appends one record
    with status [pending], [syncStatus] [pending], [locallyCreated] alone set,
    the given time as [lastUpdatedAt] and no server timestamp; it returns that
    record, reading it back by id gives it again, it is in the created batch,
    and every other id reads as before.  With an id already in the store the
    INSERT fails and nothing is returned. *)
Theorem createTask_inserts_a_pending_creation :
  forall (id : string) (now : Z) (input : CreateTaskInput) (db : DB),
    (getTaskById db id = None ->
     let task := mkTask id (ci_title input) (ci_description input) "pending" now None
                        "pending" true false false in
     exists db',
       createTask id now input db = Some (db', Some task) /\
       getTaskById db' id = Some task /\
       (forall id', id' <> id -> getTaskById db' id' = getTaskById db id') /\
       List.In task (getLocallyCreatedTasks db') /\
       List.length db' = Datatypes.S (List.length db)) /\
    (getTaskById db id <> None -> createTask id now input db = None).
Proof.
  intros id now input db. split.
  - intros Hnone task. apply getTaskById_none_iff in Hnone.
    set (row := mkRow id (ci_title input) (ci_description input) "pending" now None
                      "pending" 1 0 0).
    exists (db ++ [row])%list.
    assert (getTaskById (db ++ [row])%list id = Some task) as Hread.
    { unfold getTaskById. now rewrite (find_snoc_same id row db eq_refl Hnone). }
    split; [|split; [exact Hread|split; [|split]]].
    + unfold createTask, insert_row. fold row. simpl row_id.
      rewrite (find_none_existsb _ _ Hnone). now rewrite Hread.
    + intros id' Hne. unfold getTaskById. rewrite find_snoc_other; [reflexivity|].
      simpl. congruence.
    + unfold getLocallyCreatedTasks, select_where.
      apply (List.in_map rowToTask _ row). apply List.filter_In.
      split; [apply List.in_or_app; right; left; reflexivity|reflexivity].
    + rewrite List.length_app. simpl. lia.
  - intros Hsome. unfold createTask, insert_row. simpl row_id.
    destruct (List.existsb (has_id id) db) eqn:E; [reflexivity|].
    exfalso. apply Hsome. apply getTaskById_none_iff. now apply existsb_false_find.
Qed.

Lemma createTask_inserts_a_pending_creation_witness :
  createTask "t9" 300 (mkCreateInput "Water plants" None) two_task_store
  = Some ((two_task_store
           ++ [mkRow "t9" "Water plants" None "pending" 300 None "pending" 1 0 0])%list,
          Some (mkTask "t9" "Water plants" None "pending" 300 None "pending"
                       true false false))
  /\ createTask "t2" 300 (mkCreateInput "Water plants" None) two_task_store = None.
Proof.
  destruct (createTask_inserts_a_pending_creation
              "t9" 300 (mkCreateInput "Water plants" None) two_task_store) as [Hfresh _].
  destruct (createTask_inserts_a_pending_creation
              "t2" 300 (mkCreateInput "Water plants" None) two_task_store) as [_ Hclash].
  split.
  - destruct (Hfresh ltac:(vm_compute; reflexivity)) as (db' & Hc & _).
    refine (eq_trans Hc _). vm_compute in Hc |- *.
    injection Hc as <-. reflexivity.
  - apply Hclash. vm_compute. discriminate.
Defined.

(** X2: a record that is created and then deleted before it was ever pushed
    is purged on the spot: [deleteTask] returns [true] and the store is
    exactly what it was before [createTask]. *)
Theorem create_then_delete_restores_the_store :
  forall (id : string) (now now' : Z) (input : CreateTaskInput) (db db' : DB)
         (created : option Task),
    createTask id now input db = Some (db', created) ->
    deleteTask id now' db' = (db, true).
Proof.
  intros id now now' input db db' created Hcreate.
  unfold createTask, insert_row in Hcreate. simpl row_id in Hcreate.
  destruct (List.existsb (has_id id) db) eqn:E; [discriminate|].
  apply existsb_false_find in E. injection Hcreate as <- _.
  set (row := mkRow id (ci_title input) (ci_description input) "pending" now None
                    "pending" 1 0 0).
  unfold deleteTask, getTaskById. rewrite (find_snoc_same id row db eq_refl E). simpl.
  assert (delete_where_id id (db ++ [row])%list = db) as ->.
  { unfold delete_where_id. rewrite List.filter_app. simpl.
    assert (has_id id row = true) as -> by now apply has_id_true.
    simpl. rewrite List.app_nil_r. now apply delete_where_id_absent. }
  f_equal. rewrite List.length_app. simpl. apply Z.ltb_lt. lia.
Qed.

Lemma create_then_delete_restores_the_store_witness :
  deleteTask "t9" 310
    (two_task_store ++ [mkRow "t9" "Water plants" None "pending" 300 None "pending" 1 0 0])%list
  = (two_task_store, true).
Proof.
  apply (create_then_delete_restores_the_store
           "t9" 300 310 (mkCreateInput "Water plants" None) two_task_store _
           (Some (mkTask "t9" "Water plants" None "pending" 300 None "pending"
                         true false false))).
  vm_compute. reflexivity.
Defined.

(** X3: addressed to an id that is not in the store, every operation of the
    store leaves the table exactly as it is; [updateTask] and
    [toggleTaskComplete] return [null] and [deleteTask] returns [false]. *)
Theorem missing_id_changes_nothing :
  forall (id : string) (now : Z) (input : UpdateTaskInput) (serverTask : option Z) (db : DB),
    getTaskById db id = None ->
    updateTask id now input db = (db, None) /\
    toggleTaskComplete id now db = (db, None) /\
    deleteTask id now db = (db, false) /\
    markTaskAsSynced id serverTask db = db /\
    markTaskAsConflict id db = db /\
    removeSyncedDeletedTask id db = db.
Proof.
  intros id now input serverTask db Hnone.
  unfold updateTask, toggleTaskComplete, deleteTask. rewrite Hnone.
  apply getTaskById_none_iff in Hnone.
  repeat (split; [reflexivity|]).
  split; [now apply update_where_id_absent|].
  split; [now apply update_where_id_absent|now apply delete_where_id_absent].
Qed.

Lemma missing_id_changes_nothing_witness :
  updateTask "t7" 300 (mkUpdateInput (Some "x") None None) two_task_store
  = (two_task_store, None) /\
  deleteTask "t7" 300 two_task_store = (two_task_store, false) /\
  markTaskAsSynced "t7" (Some 5) two_task_store = two_task_store.
Proof.
  destruct (missing_id_changes_nothing
              "t7" 300 (mkUpdateInput (Some "x") None None) (Some 5) two_task_store
              ltac:(vm_compute; reflexivity))
    as (Hu & _ & Hd & Hs & _).
  split; [exact Hu|]. split; [exact Hd|exact Hs].
Defined.

(** ** Editing *)

Lemma update_assignments_keeps_id now input created :
  keeps_id (update_assignments now input created).
Proof.
  intros r. unfold update_assignments.
  destruct input as [[?|] [?|] [?|]], created; reflexivity.
Qed.

Lemma update_assignments_task now input r :
  rowToTask (update_assignments now input (task_locallyCreated (rowToTask r)) r)
  = updated_task now input (rowToTask r).
Proof.
  unfold update_assignments, updated_task. simpl.
  destruct (row_locallyCreated r =? 1) eqn:E;
    destruct input as [[?|] [?|] [?|]]; unfold rowToTask; simpl; rewrite ?E; reflexivity.
Qed.

Lemma updateTask_unfold id now input db :
  updateTask id now input db
  = match getTaskById db id with
    | None => (db, None)
    | Some existingTask =>
        if no_updates input then (db, Some existingTask)
        else
          let db' := update_where_id
                       (update_assignments now input (task_locallyCreated existingTask))
                       id db in
          (db', getTaskById db' id)
    end.
Proof. reflexivity. Qed.

(** What [updateTask] does to the record it finds. *)
Lemma updateTask_found id now input db t :
  getTaskById db id = Some t -> no_updates input = false ->
  updateTask id now input db
  = (update_where_id (update_assignments now input (task_locallyCreated t)) id db,
     Some (updated_task now input t)).
Proof.
  intros Hget Hsome. rewrite updateTask_unfold, Hget, Hsome. cbv zeta. f_equal.
  apply getTaskById_some_row in Hget as (r & Hfind & -> & _ & _).
  unfold getTaskById.
  rewrite find_update_same by apply update_assignments_keeps_id.
  rewrite Hfind. simpl. f_equal. apply update_assignments_task.
Qed.

(** X4: [updateTask] with at least one field, on a record it finds, returns
    the record it wrote: the given fields replaced, [lastUpdatedAt] set to the
    time of the call.  A record that is not [locallyCreated] becomes
    [locallyModified] with [syncStatus] [pending] and, unless soft-deleted,
    is in the modified batch; a [locallyCreated] record keeps its flags and
    its [syncStatus], stays in the created batch and is never in the modified
    batch, so it is pushed as a create only. *)
Theorem updateTask_marks_modified_unless_created :
  forall (id : string) (now : Z) (input : UpdateTaskInput) (db : DB) (t : Task),
    getTaskById db id = Some t ->
    no_updates input = false ->
    store_wf db ->
    let db' := fst (updateTask id now input db) in
    let t' := updated_task now input t in
    snd (updateTask id now input db) = Some t' /\
    getTaskById db' id = Some t' /\
    task_lastUpdatedAt t' = now /\
    (task_locallyCreated t = false ->
     task_locallyModified t' = true /\ task_syncStatus t' = "pending" /\
     (task_locallyDeleted t = false -> List.In t' (getLocallyModifiedTasks db'))) /\
    (task_locallyCreated t = true ->
     task_locallyModified t' = task_locallyModified t /\
     task_syncStatus t' = task_syncStatus t /\
     List.In t' (getLocallyCreatedTasks db') /\
     ~ List.In t' (getLocallyModifiedTasks db')).
Proof.
  intros id now input db t Hget Hsome [Hu Hwf] db' t'.
  pose proof (updateTask_found id now input db t Hget Hsome) as Hupd.
  unfold db'. rewrite Hupd. simpl fst. simpl snd.
  apply getTaskById_some_row in Hget as (r & Hfind & -> & Hin & Hid).
  rewrite List.Forall_forall in Hwf. pose proof (Hwf r Hin) as (Hc & Hm & Hd & _).
  assert (List.In (update_assignments now input (task_locallyCreated (rowToTask r)) r)
            (update_where_id (update_assignments now input (task_locallyCreated (rowToTask r)))
                             id db)) as Hin'.
  { apply in_update_where_id. exists r. split; [exact Hin|].
    assert (has_id id r = true) as -> by now apply has_id_true. reflexivity. }
  assert (rowToTask (update_assignments now input (task_locallyCreated (rowToTask r)) r) = t')
    as Htask by apply update_assignments_task.
  split; [reflexivity|]. split; [|split; [reflexivity|split]].
  - unfold getTaskById. rewrite find_update_same by apply update_assignments_keeps_id.
    rewrite Hfind. simpl. f_equal. exact Htask.
  - intros Hnc.
    split; [unfold t', updated_task; now rewrite Hnc|].
    split; [unfold t', updated_task; now rewrite Hnc|].
    intros Hnd. rewrite <- Htask.
    unfold getLocallyModifiedTasks, select_where. apply List.in_map.
    apply List.filter_In. split; [exact Hin'|].
    simpl in Hnc, Hnd. apply Z.eqb_neq in Hnc, Hnd.
    assert (row_locallyCreated r = 0) as Hc0 by (destruct Hc; [assumption|contradiction]).
    assert (row_locallyDeleted r = 0) as Hd0 by (destruct Hd; [assumption|contradiction]).
    unfold update_assignments, modified_cond. simpl. rewrite Hc0. simpl.
    destruct input as [[?|] [?|] [?|]]; simpl; rewrite Hc0, Hd0; reflexivity.
  - intros Hcr.
    split; [unfold t', updated_task; now rewrite Hcr|].
    split; [unfold t', updated_task; now rewrite Hcr|].
    assert (task_locallyCreated t' = true) as Hcr' by (unfold t', updated_task; exact Hcr).
    split.
    + rewrite <- Htask. unfold getLocallyCreatedTasks, select_where. apply List.in_map.
      apply List.filter_In. split; [exact Hin'|].
      simpl in Hcr. apply Z.eqb_eq in Hcr.
      destruct (Hwf r Hin) as (_ & _ & _ & _ & _ & Halone).
      destruct (Halone Hcr) as (_ & Hd0 & _).
      unfold update_assignments, created_cond. simpl. rewrite Hcr. simpl.
      destruct input as [[?|] [?|] [?|]]; simpl; rewrite Hcr, Hd0; reflexivity.
    + intros Hm'. apply in_getLocallyModifiedTasks in Hm' as (_ & Hc' & _). congruence.
Qed.

(** ** Well-formed rows *)

Ltac wf_crush :=
  unfold wf_row, is_flag in *; simpl in *;
  repeat match goal with
         | H : _ /\ _ |- _ => destruct H
         end;
  repeat split; intros;
  repeat match goal with
         | H : ?P -> _, H' : ?P |- _ => specialize (H H')
         | H : _ /\ _ |- _ => destruct H
         end;
  auto; try discriminate; try congruence; try lia.

Lemma store_wf_update set id db :
  keeps_id set ->
  (forall r, List.In r db -> has_id id r = true -> wf_row r -> wf_row (set r)) ->
  store_wf db -> store_wf (update_where_id set id db).
Proof.
  intros Hk Hset [Hu Hall]. split.
  - unfold unique_ids. now rewrite ids_update_where_id.
  - rewrite List.Forall_forall in *. intros r' Hin.
    apply in_update_where_id in Hin as (r & Hin & ->).
    destruct (has_id id r) eqn:E; auto.
Qed.

Lemma store_wf_delete id db : store_wf db -> store_wf (delete_where_id id db).
Proof.
  intros [Hu Hall]. split; [now apply unique_ids_delete|].
  rewrite List.Forall_forall in *. intros r Hin.
  apply in_delete_where_id in Hin as [Hin _]. auto.
Qed.

Lemma store_wf_snoc r db :
  List.find (has_id (row_id r)) db = None -> wf_row r ->
  store_wf db -> store_wf (db ++ [r])%list.
Proof.
  intros Hfind Hr [Hu Hall]. split; [now apply unique_ids_snoc|].
  apply List.Forall_app. split; [exact Hall|]. now constructor.
Qed.

Lemma wf_row_update_assignments now input r :
  wf_row r -> wf_row (update_assignments now input (row_locallyCreated r =? 1) r).
Proof.
  intros Hwf. unfold update_assignments.
  destruct (row_locallyCreated r =? 1) eqn:E; simpl.
  - destruct input as [[?|] [?|] [?|]]; simpl; exact Hwf.
  - apply Z.eqb_neq in E.
    destruct input as [[?|] [?|] [?|]]; wf_crush.
Qed.

Lemma store_wf_updateTask id now input db :
  store_wf db -> store_wf (fst (updateTask id now input db)).
Proof.
  intros Hwf. rewrite updateTask_unfold.
  destruct (getTaskById db id) as [t|] eqn:Hget; [|exact Hwf].
  destruct (no_updates input); [exact Hwf|]. simpl.
  apply getTaskById_some_row in Hget as (r0 & Hfind & -> & _ & _).
  apply store_wf_update; [apply update_assignments_keeps_id| |exact Hwf].
  intros r Hin Hid Hr.
  assert (r = r0) as -> by (eapply unique_row; eauto; apply Hwf).
  now apply wf_row_update_assignments.
Qed.

Lemma store_wf_deleteTask id now db : store_wf db -> store_wf (fst (deleteTask id now db)).
Proof.
  intros Hwf. unfold deleteTask.
  destruct (getTaskById db id) as [t|] eqn:Hget; [|exact Hwf].
  apply getTaskById_some_row in Hget as (r0 & Hfind & -> & _ & _). simpl.
  destruct (row_locallyCreated r0 =? 1) eqn:E; simpl.
  - now apply store_wf_delete.
  - apply store_wf_update; [intros r; reflexivity| |exact Hwf].
    intros r Hin Hid Hr.
    assert (r = r0) as -> by (eapply unique_row; eauto; apply Hwf).
    apply Z.eqb_neq in E. wf_crush.
Qed.

Lemma store_wf_apply_op db op : store_wf db -> store_wf (apply_op db op).
Proof.
  intros Hwf. destruct op; simpl.
  - unfold createTask, insert_row. simpl row_id.
    destruct (List.existsb (has_id id) db) eqn:E; [exact Hwf|]. simpl.
    apply store_wf_snoc; [now apply existsb_false_find| |exact Hwf]. wf_crush.
  - now apply store_wf_updateTask.
  - now apply store_wf_deleteTask.
  - unfold toggleTaskComplete. destruct (getTaskById db id); [|exact Hwf].
    now apply store_wf_updateTask.
  - apply store_wf_update; [apply markTaskAsSynced_set_keeps_id| |exact Hwf].
    intros r _ _ Hr. destruct serverTask; wf_crush.
  - now apply store_wf_delete.
  - unfold upsertTaskFromServer, insert_or_replace.
    apply store_wf_snoc; [apply find_delete_same| |now apply store_wf_delete]. wf_crush.
  - apply store_wf_update; [intros r; reflexivity| |exact Hwf].
    intros r _ _ Hr. wf_crush.
Qed.

Lemma run_ops_wf ops : store_wf (run_ops ops).
Proof.
  unfold run_ops. assert (store_wf []) as Hnil by (split; constructor).
  revert Hnil. generalize (@nil TaskRow).
  induction ops as [|op ops IH]; simpl; intros db Hwf; [exact Hwf|].
  apply IH. now apply store_wf_apply_op.
Qed.

Lemma updateTask_marks_modified_unless_created_witness :
  snd (updateTask "t1" 150 (mkUpdateInput (Some "Buy oat milk") None None) synced_store)
  = Some (edited_task 100 150) /\
  List.In (edited_task 100 150)
    (getLocallyModifiedTasks
       (fst (updateTask "t1" 150 (mkUpdateInput (Some "Buy oat milk") None None)
                        synced_store))).
Proof.
  destruct (updateTask_marks_modified_unless_created
              "t1" 150 (mkUpdateInput (Some "Buy oat milk") None None) synced_store
              (mkTask "t1" "Buy milk" None "pending" 100 (Some 100) "synced" false false false)
              ltac:(vm_compute; reflexivity) ltac:(reflexivity) (run_ops_wf _))
    as (Hret & _ & _ & Hmod & _).
  split; [exact Hret|].
  destruct (Hmod eq_refl) as (_ & _ & Hin). exact (Hin eq_refl).
Defined.

(** X5: in every store that a history of operations can produce, no two rows
    share an id, every flag column holds 0 or 1, and [syncStatus] is one of
    [synced], [pending], [conflict]; a record with [syncStatus] [synced] is
    neither [locallyCreated] nor [locallyModified]; a [locallyCreated] record
    has never been acknowledged: it has no server timestamp and is not
    [synced]. *)
Theorem histories_keep_records_well_formed :
  forall (ops : list StoreOp),
    List.NoDup (List.map task_id (List.map rowToTask (run_ops ops))) /\
    (forall r, List.In r (run_ops ops) ->
               is_flag (row_locallyCreated r) /\ is_flag (row_locallyModified r) /\
               is_flag (row_locallyDeleted r)) /\
    (forall t, List.In t (List.map rowToTask (run_ops ops)) ->
               (task_syncStatus t = "synced" \/ task_syncStatus t = "pending"
                \/ task_syncStatus t = "conflict") /\
               (task_syncStatus t = "synced" ->
                task_locallyCreated t = false /\ task_locallyModified t = false) /\
               (task_locallyCreated t = true ->
                task_serverLastUpdatedAt t = None /\ task_syncStatus t <> "synced")).
Proof.
  intros ops. destruct (run_ops_wf ops) as [Hu Hall].
  rewrite List.Forall_forall in Hall.
  split; [now rewrite task_ids_of_rows|]. split.
  - intros r Hin. destruct (Hall r Hin) as (Hc & Hm & Hd & _). auto.
  - intros t Hin. apply List.in_map_iff in Hin as (r & <- & Hin).
    destruct (Hall r Hin) as (_ & _ & _ & Hs & Hsyn & Hcr). simpl.
    split; [exact Hs|]. split.
    + intros Hsynced. destruct (Hsyn Hsynced) as [-> ->]. split; reflexivity.
    + intros Hc. apply Z.eqb_eq in Hc. destruct (Hcr Hc) as (_ & _ & Hnone).
      split; [exact Hnone|]. intros Hsynced. destruct (Hsyn Hsynced) as [H0 _]. lia.
Qed.

Lemma histories_keep_records_well_formed_witness :
  (task_syncStatus (edited_task 100 150) = "synced" ->
   task_locallyCreated (edited_task 100 150) = false /\
   task_locallyModified (edited_task 100 150) = false) /\
  is_flag 1.
Proof.
  destruct (histories_keep_records_well_formed
              [OpUpsertTaskFromServer (mkServerRecord "t1" "Buy milk" None "pending" 100);
               OpUpdateTask "t1" 150 (mkUpdateInput (Some "Buy oat milk") None None)])
    as (_ & Hflags & Htasks).
  split.
  - apply (Htasks (edited_task 100 150)). vm_compute. left. reflexivity.
  - apply (Hflags (mkRow "t1" "Buy oat milk" None "pending" 150 (Some 100) "pending" 0 1 0)).
    vm_compute. left. reflexivity.
Defined.

(** ** One operation, one record *)

Lemma find_apply_op_other db op id' :
  id' <> op_target op ->
  List.find (has_id id') (apply_op db op) = List.find (has_id id') db.
Proof.
  intros Hne. destruct op; simpl in *.
  - unfold createTask, insert_row. simpl row_id.
    destruct (List.existsb (has_id id) db); [reflexivity|]. simpl.
    apply find_snoc_other. simpl. congruence.
  - rewrite updateTask_unfold. destruct (getTaskById db id); [|reflexivity].
    destruct (no_updates input); [reflexivity|]. simpl.
    now apply find_update_other; [apply update_assignments_keeps_id|].
  - unfold deleteTask. destruct (getTaskById db id) as [t|]; [|reflexivity].
    destruct (task_locallyCreated t); simpl.
    + now apply find_delete_other.
    + now apply find_update_other; [intros r; reflexivity|].
  - unfold toggleTaskComplete. destruct (getTaskById db id); [|reflexivity].
    rewrite updateTask_unfold. destruct (getTaskById db id); [|reflexivity]. simpl.
    now apply find_update_other; [apply update_assignments_keeps_id|].
  - now apply find_update_other; [apply markTaskAsSynced_set_keeps_id|].
  - now apply find_delete_other.
  - now apply find_insert_or_replace_other.
  - now apply find_update_other; [intros r; reflexivity|].
Qed.

(** X6: every operation of the store touches the record it is addressed to
    and no other: whatever the operation and its arguments, every other id
    reads exactly as before. *)
Theorem store_operation_leaves_other_records :
  forall (db : DB) (op : StoreOp) (id' : string),
    id' <> op_target op ->
    getTaskById (apply_op db op) id' = getTaskById db id'.
Proof.
  intros db op id' Hne. unfold getTaskById. now rewrite find_apply_op_other.
Qed.

Lemma store_operation_leaves_other_records_witness :
  getTaskById (apply_op two_task_store (OpDeleteTask "t2" 130)) "t1"
  = getTaskById two_task_store "t1".
Proof.
  apply (store_operation_leaves_other_records two_task_store (OpDeleteTask "t2" 130) "t1").
  vm_compute. discriminate.
Defined.

(** ** Toggling *)

Lemma toggleTaskComplete_found id now db t :
  getTaskById db id = Some t ->
  toggleTaskComplete id now db
  = updateTask id now (mkUpdateInput None None (Some (toggled_status (task_status t)))) db.
Proof. intros Hget. unfold toggleTaskComplete. now rewrite Hget. Qed.

Lemma toggled_twice status :
  status = "pending" \/ status = "completed" ->
  toggled_status (toggled_status status) = status.
Proof. intros [->| ->]; reflexivity. Qed.

Lemma toggled_status_range status :
  toggled_status status = "pending" \/ toggled_status status = "completed".
Proof.
  unfold toggled_status. destruct (String.eqb status "completed"); auto.
Qed.

(** X7: [toggleTaskComplete] on a record it finds writes [pending] when the
    status was [completed] and [completed] otherwise, and stamps the record
    with the time of the call; toggling a [pending] or [completed] record
    twice gives its status back. *)
Theorem toggleTaskComplete_flips_the_status :
  forall (id : string) (now now' : Z) (db : DB) (t : Task),
    getTaskById db id = Some t ->
    let db1 := fst (toggleTaskComplete id now db) in
    let db2 := fst (toggleTaskComplete id now' db1) in
    option_map task_status (getTaskById db1 id) = Some (toggled_status (task_status t)) /\
    option_map task_lastUpdatedAt (getTaskById db1 id) = Some now /\
    (toggled_status (task_status t) = "pending"
     \/ toggled_status (task_status t) = "completed") /\
    (task_status t = "pending" \/ task_status t = "completed" ->
     option_map task_status (getTaskById db2 id) = Some (task_status t)).
Proof.
  intros id now now' db t Hget db1 db2.
  assert (forall n d u,
             getTaskById d id = Some u ->
             getTaskById (fst (toggleTaskComplete id n d)) id
             = Some (updated_task n (mkUpdateInput None None
                                       (Some (toggled_status (task_status u)))) u)) as Hstep.
  { intros n d u Hu. rewrite (toggleTaskComplete_found id n d u Hu).
    pose proof (updateTask_found id n
                  (mkUpdateInput None None (Some (toggled_status (task_status u))))
                  d u Hu eq_refl) as Hupd.
    rewrite Hupd. simpl fst.
    apply getTaskById_some_row in Hu as (r & Hfind & -> & _ & _).
    unfold getTaskById.
    rewrite find_update_same by apply update_assignments_keeps_id.
    rewrite Hfind. simpl. f_equal. apply update_assignments_task. }
  pose proof (Hstep now db t Hget) as H1. fold db1 in H1.
  pose proof (Hstep now' db1 _ H1) as H2. fold db2 in H2.
  split; [now rewrite H1|]. split; [now rewrite H1|].
  split; [apply toggled_status_range|].
  intros Hst. rewrite H2. simpl. f_equal. now apply toggled_twice.
Qed.

Lemma toggleTaskComplete_flips_the_status_witness :
  option_map task_status
    (getTaskById (fst (toggleTaskComplete "t1" 200 synced_store)) "t1") = Some "completed" /\
  option_map task_status
    (getTaskById
       (fst (toggleTaskComplete "t1" 210 (fst (toggleTaskComplete "t1" 200 synced_store))))
       "t1") = Some "pending".
Proof.
  destruct (toggleTaskComplete_flips_the_status
              "t1" 200 210 synced_store
              (mkTask "t1" "Buy milk" None "pending" 100 (Some 100) "synced" false false false)
              ltac:(vm_compute; reflexivity))
    as (H1 & _ & _ & H2).
  split; [exact H1|]. apply H2. left. reflexivity.
Defined.

(** ** Listing the active records *)

Lemma insert_desc_perm r l : Permutation (insert_desc r l) (r :: l).
Proof.
  induction l as [|x l IH]; simpl; [reflexivity|].
  destruct (row_lastUpdatedAt x <=? row_lastUpdatedAt r); [reflexivity|].
  rewrite IH. apply perm_swap.
Qed.

Lemma order_by_perm l : Permutation (order_by_lastUpdatedAt_desc l) l.
Proof.
  induction l as [|x l IH]; simpl; [reflexivity|].
  unfold order_by_lastUpdatedAt_desc in *. simpl.
  rewrite insert_desc_perm. now constructor.
Qed.

Lemma insert_desc_sorted r l :
  StronglySorted (fun a b => row_lastUpdatedAt b <= row_lastUpdatedAt a) l ->
  StronglySorted (fun a b => row_lastUpdatedAt b <= row_lastUpdatedAt a) (insert_desc r l).
Proof.
  induction l as [|x l IH]; simpl; intros Hs.
  - repeat constructor.
  - inversion Hs as [|? ? Hs' Hx]; subst.
    destruct (row_lastUpdatedAt x <=? row_lastUpdatedAt r) eqn:E.
    + apply Z.leb_le in E. constructor; [exact Hs|].
      constructor; [exact E|]. rewrite List.Forall_forall in *.
      intros y Hy. specialize (Hx y Hy). lia.
    + apply Z.leb_gt in E. constructor; [now apply IH|].
      rewrite insert_desc_perm. constructor; [lia|exact Hx].
Qed.

Lemma order_by_sorted l :
  StronglySorted (fun a b => row_lastUpdatedAt b <= row_lastUpdatedAt a)
                 (order_by_lastUpdatedAt_desc l).
Proof.
  induction l as [|x l IH]; simpl; [constructor|].
  unfold order_by_lastUpdatedAt_desc in *. simpl. now apply insert_desc_sorted.
Qed.

Lemma StronglySorted_map {A B} (f : A -> B) (R : B -> B -> Prop) l :
  StronglySorted (fun a b => R (f a) (f b)) l -> StronglySorted R (List.map f l).
Proof.
  induction 1 as [|x l Hs IH Hx]; simpl; constructor; [exact IH|].
  apply List.Forall_forall. intros y Hy. apply List.in_map_iff in Hy as (z & <- & Hz).
  rewrite List.Forall_forall in Hx. now apply Hx.
Qed.

Lemma in_getAllTasks db t :
  List.In t (getAllTasks db) <->
  exists r, List.In r db /\ row_locallyDeleted r = 0 /\ rowToTask r = t.
Proof.
  unfold getAllTasks, select_where. rewrite List.in_map_iff. split.
  - intros (r & Ht & Hin).
    apply (Permutation_in _ (order_by_perm _)) in Hin.
    apply List.filter_In in Hin as [Hin Hd]. apply Z.eqb_eq in Hd. eauto.
  - intros (r & Hin & Hd & Ht). exists r. split; [exact Ht|].
    apply (Permutation_in _ (Permutation_sym (order_by_perm _))).
    apply List.filter_In. split; [exact Hin|]. now apply Z.eqb_eq.
Qed.

(** X8: [getAllTasks] returns exactly the records that are not soft-deleted,
    each as often as it is stored, most recently updated first. *)
Theorem getAllTasks_lists_active_records_newest_first :
  forall (db : DB),
    (forall t, List.In t (getAllTasks db) <->
               exists r, List.In r db /\ row_locallyDeleted r = 0 /\ rowToTask r = t) /\
    (forall t, List.In t (getAllTasks db) -> task_locallyDeleted t = false) /\
    Permutation (getAllTasks db)
      (List.map rowToTask (List.filter (fun r => row_locallyDeleted r =? 0) db)) /\
    newest_first (getAllTasks db).
Proof.
  intros db. split; [intros t; apply in_getAllTasks|]. split; [|split].
  - intros t Hin. apply in_getAllTasks in Hin as (r & _ & Hd & <-). simpl. now rewrite Hd.
  - unfold getAllTasks, select_where. apply Permutation_map, order_by_perm.
  - unfold newest_first, getAllTasks. apply StronglySorted_map. apply order_by_sorted.
Qed.

(** ** Soft deletion *)

(** X9: [deleteTask] on a record that has been pushed before (it is not
    [locallyCreated]) returns [true] and keeps the row: the record becomes
    [locallyDeleted] with [syncStatus] [pending] and the time of the call,
    is in the deleted batch, and no record with that id is listed by
    [getAllTasks] any more. *)
Theorem deleteTask_hides_a_pushed_record :
  forall (id : string) (now : Z) (db : DB) (t : Task),
    getTaskById db id = Some t ->
    task_locallyCreated t = false ->
    let db' := fst (deleteTask id now db) in
    snd (deleteTask id now db) = true /\
    getTaskById db' id = Some (soft_deleted_task now t) /\
    List.In (soft_deleted_task now t) (getLocallyDeletedTasks db') /\
    (forall t', List.In t' (getAllTasks db') -> task_id t' <> id) /\
    List.length db' = List.length db.
Proof.
  intros id now db t Hget Hnc db'.
  pose proof Hget as Hrow. apply getTaskById_some_row in Hrow as (r & Hfind & -> & Hin & Hid).
  set (set := fun r => set_syncStatus "pending" (set_lastUpdatedAt now (set_locallyDeleted 1 r))).
  assert (deleteTask id now db = (update_where_id set id db, true)) as Hdel.
  { unfold deleteTask. rewrite Hget, Hnc. reflexivity. }
  unfold db'. rewrite Hdel. simpl fst. simpl snd.
  assert (rowToTask (set r) = soft_deleted_task now (rowToTask r)) as Htask by reflexivity.
  split; [reflexivity|]. split; [|split; [|split]].
  - unfold getTaskById. rewrite find_update_same by (intros x; reflexivity).
    now rewrite Hfind.
  - rewrite <- Htask. unfold getLocallyDeletedTasks, select_where. apply List.in_map.
    apply List.filter_In. split; [|reflexivity].
    apply in_update_where_id. exists r. split; [exact Hin|].
    assert (has_id id r = true) as -> by now apply has_id_true. reflexivity.
  - intros t' Hall Hid'. apply in_getAllTasks in Hall as (r' & Hin' & Hd' & <-).
    apply in_update_where_id in Hin' as (r0 & Hin0 & ->).
    destruct (has_id id r0) eqn:E; [discriminate Hd'|].
    apply has_id_false in E. contradiction.
  - unfold update_where_id. apply List.length_map.
Qed.

Lemma deleteTask_hides_a_pushed_record_witness :
  snd (deleteTask "t1" 130 two_task_store) = true /\
  getTaskById (fst (deleteTask "t1" 130 two_task_store)) "t1"
  = Some (mkTask "t1" "Buy milk" None "pending" 130 (Some 100) "pending" false false true).
Proof.
  destruct (deleteTask_hides_a_pushed_record
              "t1" 130 two_task_store
              (mkTask "t1" "Buy milk" None "pending" 100 (Some 100) "synced" false false false)
              ltac:(vm_compute; reflexivity) eq_refl)
    as (Hret & Hread & _).
  split; [exact Hret|exact Hread].
Defined.

(** ** Writes of the sync engine *)

Lemma update_where_id_idem set id db :
  keeps_id set -> (forall r, set (set r) = set r) ->
  update_where_id set id (update_where_id set id db) = update_where_id set id db.
Proof.
  intros Hk Hidem. unfold update_where_id. rewrite List.map_map.
  apply List.map_ext. intros r. destruct (has_id id r) eqn:E; [|now rewrite E].
  assert (has_id id (set r) = true) as ->
    by (apply has_id_true; rewrite Hk; now apply has_id_true).
  apply Hidem.
Qed.

Lemma delete_where_id_idem id db :
  delete_where_id id (delete_where_id id db) = delete_where_id id db.
Proof.
  unfold delete_where_id. induction db as [|r db IH]; simpl; [reflexivity|].
  destruct (negb (has_id id r)) eqn:E; simpl; [rewrite E; f_equal|]; exact IH.
Qed.

(** X10: the writes the engine makes on acknowledgement are idempotent:
    marking a record synced twice with the same server timestamp, marking it
    as a conflict twice, removing it twice, or upserting the same server
    record twice leaves the table exactly as doing it once. *)
Theorem engine_writes_are_idempotent :
  forall (db : DB) (id : string) (serverTask : option Z) (serverRecord : ServerRecord),
    markTaskAsSynced id serverTask (markTaskAsSynced id serverTask db)
    = markTaskAsSynced id serverTask db /\
    markTaskAsConflict id (markTaskAsConflict id db) = markTaskAsConflict id db /\
    removeSyncedDeletedTask id (removeSyncedDeletedTask id db)
    = removeSyncedDeletedTask id db /\
    upsertTaskFromServer serverRecord (upsertTaskFromServer serverRecord db)
    = upsertTaskFromServer serverRecord db.
Proof.
  intros db id serverTask serverRecord. split; [|split; [|split]].
  - apply update_where_id_idem; [apply markTaskAsSynced_set_keeps_id|].
    intros r. destruct serverTask; reflexivity.
  - apply update_where_id_idem; intros r; reflexivity.
  - apply delete_where_id_idem.
  - unfold upsertTaskFromServer, insert_or_replace. simpl row_id.
    f_equal. unfold delete_where_id at 1. rewrite List.filter_app. simpl.
    assert (has_id (sr_id serverRecord)
              (mkRow (sr_id serverRecord) (sr_title serverRecord)
                     (sr_description serverRecord) (sr_status serverRecord)
                     (sr_lastUpdatedAt serverRecord) (Some (sr_lastUpdatedAt serverRecord))
                     "synced" 0 0 0) = true) as -> by now apply has_id_true.
    simpl. rewrite List.app_nil_r. apply delete_where_id_idem.
Qed.

Lemma getAllTasks_lists_active_records_newest_first_witness :
  task_locallyDeleted (mkTask "t2" "Call Ana" (Some "before noon") "pending" 120 None
                              "pending" true false false) = false.
Proof.
  destruct (getAllTasks_lists_active_records_newest_first two_task_store)
    as (_ & Hactive & _).
  apply Hactive. vm_compute. left. reflexivity.
Defined.

(** ** Records taken from the server *)

Lemma pending_id_has_pending_row db id :
  set_has (localPendingIds db) id = true ->
  exists r, List.In r db /\ row_id r = id /\ pending_cond r = true.
Proof.
  unfold set_has, localPendingIds. intros Hin.
  apply bool_decide_eq_true in Hin. apply elem_of_list_to_set, list_elem_of_In in Hin.
  unfold getLocallyCreatedTasks, getLocallyModifiedTasks, getLocallyDeletedTasks,
    select_where in Hin.
  rewrite <- !List.map_app, task_ids_of_rows in Hin.
  apply List.in_map_iff in Hin as (r & Hid & Hin).
  exists r. unfold pending_cond.
  apply List.in_app_or in Hin as [Hin|Hin];
    [|apply List.in_app_or in Hin as [Hin|Hin]];
    apply List.filter_In in Hin as [Hin Hc];
    (split; [exact Hin|split; [exact Hid|]]);
    destruct (created_cond r), (modified_cond r), (deleted_cond r);
    simpl in *; congruence.
Qed.

(** X11: [upsertTaskFromServer] leaves exactly one row with the server
    record's id, carrying the server's field values, its timestamp as both
    local and server timestamp, [syncStatus] [synced] and no provenance flag,
    whatever was stored under that id before (a pending local change
    included); every other id reads as before. *)
Theorem upsertTaskFromServer_overwrites_or_inserts :
  forall (serverTask : ServerRecord) (db : DB),
    getTaskById (upsertTaskFromServer serverTask db) (sr_id serverTask)
    = Some (server_task serverTask) /\
    List.map rowToTask
      (List.filter (has_id (sr_id serverTask)) (upsertTaskFromServer serverTask db))
    = [server_task serverTask] /\
    set_has (localPendingIds (upsertTaskFromServer serverTask db)) (sr_id serverTask) = false /\
    (forall id', id' <> sr_id serverTask ->
                 getTaskById (upsertTaskFromServer serverTask db) id' = getTaskById db id').
Proof.
  intros serverTask db.
  set (row := mkRow (sr_id serverTask) (sr_title serverTask) (sr_description serverTask)
                    (sr_status serverTask) (sr_lastUpdatedAt serverTask)
                    (Some (sr_lastUpdatedAt serverTask)) "synced" 0 0 0).
  assert (List.filter (has_id (sr_id serverTask)) (upsertTaskFromServer serverTask db) = [row])
    as Hone.
  { unfold upsertTaskFromServer, insert_or_replace. fold row. simpl row_id.
    rewrite List.filter_app. simpl.
    assert (has_id (sr_id serverTask) row = true) as -> by now apply has_id_true.
    assert (List.filter (has_id (sr_id serverTask)) (delete_where_id (sr_id serverTask) db) = [])
      as ->; [|reflexivity].
    unfold delete_where_id. induction db as [|r db IH]; simpl; [reflexivity|].
    destruct (has_id (sr_id serverTask) r) eqn:E; simpl; [exact IH|]. now rewrite E. }
  split; [|split; [|split]].
  - unfold getTaskById, upsertTaskFromServer. fold row.
    now rewrite (find_insert_or_replace_same row).
  - now rewrite Hone.
  - destruct (set_has _ _) eqn:E; [|reflexivity]. exfalso.
    apply pending_id_has_pending_row in E as (r & Hin & Hid & Hp).
    assert (List.In r [row]) as Hr.
    { rewrite <- Hone. apply List.filter_In. split; [exact Hin|now apply has_id_true]. }
    destruct Hr as [<-|[]]. discriminate Hp.
  - intros id' Hne. unfold getTaskById, upsertTaskFromServer. fold row.
    now rewrite (find_insert_or_replace_other row).
Qed.

Lemma upsertTaskFromServer_overwrites_or_inserts_witness :
  getTaskById
    (upsertTaskFromServer (mkServerRecord "t1" "Buy soy milk" None "completed" 200)
                          modified_store) "t2"
  = getTaskById modified_store "t2".
Proof.
  destruct (upsertTaskFromServer_overwrites_or_inserts
              (mkServerRecord "t1" "Buy soy milk" None "completed" 200) modified_store)
    as (_ & _ & _ & Hother).
  apply Hother. vm_compute. discriminate.
Defined.

(** * Further properties of the engine *)

Section PushOutcomes.

Context {S : Type} `{RemoteService S}.

Implicit Types w : World S.

Lemma pushCreatedTask_spec errors task w :
  pushCreatedTask errors task w
  = let answer := api_createTask (createPayload task) (w_remote w) in
    let w1 := with_remote (snd answer)
                (with_trace (fun t => (t ++ [EvCreateTask (createPayload task)])%list) w) in
    match fst answer with
    | Returned serverTask =>
        (errors,
         with_db (markTaskAsSynced (task_id task) (Some (api_lastUpdatedAt serverTask))) w1)
    | Thrown e => ((errors ++ [create_failed_msg task e])%list, w1)
    end.
Proof.
  unfold pushCreatedTask, bind. fold (createPayload task). rewrite call_spec. cbv zeta.
  destruct (fst (api_createTask (createPayload task) (w_remote w))); reflexivity.
Qed.

Lemma pushDeletedTask_spec errors task w :
  pushDeletedTask errors task w
  = let answer := api_deleteTask (task_id task) (w_remote w) in
    let w1 := with_remote (snd answer)
                (with_trace (fun t => (t ++ [EvDeleteTask (task_id task)])%list) w) in
    match fst answer with
    | Returned _ => (errors, with_db (removeSyncedDeletedTask (task_id task)) w1)
    | Thrown e =>
        if is_not_found e
        then (errors, with_db (removeSyncedDeletedTask (task_id task)) w1)
        else ((errors ++ [delete_failed_msg task e])%list, w1)
    end.
Proof.
  unfold pushDeletedTask, bind. rewrite call_spec. cbv zeta.
  destruct (fst (api_deleteTask (task_id task) (w_remote w))) as [u|e]; [reflexivity|].
  destruct e; reflexivity.
Qed.

Lemma pushModifiedTask_spec errors task w :
  pushModifiedTask errors task w
  = let payload := updatePayload task (push_base task) in
    let answer := api_updateTask (task_id task) payload (w_remote w) in
    let w1 := with_remote (snd answer)
                (with_trace (fun t => (t ++ [EvUpdateTask (task_id task) payload])%list) w) in
    match fst answer with
    | Returned serverTask =>
        (errors,
         with_db (markTaskAsSynced (task_id task) (Some (api_lastUpdatedAt serverTask))) w1)
    | Thrown (ConflictError _ serverTask) => (errors, snd (handleConflict task serverTask w1))
    | Thrown (NotFoundError m) =>
        ((errors ++ ["Task " +:+ dquote +:+ task_title task +:+ dquote
                     +:+ " was deleted on server"])%list,
         with_db (markTaskAsConflict (task_id task)) w1)
    | Thrown e => ((errors ++ [update_failed_msg task e])%list, w1)
    end.
Proof.
  unfold pushModifiedTask, bind. fold (push_base task). rewrite call_spec. cbv zeta.
  destruct (fst (api_updateTask (task_id task) (updatePayload task (push_base task))
                                (w_remote w))) as [u|e]; [reflexivity|].
  destruct e; try reflexivity.
  destruct (handleConflict task serverTask _) as [[] w2]. reflexivity.
Qed.

Lemma getTaskById_markTaskAsSynced_same db id ts t :
  getTaskById db id = Some t ->
  getTaskById (markTaskAsSynced id (Some ts) db) id
  = Some (mkTask (task_id t) (task_title t) (task_description t) (task_status t)
                 ts (Some ts) "synced" false false (task_locallyDeleted t)).
Proof.
  intros Hget. apply getTaskById_some_row in Hget as (r & Hfind & -> & _ & _).
  unfold getTaskById, markTaskAsSynced.
  rewrite find_update_same by apply (markTaskAsSynced_set_keeps_id (Some ts)).
  now rewrite Hfind.
Qed.

(** X12: what an acknowledged push leaves behind.  When the service accepts
    a create or an update, no error is recorded and the record, under the id
    it has locally, is marked [synced] with the returned timestamp as local
    and server timestamp, its own field values kept; the id the service
    returns is not used.  When the service accepts a delete, or answers
    not-found to it, no error is recorded and no record with that id is left
    in the store. *)
Theorem acknowledged_push_marks_synced_or_removes :
  forall w (errors : list string) (task : Task),
    getTaskById (w_db w) (task_id task) = Some task ->
    (forall serverTask,
        fst (api_createTask (createPayload task) (w_remote w)) = Returned serverTask ->
        fst (pushCreatedTask errors task w) = errors /\
        getTaskById (w_db (snd (pushCreatedTask errors task w))) (task_id task)
        = Some (mkTask (task_id task) (task_title task) (task_description task)
                       (task_status task) (api_lastUpdatedAt serverTask)
                       (Some (api_lastUpdatedAt serverTask)) "synced" false false
                       (task_locallyDeleted task))) /\
    (forall serverTask,
        fst (api_updateTask (task_id task) (updatePayload task (push_base task)) (w_remote w))
        = Returned serverTask ->
        fst (pushModifiedTask errors task w) = errors /\
        getTaskById (w_db (snd (pushModifiedTask errors task w))) (task_id task)
        = Some (mkTask (task_id task) (task_title task) (task_description task)
                       (task_status task) (api_lastUpdatedAt serverTask)
                       (Some (api_lastUpdatedAt serverTask)) "synced" false false
                       (task_locallyDeleted task))) /\
    (forall answer,
        fst (api_deleteTask (task_id task) (w_remote w)) = answer ->
        (answer = Returned tt \/ exists m, answer = Thrown (NotFoundError m)) ->
        fst (pushDeletedTask errors task w) = errors /\
        getTaskById (w_db (snd (pushDeletedTask errors task w))) (task_id task) = None /\
        (forall r, List.In r (w_db (snd (pushDeletedTask errors task w))) ->
                   row_id r <> task_id task)).
Proof.
  intros w errors task Hget. split; [|split].
  - intros serverTask Hans. rewrite pushCreatedTask_spec. cbv zeta. rewrite Hans. simpl.
    split; [reflexivity|]. now apply getTaskById_markTaskAsSynced_same.
  - intros serverTask Hans. rewrite pushModifiedTask_spec. cbv zeta. rewrite Hans. simpl.
    split; [reflexivity|]. now apply getTaskById_markTaskAsSynced_same.
  - intros answer Hans Hok. rewrite pushDeletedTask_spec. cbv zeta. rewrite Hans.
    assert (forall w1 : World S,
               getTaskById (w_db (with_db (removeSyncedDeletedTask (task_id task)) w1))
                           (task_id task) = None /\
               (forall r, List.In r (w_db (with_db (removeSyncedDeletedTask (task_id task)) w1))
                          -> row_id r <> task_id task)) as Hgone.
    { intros w1. simpl. unfold removeSyncedDeletedTask. split.
      - unfold getTaskById. now rewrite find_delete_same.
      - intros r Hin. now apply in_delete_where_id in Hin as [_ Hne]. }
    destruct Hok as [->|[m ->]]; simpl; (split; [reflexivity|apply Hgone]).
Qed.

(** X13: what a failed push leaves behind.  When a create fails, when an
    update fails with anything but a conflict or not-found, or when a delete
    fails with anything but not-found, the store is not written at all (so
    the record is in the same batch in the next cycle) and exactly one
    message, naming the record's title and the error's message, is added to
    the errors.  A conflict outcome adds no message, however it is
    resolved. *)
Theorem failed_push_leaves_the_store_alone :
  forall w (errors : list string) (task : Task) (e : ApiException),
    (fst (api_createTask (createPayload task) (w_remote w)) = Thrown e ->
     fst (pushCreatedTask errors task w) = (errors ++ [create_failed_msg task e])%list /\
     w_db (snd (pushCreatedTask errors task w)) = w_db w) /\
    (fst (api_updateTask (task_id task) (updatePayload task (push_base task)) (w_remote w))
     = Thrown e ->
     (is_conflict e = false -> is_not_found e = false ->
      fst (pushModifiedTask errors task w) = (errors ++ [update_failed_msg task e])%list /\
      w_db (snd (pushModifiedTask errors task w)) = w_db w) /\
     (is_conflict e = true -> fst (pushModifiedTask errors task w) = errors)) /\
    (fst (api_deleteTask (task_id task) (w_remote w)) = Thrown e ->
     is_not_found e = false ->
     fst (pushDeletedTask errors task w) = (errors ++ [delete_failed_msg task e])%list /\
     w_db (snd (pushDeletedTask errors task w)) = w_db w).
Proof.
  intros w errors task e. split; [|split].
  - intros Hans. rewrite pushCreatedTask_spec. cbv zeta. rewrite Hans. split; reflexivity.
  - intros Hans. rewrite pushModifiedTask_spec. cbv zeta. rewrite Hans. split.
    + intros Hc Hn. destruct e; try discriminate; split; reflexivity.
    + intros Hc. destruct e; try discriminate. reflexivity.
  - intros Hans Hn. rewrite pushDeletedTask_spec. cbv zeta. rewrite Hans, Hn.
    split; reflexivity.
Qed.

End PushOutcomes.

Lemma acknowledged_push_marks_synced_or_removes_witness :
  getTaskById
    (w_db (snd (pushCreatedTask [] created_task (start_world (listing_service []) created_store))))
    "c1"
  = Some (mkTask "c1" "Buy milk" None "pending" 500 (Some 500) "synced" false false false).
Proof.
  destruct (acknowledged_push_marks_synced_or_removes
              (start_world (listing_service []) created_store) [] created_task
              ltac:(vm_compute; reflexivity)) as (Hcreate & _ & _).
  destruct (Hcreate (mkApiTask "s1" "u1" "Buy milk" None "pending" 500)
                    ltac:(vm_compute; reflexivity)) as [_ Hread].
  exact Hread.
Defined.

Lemma failed_push_leaves_the_store_alone_witness :
  w_db (snd (pushCreatedTask [] created_task
               (start_world (failing_service (NetworkError "Network request failed"))
                            created_store)))
  = created_store.
Proof.
  destruct (failed_push_leaves_the_store_alone
              (start_world (failing_service (NetworkError "Network request failed"))
                           created_store)
              [] created_task (NetworkError "Network request failed")) as (Hcreate & _ & _).
  destruct (Hcreate ltac:(vm_compute; reflexivity)) as [_ Hdb]. exact Hdb.
Defined.

(** ** The network calls of a cycle *)

Section TraceFacts.

Context {S : Type} `{RemoteService S}.

Implicit Types w : World S.

Lemma extends_with_refl p w : extends_with p w w.
Proof. exists []. split; [now rewrite List.app_nil_r|reflexivity]. Qed.

Lemma extends_with_trans p w1 w2 w3 :
  extends_with p w1 w2 -> extends_with p w2 w3 -> extends_with p w1 w3.
Proof.
  intros (e1 & H1 & P1) (e2 & H2 & P2). exists (e1 ++ e2)%list. split.
  - rewrite H2, H1. now rewrite List.app_assoc.
  - rewrite List.forallb_app, P1, P2. reflexivity.
Qed.

Lemma extends_with_weaken (p q : Event -> bool) w w' :
  (forall e, p e = true -> q e = true) -> extends_with p w w' -> extends_with q w w'.
Proof.
  intros Hpq (evs & Ht & Hp). exists evs. split; [exact Ht|].
  apply List.forallb_forall. intros e He. apply Hpq.
  rewrite List.forallb_forall in Hp. now apply Hp.
Qed.

Lemma for_each_extends {A E} p (body : E -> A -> M S E) xs :
  (forall e x w, extends_with p w (snd (body e x w))) ->
  forall e w, extends_with p w (snd (for_each body xs e w)).
Proof.
  intros Hbody e w. apply (for_each_preserves (extends_with p w)); [|apply extends_with_refl].
  intros e' x w' _ Hw'. eapply extends_with_trans; [exact Hw'|apply Hbody].
Qed.

Lemma for_each_trace_exact {A E} (body : E -> A -> M S E) (ev : A -> Event) xs :
  (forall e x w, w_trace (snd (body e x w)) = (w_trace w ++ [ev x])%list) ->
  forall e w, w_trace (snd (for_each body xs e w)) = (w_trace w ++ List.map ev xs)%list.
Proof.
  intros Hbody. induction xs as [|x xs IH]; intros e w; simpl.
  - now rewrite List.app_nil_r.
  - unfold bind. specialize (Hbody e x w).
    destruct (body e x w) as [e1 w1]. simpl in Hbody.
    rewrite IH, Hbody. now rewrite <- List.app_assoc.
Qed.

Lemma for_each_trace_same {A E} (body : E -> A -> M S E) xs :
  (forall e x w, w_trace (snd (body e x w)) = w_trace w /\
                 w_remote (snd (body e x w)) = w_remote w) ->
  forall e w, w_trace (snd (for_each body xs e w)) = w_trace w /\
              w_remote (snd (for_each body xs e w)) = w_remote w.
Proof.
  intros Hbody e w.
  apply (for_each_preserves
           (fun w' => w_trace w' = w_trace w /\ w_remote w' = w_remote w)); [|auto].
  intros e' x w' _ [Ht Hr]. destruct (Hbody e' x w') as [Ht' Hr']. split; congruence.
Qed.

Lemma handleConflict_updates task serverTask w :
  exists evs,
    w_trace (snd (handleConflict task serverTask w)) = (w_trace w ++ evs)%list /\
    List.forallb is_update_call evs = true /\ (List.length evs <= 1)%nat.
Proof.
  unfold handleConflict.
  destruct (api_lastUpdatedAt serverTask <? task_lastUpdatedAt task).
  - unfold bind. rewrite call_spec.
    exists [EvUpdateTask (task_id task) (updatePayload task (api_lastUpdatedAt serverTask))].
    split; [|split; [reflexivity|simpl; lia]].
    match goal with |- context [fst ?a] => destruct (fst a) end; reflexivity.
  - exists []. split; [simpl; now rewrite List.app_nil_r|split; [reflexivity|simpl; lia]].
Qed.

Lemma pushModifiedTask_updates errors task w :
  exists evs,
    w_trace (snd (pushModifiedTask errors task w)) = (w_trace w ++ evs)%list /\
    List.forallb is_update_call evs = true /\
    (1 <= List.length evs <= 2)%nat.
Proof.
  rewrite pushModifiedTask_spec. cbv zeta.
  destruct (fst (api_updateTask _ _ _)) as [u|e].
  - eexists [_]. split; [reflexivity|]. split; [reflexivity|simpl; lia].
  - destruct e as [m|m|m serverTask|c m|c m|m|m];
      try (eexists [_]; split; [reflexivity|]; split; [reflexivity|simpl; lia]).
    match goal with
    | |- context [handleConflict task serverTask ?w1] =>
        destruct (handleConflict_updates task serverTask w1) as (evs & Ht & Hp & Hl)
    end.
    eexists (_ :: evs). simpl snd. rewrite Ht. simpl w_trace.
    split; [now rewrite <- List.app_assoc|]. split; [exact Hp|simpl; lia].
Qed.

Lemma modified_loop_updates tasks :
  forall errors w,
  exists evs,
    w_trace (snd (for_each pushModifiedTask tasks errors w)) = (w_trace w ++ evs)%list /\
    List.forallb is_update_call evs = true /\
    (List.length tasks <= List.length evs <= 2 * List.length tasks)%nat.
Proof.
  induction tasks as [|t tasks IH]; intros errors w; simpl.
  - exists []. split; [now rewrite List.app_nil_r|]. split; [reflexivity|simpl; lia].
  - unfold bind. destruct (pushModifiedTask_updates errors t w) as (e1 & H1 & P1 & L1).
    destruct (pushModifiedTask errors t w) as [errors1 w1]. simpl in H1.
    destruct (IH errors1 w1) as (e2 & H2 & P2 & L2).
    exists (e1 ++ e2)%list. rewrite H2, H1. split; [now rewrite List.app_assoc|].
    split; [now rewrite List.forallb_app, P1, P2|]. rewrite List.length_app. lia.
Qed.

(** The calls [handleConflict] and one step of the modified loop add. *)
Lemma handleConflict_calls task serverTask w :
  w_trace (snd (handleConflict task serverTask w))
  = (w_trace w
     ++ if api_lastUpdatedAt serverTask <? task_lastUpdatedAt task
        then [EvUpdateTask (task_id task)
                (updatePayload task (api_lastUpdatedAt serverTask))]
        else [])%list.
Proof.
  unfold handleConflict.
  destruct (api_lastUpdatedAt serverTask <? task_lastUpdatedAt task).
  - unfold bind. rewrite call_spec.
    match goal with |- context [fst ?a] => destruct (fst a) end; reflexivity.
  - simpl. now rewrite List.app_nil_r.
Qed.

Lemma pushModifiedTask_calls errors task w :
  exists calls,
    update_calls_for task calls /\
    w_trace (snd (pushModifiedTask errors task w)) = (w_trace w ++ calls)%list.
Proof.
  rewrite pushModifiedTask_spec. cbv zeta.
  assert (update_calls_for task (update_calls task None)) as Hone
    by (exists None; split; [reflexivity|discriminate]).
  destruct (fst (api_updateTask _ _ _)) as [u|e].
  - exists (update_calls task None). split; [exact Hone|reflexivity].
  - destruct e as [m|m|m serverTask|c m|c m|m|m];
      try (exists (update_calls task None); split; [exact Hone|reflexivity]).
    cbn [snd]. rewrite handleConflict_calls. cbn [w_trace with_remote with_trace].
    destruct (api_lastUpdatedAt serverTask <? task_lastUpdatedAt task) eqn:Hnewer.
    + exists (update_calls task (Some (api_lastUpdatedAt serverTask))). split.
      * eexists. split; [reflexivity|]. intros base [= <-]. now apply Z.ltb_lt.
      * now rewrite <- List.app_assoc.
    + exists (update_calls task None). split; [exact Hone|].
      now rewrite List.app_nil_r.
Qed.

Lemma modified_loop_calls tasks :
  forall errors w,
  exists groups,
    List.Forall2 update_calls_for tasks groups /\
    w_trace (snd (for_each pushModifiedTask tasks errors w))
    = (w_trace w ++ List.concat groups)%list.
Proof.
  induction tasks as [|t tasks IH]; intros errors w; simpl.
  - exists []. split; [constructor|]. simpl. now rewrite List.app_nil_r.
  - unfold bind. destruct (pushModifiedTask_calls errors t w) as (calls & Hfor & Ht).
    destruct (pushModifiedTask errors t w) as [errors1 w1]. simpl in Ht.
    destruct (IH errors1 w1) as (groups & Hall & Hrest).
    exists (calls :: groups). split; [now constructor|].
    rewrite Hrest, Ht. simpl. now rewrite List.app_assoc.
Qed.

(** X14: the push phase attempts every record of every batch, whatever
    happened to the records before it: exactly one create call per record of
    the created batch, in order, carrying the record's title, description,
    status and timestamp; then, record by record of the modified batch and
    in its order, one update call for that record on the base it carries,
    followed by at most one more update call for the same record (the
    re-issue of a conflict resolution, on a server timestamp older than the
    record's); then exactly one delete call per record of the deleted
    batch. *)
Theorem push_attempts_every_record :
  forall w,
    let createdTasks := getLocallyCreatedTasks (w_db w) in
    let pushed1 := for_each pushCreatedTask createdTasks [] w in
    let modifiedTasks := getLocallyModifiedTasks (w_db (snd pushed1)) in
    let pushed2 := for_each pushModifiedTask modifiedTasks (fst pushed1) (snd pushed1) in
    let deletedTasks := getLocallyDeletedTasks (w_db (snd pushed2)) in
    exists updates : list (list Event),
      List.Forall2 update_calls_for modifiedTasks updates /\
      w_trace (snd (pushChanges w))
      = (w_trace w
         ++ List.map (fun t => EvCreateTask (createPayload t)) createdTasks
         ++ List.concat updates
         ++ List.map (fun t => EvDeleteTask (task_id t)) deletedTasks)%list.
Proof.
  intros w createdTasks pushed1 modifiedTasks pushed2 deletedTasks.
  destruct (pushChanges_batches w) as [_ ->]. cbv zeta.
  fold createdTasks. fold pushed1. fold modifiedTasks. fold pushed2. fold deletedTasks.
  destruct (modified_loop_calls modifiedTasks (fst pushed1) (snd pushed1))
    as (updates & Hfor & Hu).
  fold pushed2 in Hu. exists updates. split; [exact Hfor|].
  rewrite (for_each_trace_exact pushDeletedTask (fun t => EvDeleteTask (task_id t))).
  - rewrite Hu. unfold pushed1.
    rewrite (for_each_trace_exact pushCreatedTask (fun t => EvCreateTask (createPayload t))).
    + now rewrite <- !List.app_assoc.
    + intros e x w0. rewrite pushCreatedTask_spec. cbv zeta.
      destruct (fst (api_createTask _ _)); reflexivity.
  - intros e x w0. rewrite pushDeletedTask_spec. cbv zeta.
    destruct (fst (api_deleteTask _ _)) as [u|err]; [reflexivity|].
    destruct (is_not_found err); reflexivity.
Qed.

Lemma pullReconcile_silent serverTasks w :
  w_trace (snd (pullReconcile serverTasks w)) = w_trace w /\
  w_remote (snd (pullReconcile serverTasks w)) = w_remote w.
Proof.
  unfold pullReconcile, bind, gets. rewrite pull_guard_true.
  match goal with
  | |- context [for_each (pullUpsert ?ids) serverTasks tt w] =>
      pose proof (for_each_trace_same (pullUpsert ids) serverTasks) as H1
  end.
  specialize (H1 ltac:(intros [] a w'; unfold pullUpsert;
                       destruct (set_has _ _); split; reflexivity) tt w).
  destruct (for_each (pullUpsert _) serverTasks tt w) as [[] w1]. simpl in H1.
  destruct H1 as [Ht Hr]. rewrite <- Ht, <- Hr.
  apply for_each_trace_same. intros [] t w'. unfold pullRemove.
  destruct (negb _); split; reflexivity.
Qed.

(** X15: the pull phase makes exactly one network call, the fetch.  When
    the fetch fails the store is left exactly as it was and the failure's
    message is returned; when it succeeds the pull reports success. *)
Theorem pull_fetches_once :
  forall w,
    w_trace (snd (pullChanges w)) = (w_trace w ++ [EvFetchTasks])%list /\
    w_remote (snd (pullChanges w)) = snd (api_fetchTasks (w_remote w)) /\
    (forall e, fst (api_fetchTasks (w_remote w)) = Thrown e ->
               w_db (snd (pullChanges w)) = w_db w /\
               fst (pullChanges w) = mkPullResult false (Some (error_message e))) /\
    (forall serverTasks,
        fst (api_fetchTasks (w_remote w)) = Returned serverTasks ->
        fst (pullChanges w) = mkPullResult true None).
Proof.
  intros w. unfold pullChanges, bind. rewrite call_spec.
  destruct (fst (api_fetchTasks (w_remote w))) as [serverTasks|e].
  - match goal with
    | |- context [pullReconcile serverTasks ?w1] =>
        destruct (pullReconcile_silent serverTasks w1) as [Ht Hr];
        destruct (pullReconcile serverTasks w1) as [[] w2]
    end.
    simpl in *. rewrite Ht, Hr.
    split; [reflexivity|]. split; [reflexivity|]. split; [discriminate|reflexivity].
  - simpl. split; [reflexivity|]. split; [reflexivity|]. split; [|discriminate].
    intros e' [= <-]. split; reflexivity.
Qed.

End TraceFacts.

Lemma pull_fetches_once_witness :
  w_db (snd (pullChanges unreachable_world)) = w_db unreachable_world /\
  fst (pullChanges unreachable_world) = mkPullResult false (Some "Network request failed").
Proof.
  destruct (pull_fetches_once unreachable_world) as (_ & _ & Hfail & _).
  apply (Hfail (NetworkError "Network request failed")). vm_compute. reflexivity.
Defined.

(** ** An accepted cycle *)

Section CycleFacts.

Context {S : Type} `{RemoteService S}.

Implicit Types w : World S.

Lemma pushChanges_network w : extends_with is_network_call w (snd (pushChanges w)).
Proof.
  unfold pushChanges, bind, gets. simpl.
  pose proof (for_each_extends is_network_call pushCreatedTask
                (getLocallyCreatedTasks (w_db w))) as H1.
  specialize (H1 ltac:(intros e x w0; rewrite pushCreatedTask_spec; cbv zeta;
                       exists [EvCreateTask (createPayload x)];
                       destruct (fst (api_createTask _ _)); split; reflexivity) [] w).
  destruct (for_each pushCreatedTask _ [] w) as [e1 w1]. simpl in *.
  pose proof (for_each_extends is_network_call pushModifiedTask
                (getLocallyModifiedTasks (w_db w1))) as H2.
  specialize (H2 ltac:(intros e x w0;
                       destruct (pushModifiedTask_updates e x w0) as (evs & Ht & Hp & _);
                       apply (extends_with_weaken is_update_call);
                       [intros [] ?; try discriminate; reflexivity|exists evs; auto]) e1 w1).
  destruct (for_each pushModifiedTask _ e1 w1) as [e2 w2]. simpl in *.
  pose proof (for_each_extends is_network_call pushDeletedTask
                (getLocallyDeletedTasks (w_db w2))) as H3.
  specialize (H3 ltac:(intros e x w0; rewrite pushDeletedTask_spec; cbv zeta;
                       exists [EvDeleteTask (task_id x)];
                       destruct (fst (api_deleteTask _ _)) as [u|err];
                       [|destruct (is_not_found err)]; split; reflexivity) e2 w2).
  destruct (for_each pushDeletedTask _ e2 w2) as [e3 w3]. simpl in *.
  eauto using extends_with_trans.
Qed.

Lemma pullChanges_network w : extends_with is_network_call w (snd (pullChanges w)).
Proof.
  exists [EvFetchTasks]. split; [|reflexivity].
  unfold pullChanges, bind. rewrite call_spec.
  destruct (fst (api_fetchTasks (w_remote w))) as [serverTasks|e]; [|reflexivity].
  match goal with
  | |- context [pullReconcile serverTasks ?w1] =>
      destruct (pullReconcile_silent serverTasks w1) as [Ht _];
      destruct (pullReconcile serverTasks w1) as [[] w2]
  end.
  simpl in *. now rewrite Ht.
Qed.

Lemma filter_status_broadcast (p : Event -> bool) (st : SyncStatus) (ls : list nat) :
  (forall l, p (EvStatus l st) = false) ->
  List.filter p (List.map (fun l => EvStatus l st) ls) = [].
Proof.
  intros Hp. induction ls as [|l ls IH]; simpl; [reflexivity|]. now rewrite Hp.
Qed.

(** The worlds an accepted cycle goes through, and where it ends. *)
Lemma sync_accepted_shape w :
  isSyncInProgress w = false -> isOnline w = true ->
  exists net err,
    w_trace (snd (sync w))
    = (w_trace w
       ++ List.map (fun l => EvStatus l (mkSyncStatus syncing (lastSyncTime w)
                                           (getPendingChangesCount (w_db w))
                                           (lastError w) true))
                   (statusListeners w)
       ++ net
       ++ List.map (fun l => EvStatus l (getSyncStatus (snd (sync w)))) (statusListeners w)
       ++ List.map (fun l => EvComplete l (fst (sync w)) err) (completeListeners w)
       ++ List.map (fun l => EvStatus l (getSyncStatus (snd (sync w)))) (statusListeners w))%list
    /\ List.forallb is_network_call net = true
    /\ isSyncInProgress (snd (sync w)) = false
    /\ statusListeners (snd (sync w)) = statusListeners w
    /\ completeListeners (snd (sync w)) = completeListeners w
    /\ currentStatus (snd (sync w)) = currentStatus w
    /\ w_clock (snd (sync w)) = w_clock w
    /\ (fst (sync w) = true ->
        err = None /\ syncState (snd (sync w)) = idle /\ lastError (snd (sync w)) = None /\
        lastSyncTime (snd (sync w)) = Some (w_clock w))
    /\ (fst (sync w) = false ->
        exists msg, err = Some msg /\ syncState (snd (sync w)) = error /\
                    lastSyncTime (snd (sync w)) = lastSyncTime w /\
                    lastError (snd (sync w))
                    = if truthy msg then Some msg else lastError w).
Proof.
  intros Hflag Hon. unfold sync, bind, gets. rewrite Hflag, Hon. simpl.
  unfold syncCycle, bind.
  match goal with
  | |- context [pushChanges ?w0] =>
      pose proof (pushChanges_same_engine w0) as Hs1;
      pose proof (pushChanges_network w0) as (ev1 & Ht1 & Hp1);
      destruct (pushChanges w0) as [pushResult w1]
  end.
  pose proof (pullChanges_same_engine w1) as Hs2.
  pose proof (pullChanges_network w1) as (ev2 & Ht2 & Hp2).
  destruct (pullChanges w1) as [pullResult w2].
  simpl in Hs1, Hs2, Ht1, Ht2.
  destruct Hs1 as (A1 & A2 & A3 & A4 & A5 & A6 & A7 & A8).
  destruct Hs2 as (B1 & B2 & B3 & B4 & B5 & B6 & B7 & B8).
  simpl in A1, A2, A3, A4, A5, A6, A7, A8.
  assert (currentStatus w = online) as Hcs
    by (unfold isOnline in Hon; destruct (currentStatus w); congruence).
  unfold getSyncStatus, isOnline in Ht1. simpl in Ht1. rewrite Hcs in Ht1.
  destruct (push_success pushResult && pull_success pullResult).
  - exists (ev1 ++ ev2)%list, None.
    simpl. unfold getSyncStatus, isOnline. simpl.
    rewrite B5, A5, B6, A6, B7, A7, B8, A8, Ht2, Ht1, Hcs.
    split; [now rewrite <- !List.app_assoc|].
    split; [now rewrite List.forallb_app, Hp1, Hp2|].
    repeat (split; [reflexivity|]).
    split; [intros _; repeat split|discriminate].
  - exists (ev1 ++ ev2)%list, (Some (syncErrorMsg pushResult pullResult)).
    unfold setSyncState, bind, modify, notifySyncComplete, notifyStatusListeners, emit, modify.
    simpl.
    destruct (truthy (syncErrorMsg pushResult pullResult)) eqn:Etruthy;
      simpl; unfold getSyncStatus, isOnline; simpl;
      rewrite ?B5, ?A5, ?B6, ?A6, ?B7, ?A7, ?B8, ?A8, ?B2, ?A2, ?B3, ?A3, Ht2, Ht1, ?Hcs;
      (split; [now rewrite <- !List.app_assoc|]);
      (split; [now rewrite List.forallb_app, Hp1, Hp2|]);
      repeat (split; [reflexivity|]);
      (split; [discriminate|]);
      intros _; exists (syncErrorMsg pushResult pullResult); rewrite Etruthy;
      repeat split.
Qed.

(** The verdict of an accepted cycle and the error it leaves. *)
Lemma sync_accepted_verdict w :
  isSyncInProgress w = false ->
  isOnline w = true ->
  let pushResult := fst (pushChanges (snd (syncBegin w))) in
  let pullResult := fst (pullChanges (snd (pushChanges (snd (syncBegin w))))) in
  let message := syncErrorMsg pushResult pullResult in
  fst (sync w) = push_success pushResult && pull_success pullResult /\
  (fst (sync w) = false ->
   lastError (snd (sync w)) = if truthy message then Some message else lastError w).
Proof.
  intros Hflag Hon. cbv zeta.
  assert (lastError (snd (pullChanges (snd (pushChanges (snd (syncBegin w))))))
          = lastError w) as Hkept.
  { destruct (pullChanges_same_engine (snd (pushChanges (snd (syncBegin w)))))
      as (_ & _ & -> & _).
    destruct (pushChanges_same_engine (snd (syncBegin w))) as (_ & _ & -> & _).
    reflexivity. }
  unfold sync, bind, gets. rewrite Hflag, Hon. cbn [negb].
  destruct (syncBegin w) as [[] w0]. cbn [snd] in *.
  unfold syncCycle, bind.
  destruct (pushChanges w0) as [pushResult w1]. cbn [fst snd] in *.
  destruct (pullChanges w1) as [pullResult w2]. cbn [fst snd] in *.
  destruct (push_success pushResult && pull_success pullResult); simpl.
  - split; [reflexivity|discriminate].
  - unfold setSyncState, bind, modify, notifySyncComplete, notifyStatusListeners, emit, modify.
    simpl. destruct (truthy (syncErrorMsg pushResult pullResult)); simpl;
      (split; [reflexivity|intros _]); [reflexivity|exact Hkept].
Qed.

(** X16: where an accepted cycle ends.  A call of [sync] made online and
    with no cycle in progress returns [true] exactly when both phases
    succeeded, releases the in-progress flag and leaves the listeners, the
    connectivity and the clock alone.  When it returns [true] the state is
    [idle], the last error is cleared and [lastSyncTime] is the time of the
    cycle; when it returns [false] the state is [error], [lastSyncTime] is
    unchanged and the last error is the aggregated message of the two
    phases, unless that message is empty, in which case the previous last
    error is kept. *)
Theorem accepted_cycle_ends_idle_or_in_error :
  forall w,
    isSyncInProgress w = false ->
    isOnline w = true ->
    let pushResult := fst (pushChanges (snd (syncBegin w))) in
    let pullResult := fst (pullChanges (snd (pushChanges (snd (syncBegin w))))) in
    let message := syncErrorMsg pushResult pullResult in
    fst (sync w) = push_success pushResult && pull_success pullResult /\
    isSyncInProgress (snd (sync w)) = false /\
    statusListeners (snd (sync w)) = statusListeners w /\
    completeListeners (snd (sync w)) = completeListeners w /\
    currentStatus (snd (sync w)) = currentStatus w /\
    w_clock (snd (sync w)) = w_clock w /\
    (fst (sync w) = true ->
     syncState (snd (sync w)) = idle /\ lastError (snd (sync w)) = None /\
     lastSyncTime (snd (sync w)) = Some (w_clock w)) /\
    (fst (sync w) = false ->
     syncState (snd (sync w)) = error /\
     lastSyncTime (snd (sync w)) = lastSyncTime w /\
     lastError (snd (sync w)) = if truthy message then Some message else lastError w).
Proof.
  intros w Hflag Hon pushResult pullResult message.
  destruct (sync_accepted_shape w Hflag Hon)
    as (net & err & _ & _ & Hf & Hl & Hc & Hn & Hk & Hok & Hko).
  destruct (sync_accepted_verdict w Hflag Hon) as [Hverdict Herror].
  split; [exact Hverdict|].
  repeat (split; [assumption|]). split.
  - intros Hres. destruct (Hok Hres) as (_ & ? & ? & ?). auto.
  - intros Hres. destruct (Hko Hres) as (msg & _ & Hst & Hts & _).
    split; [exact Hst|]. split; [exact Hts|]. exact (Herror Hres).
Qed.

(** X17: what the observers of an accepted cycle see, in order: every
    status listener receives the [syncing] status; the only events until the
    cycle's verdict are network calls; then every status listener receives
    the final status, every completion listener receives the verdict exactly
    once, and every status listener receives the final status again.  The
    status delivered last is the engine's current status. *)
Theorem accepted_cycle_notifies_in_order :
  forall w,
    isSyncInProgress w = false ->
    isOnline w = true ->
    exists net err,
      w_trace (snd (sync w))
      = (w_trace w
         ++ List.map (fun l => EvStatus l (mkSyncStatus syncing (lastSyncTime w)
                                             (getPendingChangesCount (w_db w))
                                             (lastError w) true))
                     (statusListeners w)
         ++ net
         ++ List.map (fun l => EvStatus l (getSyncStatus (snd (sync w)))) (statusListeners w)
         ++ List.map (fun l => EvComplete l (fst (sync w)) err) (completeListeners w)
         ++ List.map (fun l => EvStatus l (getSyncStatus (snd (sync w))))
                     (statusListeners w))%list /\
      List.forallb is_network_call net = true /\
      (fst (sync w) = true -> err = None) /\
      (fst (sync w) = false -> exists msg, err = Some msg).
Proof.
  intros w Hflag Hon.
  destruct (sync_accepted_shape w Hflag Hon)
    as (net & err & Ht & Hp & _ & _ & _ & _ & _ & Hok & Hko).
  exists net, err. split; [exact Ht|]. split; [exact Hp|]. split.
  - intros Hres. now destruct (Hok Hres).
  - intros Hres. destruct (Hko Hres) as (msg & Herr & _). eauto.
Qed.

(** X18: the push and the pull phase never touch the engine's own variables:
    the sync state, [lastSyncTime], the last error, the in-progress flag, the
    two listener sets, the connectivity and the clock are after either phase
    what they were before it. *)
Theorem push_and_pull_leave_the_engine_variables :
  forall w,
    same_engine w (snd (pushChanges w)) /\
    same_engine w (snd (pullChanges w)) /\
    getSyncStatus (snd (pullChanges w))
    = mkSyncStatus (syncState w) (lastSyncTime w)
                   (getPendingChangesCount (w_db (snd (pullChanges w))))
                   (lastError w) (isOnline w).
Proof.
  intros w. pose proof (pullChanges_same_engine w) as Hs.
  split; [apply pushChanges_same_engine|]. split; [exact Hs|].
  destruct Hs as (H1 & H2 & H3 & _ & _ & _ & H7 & _).
  unfold getSyncStatus, isOnline. now rewrite H1, H2, H3, H7.
Qed.

End CycleFacts.

Lemma accepted_cycle_ends_idle_or_in_error_witness :
  isSyncInProgress (snd (sync unreachable_world)) = false /\
  syncState (snd (sync unreachable_world)) = error /\
  syncState (snd (sync (start_world (listing_service []) created_store))) = idle.
Proof.
  pose proof (accepted_cycle_ends_idle_or_in_error unreachable_world eq_refl eq_refl)
    as Hfailed.
  pose proof (accepted_cycle_ends_idle_or_in_error
                (start_world (listing_service []) created_store) eq_refl eq_refl)
    as Hdone.
  cbv zeta in Hfailed, Hdone.
  destruct Hfailed as (_ & Hflag & _ & _ & _ & _ & _ & Hko).
  destruct Hdone as (_ & _ & _ & _ & _ & _ & Hok & _).
  split; [exact Hflag|]. split.
  - apply Hko. vm_compute. reflexivity.
  - apply Hok. vm_compute. reflexivity.
Defined.

Lemma accepted_cycle_notifies_in_order_witness :
  exists net err,
    w_trace (snd (sync unreachable_world))
    = ([EvStatus 1 (mkSyncStatus syncing None 1 None true)]
       ++ net
       ++ [EvStatus 1 (getSyncStatus (snd (sync unreachable_world)))]
       ++ [EvComplete 2 false err]
       ++ [EvStatus 1 (getSyncStatus (snd (sync unreachable_world)))])%list.
Proof.
  destruct (accepted_cycle_notifies_in_order unreachable_world eq_refl eq_refl)
    as (net & err & Ht & _).
  exists net, err. refine (eq_trans Ht _).
  assert (fst (sync unreachable_world) = false) as -> by (vm_compute; reflexivity).
  reflexivity.
Defined.

(** ** Attempts of the retry wrapper *)

Section AttemptFacts.

Context {S : Type} `{RemoteService S}.
Variables RETRY_DELAY_MS ERROR_BACKOFF_MS : Z.

Implicit Types w : World S.

(** X19: the two ends of the retry wrapper.  With [maxAttempts] zero or
    negative, [syncWithRetry] makes no attempt at all: it only logs that it
    gives up and returns [false].  [syncNow] is one attempt and never
    sleeps: it returns what [sync] returns, and the only thing it adds to
    what [sync] did is the give-up message after a failure. *)
Theorem syncWithRetry_without_retry :
  forall w,
    (forall maxAttempts,
        maxAttempts <= 0 ->
        syncWithRetry RETRY_DELAY_MS ERROR_BACKOFF_MS maxAttempts w
        = (false, with_trace (fun t => (t ++ [EvGiveUpLog maxAttempts None])%list) w)) /\
    syncNow RETRY_DELAY_MS ERROR_BACKOFF_MS w
    = (if fst (sync w) then (true, snd (sync w))
       else (false,
             with_trace (fun t => (t ++ [EvGiveUpLog 1 (lastError (snd (sync w)))])%list)
                        (snd (sync w)))).
Proof.
  intros w. split.
  - intros maxAttempts Hmax. unfold syncWithRetry.
    replace (Z.to_nat maxAttempts) with O by lia. reflexivity.
  - unfold syncNow, syncWithRetry. change (Z.to_nat 1) with 1%nat.
    rewrite retryLoop_iteration by lia.
    destruct (fst (sync w)); reflexivity.
Qed.

End AttemptFacts.

Lemma syncWithRetry_without_retry_witness :
  syncWithRetry 500 9000 0 unreachable_world
  = (false, with_trace (fun t => (t ++ [EvGiveUpLog 0 None])%list) unreachable_world).
Proof.
  destruct (syncWithRetry_without_retry 500 9000 unreachable_world) as [Hnone _].
  apply Hnone. lia.
Defined.

(** ** What a successful cycle leaves to push *)

Section CleanCycle.

Context {S : Type} `{RemoteService S}.

Implicit Types w : World S.

Lemma for_each_errors_grow {A} (body : list string -> A -> M S (list string)) xs :
  (forall e x w, exists more, fst (body e x w) = (e ++ more)%list) ->
  forall e w, exists more, fst (for_each body xs e w) = (e ++ more)%list.
Proof.
  intros Hbody. induction xs as [|x xs IH]; intros e w; simpl.
  - exists []. now rewrite List.app_nil_r.
  - unfold bind. destruct (Hbody e x w) as (m1 & H1).
    destruct (body e x w) as [e1 w1]. simpl in H1. subst e1.
    destruct (IH (e ++ m1)%list w1) as (m2 & H2). exists (m1 ++ m2)%list.
    now rewrite H2, List.app_assoc.
Qed.

Lemma pushCreatedTask_errors_grow e t w :
  exists more, fst (pushCreatedTask e t w) = (e ++ more)%list.
Proof.
  rewrite pushCreatedTask_spec. cbv zeta.
  destruct (fst (api_createTask _ _)); [exists []; simpl; now rewrite List.app_nil_r|eauto].
Qed.

Lemma pushModifiedTask_errors_grow e t w :
  exists more, fst (pushModifiedTask e t w) = (e ++ more)%list.
Proof.
  rewrite pushModifiedTask_spec. cbv zeta.
  destruct (fst (api_updateTask _ _ _)) as [u|err];
    [exists []; simpl; now rewrite List.app_nil_r|].
  destruct err; simpl; eauto. exists []. now rewrite List.app_nil_r.
Qed.

Lemma pushDeletedTask_errors_grow e t w :
  exists more, fst (pushDeletedTask e t w) = (e ++ more)%list.
Proof.
  rewrite pushDeletedTask_spec. cbv zeta.
  destruct (fst (api_deleteTask _ _)) as [u|err];
    [exists []; simpl; now rewrite List.app_nil_r|].
  destruct (is_not_found err); simpl; eauto. exists []. now rewrite List.app_nil_r.
Qed.

Lemma grown_nil (e more : list string) : (e ++ more)%list = [] -> e = [].
Proof. destruct e; [reflexivity|discriminate]. Qed.

Lemma created_loop_cleared tasks errors w :
  cleared_from (w_db w) (w_db (snd (for_each pushCreatedTask tasks errors w))).
Proof.
  apply (for_each_preserves (fun w' => cleared_from (w_db w) (w_db w')));
    [|apply cleared_from_refl].
  intros e t w' _ Hc.
  destruct (pushCreatedTask_db e t w') as [->|[ts ->]]; [exact Hc|].
  now apply cleared_from_markTaskAsSynced.
Qed.

(** With no error at its end, the loop over the created batch has cleared
    [locallyCreated] on every record of the batch. *)
Lemma created_loop_clean tasks :
  forall errors w,
    fst (for_each pushCreatedTask tasks errors w) = [] ->
    forall r', List.In r' (w_db (snd (for_each pushCreatedTask tasks errors w))) ->
               List.In (row_id r') (List.map task_id tasks) ->
               row_locallyCreated r' = 0.
Proof.
  induction tasks as [|t tasks IH]; intros errors w Hnil r' Hin Hid; [contradiction|].
  simpl in *. unfold bind in *.
  pose proof (pushCreatedTask_spec errors t w) as Hspec. cbv zeta in Hspec.
  destruct (pushCreatedTask errors t w) as [e1 w1].
  destruct (for_each_errors_grow pushCreatedTask tasks pushCreatedTask_errors_grow e1 w1)
    as (more & Hgrow).
  assert (e1 = []) as -> by (rewrite Hgrow in Hnil; now apply grown_nil in Hnil).
  destruct Hid as [Hid|Hid]; [|now apply (IH [] w1)].
  destruct (fst (api_createTask (createPayload t) (w_remote w))) as [serverTask|e].
  - injection Hspec as _ ->.
    destruct (created_loop_cleared tasks [] _ r' Hin) as (r1 & Hin1 & Hid1 & _ & Hcase).
    simpl in Hin1. apply in_update_where_id in Hin1 as (r & _ & ->).
    destruct (has_id (task_id t) r) eqn:E.
    + destruct Hcase as [->|[Hz _]]; [reflexivity|exact Hz].
    + apply has_id_false in E. congruence.
  - injection Hspec as Herr _. symmetry in Herr. now apply List.app_eq_nil in Herr as [_ ?].
Qed.

Lemma none_created_after_created_loop w :
  fst (for_each pushCreatedTask (getLocallyCreatedTasks (w_db w)) [] w) = [] ->
  none_created (w_db (snd (for_each pushCreatedTask (getLocallyCreatedTasks (w_db w)) [] w))).
Proof.
  intros Hnil r' Hin.
  destruct (created_cond r') eqn:Hc; [|reflexivity]. exfalso.
  pose proof Hc as Hc'. unfold created_cond in Hc'. apply andb_prop in Hc' as [Hc1 _].
  apply Z.eqb_eq in Hc1.
  destruct (created_loop_cleared _ [] w r' Hin) as (r & Hin0 & Hid & _ & Hcase).
  destruct Hcase as [->|[Hz _]]; [|lia].
  assert (row_locallyCreated r = 0); [|lia].
  apply (created_loop_clean _ [] w Hnil r Hin).
  unfold getLocallyCreatedTasks, select_where. rewrite task_ids_of_rows.
  apply List.in_map. now apply List.filter_In.
Qed.

Lemma none_created_push_write db op :
  push_write op = true -> none_created db -> none_created (apply_op db op).
Proof.
  destruct op; try discriminate; simpl; intros _ Hnone r' Hin.
  - apply in_update_where_id in Hin as (r & Hin & ->).
    destruct (has_id id r); [destruct serverTask; reflexivity|now apply Hnone].
  - unfold upsertTaskFromServer, insert_or_replace in Hin.
    apply List.in_app_or in Hin as [Hin|[<-|[]]]; [|reflexivity].
    apply in_delete_where_id in Hin as [Hin _]. now apply Hnone.
  - apply in_update_where_id in Hin as (r & Hin & ->).
    destruct (has_id id r); [|now apply Hnone].
    specialize (Hnone r Hin). exact Hnone.
Qed.

Lemma none_deleted_push_write db op :
  push_write op = true -> none_deleted db -> none_deleted (apply_op db op).
Proof.
  destruct op; try discriminate; simpl; intros _ Hnone r' Hin.
  - apply in_update_where_id in Hin as (r & Hin & ->).
    specialize (Hnone r Hin).
    destruct (has_id id r); [destruct serverTask; exact Hnone|exact Hnone].
  - unfold upsertTaskFromServer, insert_or_replace in Hin.
    apply List.in_app_or in Hin as [Hin|[<-|[]]]; [|reflexivity].
    apply in_delete_where_id in Hin as [Hin _]. now apply Hnone.
  - apply in_update_where_id in Hin as (r & Hin & ->).
    specialize (Hnone r Hin). destruct (has_id id r); exact Hnone.
Qed.

Lemma none_created_delete id db : none_created db -> none_created (delete_where_id id db).
Proof. intros Hnone r Hin. apply in_delete_where_id in Hin as [Hin _]. now apply Hnone. Qed.

Lemma none_deleted_delete id db : none_deleted db -> none_deleted (delete_where_id id db).
Proof. intros Hnone r Hin. apply in_delete_where_id in Hin as [Hin _]. now apply Hnone. Qed.

Lemma pushDeletedTask_db errors t w :
  w_db (snd (pushDeletedTask errors t w)) = w_db w \/
  w_db (snd (pushDeletedTask errors t w)) = delete_where_id (task_id t) (w_db w).
Proof.
  rewrite pushDeletedTask_spec. cbv zeta.
  destruct (fst (api_deleteTask _ _)) as [u|err]; [right; reflexivity|].
  destruct (is_not_found err); [right|left]; reflexivity.
Qed.

Lemma modified_loop_keeps (P : DB -> Prop) tasks errors w :
  (forall db op, push_write op = true -> P db -> P (apply_op db op)) ->
  P (w_db w) -> P (w_db (snd (for_each pushModifiedTask tasks errors w))).
Proof.
  intros Hop. apply (for_each_preserves (fun w' => P (w_db w'))).
  intros e t w' _ Hp.
  destruct (pushModifiedTask_db e t w') as [->|(op & Hw & ->)]; auto.
Qed.

Lemma deleted_loop_keeps (P : DB -> Prop) tasks errors w :
  (forall db id, P db -> P (delete_where_id id db)) ->
  P (w_db w) -> P (w_db (snd (for_each pushDeletedTask tasks errors w))).
Proof.
  intros Hdel. apply (for_each_preserves (fun w' => P (w_db w'))).
  intros e t w' _ Hp.
  destruct (pushDeletedTask_db e t w') as [->| ->]; auto.
Qed.

Lemma pullChanges_keeps (P : DB -> Prop) w :
  (forall db op, push_write op = true -> P db -> P (apply_op db op)) ->
  (forall db id, P db -> P (delete_where_id id db)) ->
  P (w_db w) -> P (w_db (snd (pullChanges w))).
Proof.
  intros Hop Hdel Hp. unfold pullChanges, bind. rewrite call_spec.
  destruct (fst (api_fetchTasks (w_remote w))) as [serverTasks|e]; [|exact Hp].
  match goal with
  | |- context [pullReconcile serverTasks ?w1] =>
      assert (P (w_db (snd (pullReconcile serverTasks w1)))) as Hrec;
      [|destruct (pullReconcile serverTasks w1) as [[] w2]; exact Hrec]
  end.
  unfold pullReconcile, bind, gets. rewrite pull_guard_true. simpl.
  match goal with
  | |- context [for_each (pullUpsert ?ids) serverTasks tt ?w1] =>
      assert (P (w_db (snd (for_each (pullUpsert ids) serverTasks tt w1)))) as Hup;
      [|destruct (for_each (pullUpsert ids) serverTasks tt w1) as [[] w2]]
  end.
  - apply (for_each_preserves (fun w' => P (w_db w'))); [|exact Hp].
    intros [] a w' _ Hw'. unfold pullUpsert. destruct (set_has _ _); [exact Hw'|].
    apply (Hop _ (OpUpsertTaskFromServer (upsertArg a)) eq_refl Hw').
  - apply (for_each_preserves (fun w' => P (w_db w'))); [|exact Hup].
    intros [] t w' _ Hw'. unfold pullRemove. destruct (negb _); [|exact Hw'].
    now apply Hdel.
Qed.

(** With no error at its end, the loop over the deleted batch has removed
    every record of the batch and written nothing else. *)
Lemma deleted_loop_clean tasks :
  forall errors w,
    fst (for_each pushDeletedTask tasks errors w) = [] ->
    forall r', List.In r' (w_db (snd (for_each pushDeletedTask tasks errors w))) ->
               List.In r' (w_db w) /\ ~ List.In (row_id r') (List.map task_id tasks).
Proof.
  induction tasks as [|t tasks IH]; intros errors w Hnil r' Hin; [simpl in *; auto|].
  simpl in *. unfold bind in *.
  pose proof (pushDeletedTask_spec errors t w) as Hspec. cbv zeta in Hspec.
  destruct (pushDeletedTask errors t w) as [e1 w1].
  destruct (for_each_errors_grow pushDeletedTask tasks pushDeletedTask_errors_grow e1 w1)
    as (more & Hgrow).
  assert (e1 = []) as -> by (rewrite Hgrow in Hnil; now apply grown_nil in Hnil).
  destruct (IH [] w1 Hnil r' Hin) as [Hin1 Hnot].
  assert (w_db w1 = delete_where_id (task_id t) (w_db w)) as Hdb.
  { destruct (fst (api_deleteTask (task_id t) (w_remote w))) as [u|e].
    - now injection Hspec as _ ->.
    - destruct (is_not_found e).
      + now injection Hspec as _ ->.
      + injection Hspec as Herr _. symmetry in Herr.
        now apply List.app_eq_nil in Herr as [_ ?]. }
  rewrite Hdb in Hin1. apply in_delete_where_id in Hin1 as [Hin0 Hne].
  split; [exact Hin0|]. intros [Heq|Hrest]; [congruence|contradiction].
Qed.

Lemma none_deleted_after_deleted_loop errors w :
  fst (for_each pushDeletedTask (getLocallyDeletedTasks (w_db w)) errors w) = [] ->
  none_deleted
    (w_db (snd (for_each pushDeletedTask (getLocallyDeletedTasks (w_db w)) errors w))).
Proof.
  intros Hnil r' Hin. destruct (deleted_cond r') eqn:Hd; [|reflexivity]. exfalso.
  destruct (deleted_loop_clean _ errors w Hnil r' Hin) as [Hin0 Hnot]. apply Hnot.
  unfold getLocallyDeletedTasks, select_where. rewrite task_ids_of_rows.
  apply List.in_map. now apply List.filter_In.
Qed.

Lemma filter_none {A} (p : A -> bool) l :
  (forall x, List.In x l -> p x = false) -> List.filter p l = [].
Proof.
  induction l as [|x l IH]; simpl; intros Hall; [reflexivity|].
  rewrite (Hall x (or_introl eq_refl)). apply IH. intros y Hy. apply Hall. now right.
Qed.

Lemma push_success_no_errors w :
  push_success (fst (pushChanges w)) = true -> push_errors (fst (pushChanges w)) = [].
Proof.
  unfold pushChanges, bind, gets. simpl.
  destruct (for_each pushCreatedTask _ [] w) as [e1 w1]. simpl.
  destruct (for_each pushModifiedTask _ e1 w1) as [e2 w2]. simpl.
  destruct (for_each pushDeletedTask _ e2 w2) as [e3 w3]. simpl.
  destruct e3; [reflexivity|discriminate].
Qed.

(** After a push phase that recorded no error, and the pull phase that
    follows it, the two batches are empty. *)
Lemma clean_push_then_pull w :
  push_errors (fst (pushChanges w)) = [] ->
  none_created (w_db (snd (pullChanges (snd (pushChanges w))))) /\
  none_deleted (w_db (snd (pullChanges (snd (pushChanges w))))).
Proof.
  intros Hnil. destruct (pushChanges_batches w) as [Herr Hw]. cbv zeta in Herr, Hw.
  rewrite Herr in Hnil. rewrite Hw. clear Herr Hw.
  set (p1 := for_each pushCreatedTask (getLocallyCreatedTasks (w_db w)) [] w) in *.
  set (p2 := for_each pushModifiedTask (getLocallyModifiedTasks (w_db (snd p1)))
                      (fst p1) (snd p1)) in *.
  set (p3 := for_each pushDeletedTask (getLocallyDeletedTasks (w_db (snd p2)))
                      (fst p2) (snd p2)) in *.
  assert (fst p2 = []) as H2.
  { destruct (for_each_errors_grow pushDeletedTask
                                   (getLocallyDeletedTasks (w_db (snd p2)))
                                   pushDeletedTask_errors_grow
                                   (fst p2) (snd p2)) as (more & Hg).
    fold p3 in Hg. rewrite Hg in Hnil. now apply grown_nil in Hnil. }
  assert (fst p1 = []) as H1.
  { destruct (for_each_errors_grow pushModifiedTask
                                   (getLocallyModifiedTasks (w_db (snd p1)))
                                   pushModifiedTask_errors_grow
                                   (fst p1) (snd p1)) as (more & Hg).
    fold p2 in Hg. rewrite Hg in H2. now apply grown_nil in H2. }
  assert (none_created (w_db (snd p1))) as C1 by now apply none_created_after_created_loop.
  assert (none_created (w_db (snd p2))) as C2
    by (apply modified_loop_keeps; [apply none_created_push_write|exact C1]).
  assert (none_created (w_db (snd p3))) as C3
    by (apply deleted_loop_keeps; [intros; now apply none_created_delete|exact C2]).
  assert (none_deleted (w_db (snd p3))) as D3 by now apply none_deleted_after_deleted_loop.
  split.
  - apply pullChanges_keeps;
      [apply none_created_push_write|intros; now apply none_created_delete|exact C3].
  - apply pullChanges_keeps;
      [apply none_deleted_push_write|intros; now apply none_deleted_delete|exact D3].
Qed.


End CleanCycle.


(** ** What the pull phase makes of the fetched list *)

Section PullMirror.

Context {S : Type} `{RemoteService S}.

Implicit Types w : World S.

(** The [Map] built from the fetched list answers with the last entry of
    the list that has the key. *)
Lemma fold_insert_lookup serverTasks id :
  forall m : gmap string ApiTask,
    List.fold_left (fun m t => <[api_id t := t]> m) serverTasks m !! id
    = match latest_server_version id serverTasks with
      | Some a => Some a
      | None => m !! id
      end.
Proof.
  induction serverTasks as [|a rest IH]; intros m; simpl; [reflexivity|].
  rewrite IH. destruct (latest_server_version id rest); [reflexivity|].
  destruct (String.eqb (api_id a) id) eqn:E.
  - apply String.eqb_eq in E. subst id. apply lookup_insert_eq.
  - apply String.eqb_neq in E. now apply lookup_insert_ne.
Qed.

Lemma serverTaskMap_lookup serverTasks id :
  serverTaskMap serverTasks !! id = latest_server_version id serverTasks.
Proof.
  unfold serverTaskMap. rewrite fold_insert_lookup.
  destruct (latest_server_version id serverTasks); [reflexivity|apply lookup_empty].
Qed.

Lemma latest_server_version_id id serverTasks a :
  latest_server_version id serverTasks = Some a -> api_id a = id.
Proof.
  induction serverTasks as [|b rest IH]; simpl; [discriminate|].
  destruct (latest_server_version id rest); [exact IH|].
  destruct (String.eqb (api_id b) id) eqn:E; [|discriminate].
  intros [= <-]. now apply String.eqb_eq.
Qed.

(** The upsert loop, seen from an id outside the pending set. *)
Lemma upsert_loop_find ids id serverTasks :
  set_has ids id = false ->
  forall w,
    List.find (has_id id) (w_db (snd (for_each (pullUpsert ids) serverTasks tt w)))
    = match latest_server_version id serverTasks with
      | Some a => Some (mkRow (api_id a) (api_title a) (api_description a) (api_status a)
                              (api_lastUpdatedAt a) (Some (api_lastUpdatedAt a))
                              "synced" 0 0 0)
      | None => List.find (has_id id) (w_db w)
      end.
Proof.
  intros Hid. induction serverTasks as [|a rest IH]; intros w; simpl; [reflexivity|].
  unfold bind. destruct (pullUpsert ids tt a w) as [[] w1] eqn:Hstep.
  rewrite IH. destruct (latest_server_version id rest); [reflexivity|].
  assert (w1 = snd (pullUpsert ids tt a w)) as -> by now rewrite Hstep.
  unfold pullUpsert. destruct (String.eqb (api_id a) id) eqn:E.
  - apply String.eqb_eq in E. subst id. rewrite Hid. simpl.
    unfold upsertTaskFromServer, insert_or_replace. simpl.
    apply find_snoc_same; [reflexivity|]. apply find_delete_same.
  - apply String.eqb_neq in E.
    destruct (set_has ids (api_id a)); [reflexivity|]. simpl.
    apply (find_apply_op_other (w_db w) (OpUpsertTaskFromServer (upsertArg a))).
    simpl. congruence.
Qed.

(** The removal loop leaves the ids the server lists. *)
Lemma remove_loop_listed serverMap id tasks :
  map_has serverMap id = true ->
  forall w,
    List.find (has_id id) (w_db (snd (for_each (pullRemove serverMap) tasks tt w)))
    = List.find (has_id id) (w_db w).
Proof.
  intros Hhas w.
  apply (for_each_preserves
           (fun w' => List.find (has_id id) (w_db w') = List.find (has_id id) (w_db w)));
    [|reflexivity].
  intros [] t w' _ Hw'. unfold pullRemove.
  destruct (map_has serverMap (task_id t)) eqn:E; simpl; [exact Hw'|].
  unfold removeSyncedDeletedTask. rewrite find_delete_other; [exact Hw'|].
  intros ->. congruence.
Qed.

(** It never adds a record. *)
Lemma remove_loop_absent serverMap id tasks :
  forall w,
    List.find (has_id id) (w_db w) = None ->
    List.find (has_id id) (w_db (snd (for_each (pullRemove serverMap) tasks tt w))) = None.
Proof.
  intros w Hw.
  apply (for_each_preserves (fun w' => List.find (has_id id) (w_db w') = None));
    [|exact Hw].
  intros [] t w' _ Hw'. unfold pullRemove.
  destruct (map_has serverMap (task_id t)); simpl; [exact Hw'|].
  unfold removeSyncedDeletedTask.
  destruct (String.eqb (task_id t) id) eqn:E.
  - apply String.eqb_eq in E. rewrite E. apply find_delete_same.
  - apply String.eqb_neq in E. rewrite find_delete_other by congruence. exact Hw'.
Qed.

(** It removes every record of its list that the server does not list. *)
Lemma remove_loop_unlisted serverMap id tasks :
  map_has serverMap id = false ->
  List.In id (List.map task_id tasks) ->
  forall w,
    List.find (has_id id) (w_db (snd (for_each (pullRemove serverMap) tasks tt w))) = None.
Proof.
  intros Hhas. induction tasks as [|t tasks IH]; intros Hin w; [contradiction|].
  simpl. unfold bind. destruct (pullRemove serverMap tt t w) as [[] w1] eqn:Hstep.
  destruct (String.eqb (task_id t) id) eqn:E.
  - apply String.eqb_eq in E. apply remove_loop_absent.
    assert (w1 = snd (pullRemove serverMap tt t w)) as -> by now rewrite Hstep.
    unfold pullRemove. rewrite E, Hhas. simpl. apply find_delete_same.
  - apply String.eqb_neq in E. destruct Hin as [Hin|Hin]; [contradiction|].
    now apply IH.
Qed.

(** A well-formed record outside the pending set is one of the synced local
    tasks the removal loop goes through. *)
Lemma settled_row_is_synced_local db r :
  List.In r db ->
  is_flag (row_locallyDeleted r) ->
  set_has (localPendingIds db) (row_id r) = false ->
  List.In (rowToTask r)
    (List.filter (fun task => negb (set_has (localPendingIds db) (task_id task))
                              && negb (task_locallyCreated task))
                 (getAllTasks db)).
Proof.
  intros Hin Hflag Hout.
  assert (pending_cond r = false) as Hp.
  { destruct (pending_cond r) eqn:E; [|reflexivity].
    pose proof (pending_row_protected db r Hin E) as Hprot.
    unfold protected in Hprot. congruence. }
  unfold pending_cond, created_cond, modified_cond, deleted_cond in Hp.
  assert (row_locallyDeleted r = 0) as Hd.
  { destruct Hflag as [Hz|Ho]; [exact Hz|]. rewrite Ho in Hp. simpl in Hp.
    now rewrite !Bool.orb_true_r in Hp. }
  rewrite Hd in Hp. simpl in Hp. rewrite !Bool.andb_true_r, Bool.orb_false_r in Hp.
  apply Bool.orb_false_iff in Hp as [Hc _].
  apply List.filter_In. split.
  - apply in_getAllTasks. eauto.
  - simpl. now rewrite Hout, Hc.
Qed.

Lemma pullReconcile_find serverTasks w id :
  List.Forall (fun r => is_flag (row_locallyDeleted r)) (w_db w) ->
  set_has (localPendingIds (w_db w)) id = false ->
  List.find (has_id id) (w_db (snd (pullReconcile serverTasks w)))
  = match latest_server_version id serverTasks with
    | Some a => Some (mkRow (api_id a) (api_title a) (api_description a) (api_status a)
                            (api_lastUpdatedAt a) (Some (api_lastUpdatedAt a))
                            "synced" 0 0 0)
    | None => None
    end.
Proof.
  intros Hwf Hout. unfold pullReconcile, bind, gets. rewrite pull_guard_true.
  pose proof (upsert_loop_find _ id serverTasks Hout w) as Hup.
  destruct (for_each (pullUpsert (localPendingIds (w_db w))) serverTasks tt w)
    as [[] w1]. simpl in Hup.
  pose proof (serverTaskMap_lookup serverTasks id) as Hmap.
  destruct (latest_server_version id serverTasks) as [a|] eqn:Hlatest.
  - rewrite remove_loop_listed; [exact Hup|]. unfold map_has. now rewrite Hmap.
  - assert (map_has (serverTaskMap serverTasks) id = false) as Hhas
      by (unfold map_has; now rewrite Hmap).
    destruct (List.find (has_id id) (w_db w)) as [r|] eqn:Hfind.
    + apply List.find_some in Hfind as [Hin Hr]. apply has_id_true in Hr. subst id.
      apply remove_loop_unlisted; [exact Hhas|].
      change (row_id r) with (task_id (rowToTask r)).
      apply List.in_map.
      apply settled_row_is_synced_local; [exact Hin| |exact Hout].
      rewrite List.Forall_forall in Hwf. now apply Hwf.
    + now apply remove_loop_absent.
Qed.

(** X21: after a fetch that succeeds, the pull phase has made the store
    mirror the fetched list on every id that carries no pending local
    change when the phase starts: reading such an id gives the synced copy
    of the last entry of the list with that id (a later duplicate replaces
    an earlier one), and gives nothing when the list has no entry with that
    id, the local record, if there was one, having been removed for good. *)
Theorem pull_mirrors_the_fetched_list :
  forall w serverTasks id,
    store_wf (w_db w) ->
    fst (api_fetchTasks (w_remote w)) = Returned serverTasks ->
    set_has (localPendingIds (w_db w)) id = false ->
    getTaskById (w_db (snd (pullChanges w))) id
    = option_map (fun a => server_task (upsertArg a))
                 (latest_server_version id serverTasks).
Proof.
  intros w serverTasks id [_ Hwf] Hfetch Hout.
  unfold pullChanges, bind. rewrite call_spec, Hfetch. cbv beta iota.
  match goal with
  | |- context [pullReconcile serverTasks ?w1] =>
      pose proof (pullReconcile_find serverTasks w1 id) as Hrec;
      destruct (pullReconcile serverTasks w1) as [[] w2]
  end.
  simpl in Hrec. unfold getTaskById. simpl. rewrite Hrec.
  - destruct (latest_server_version id serverTasks); reflexivity.
  - eapply List.Forall_impl; [|exact Hwf]. intros r Hr. apply Hr.
  - exact Hout.
Qed.

End PullMirror.

Lemma pull_mirrors_the_fetched_list_witness :
  getTaskById
    (w_db (snd (pullChanges (start_world (listing_service listed_twice) synced_store)))) "t1"
  = Some (mkTask "t1" "Buy rye bread" None "pending" 300 (Some 300) "synced"
                 false false false) /\
  getTaskById
    (w_db (snd (pullChanges (start_world (listing_service []) synced_store)))) "t1" = None.
Proof.
  assert (set_has (localPendingIds synced_store) "t1" = false) as Hout
    by (vm_compute; reflexivity).
  split.
  - exact (pull_mirrors_the_fetched_list
             (start_world (listing_service listed_twice) synced_store) listed_twice "t1"
             (run_ops_wf _) eq_refl Hout).
  - exact (pull_mirrors_the_fetched_list
             (start_world (listing_service []) synced_store) [] "t1"
             (run_ops_wf _) eq_refl Hout).
Defined.

(** * Properties of the ids, the network monitor and the HTTP client *)

(** ** Record ids *)

Lemma draw_range (random : Q) :
  (0 <= random < 1)%Q -> 0 <= Qfloor (random * inject_Z 16) < 16.
Proof.
  intros [Hlo Hhi]. split.
  - rewrite <- (Qfloor_Z 0). apply Qfloor_resp_le.
    change (inject_Z 0) with (0 * inject_Z 16)%Q.
    apply Qmult_le_compat_r; [exact Hlo|discriminate].
  - assert (inject_Z (Qfloor (random * inject_Z 16)) < inject_Z 16)%Q as Hlt.
    { eapply Qle_lt_trans; [apply Qfloor_le|].
      change (inject_Z 16) with (1 * inject_Z 16)%Q at 2.
      apply Qmult_lt_compat_r; [reflexivity|exact Hhi]. }
    now rewrite <- Zlt_Qlt in Hlt.
Qed.

Lemma sixteen_cases (P : Z -> Prop) :
  P 0 -> P 1 -> P 2 -> P 3 -> P 4 -> P 5 -> P 6 -> P 7 ->
  P 8 -> P 9 -> P 10 -> P 11 -> P 12 -> P 13 -> P 14 -> P 15 ->
  forall r, 0 <= r < 16 -> P r.
Proof.
  intros H0 H1 H2 H3 H4 H5 H6 H7 H8 H9 H10 H11 H12 H13 H14 H15 r Hr.
  assert (r = 0 \/ r = 1 \/ r = 2 \/ r = 3 \/ r = 4 \/ r = 5 \/ r = 6 \/ r = 7 \/
          r = 8 \/ r = 9 \/ r = 10 \/ r = 11 \/ r = 12 \/ r = 13 \/ r = 14 \/ r = 15)
    as Hcases by lia.
  repeat (destruct Hcases as [->|Hcases]; [assumption|]). now subst.
Qed.

(** The callback returns one character, of the kind the template asks for. *)
Lemma uuid_digit_x (random : Q) :
  (0 <= random < 1)%Q ->
  exists c, uuid_digit "x" random = String c EmptyString /\ is_hex c = true.
Proof.
  intros Hr. apply draw_range in Hr. unfold uuid_digit. cbv zeta.
  change (Ascii.eqb "x" "x") with true. cbv iota.
  revert Hr. generalize (Qfloor (random * inject_Z 16)).
  apply sixteen_cases; eexists; split; reflexivity.
Qed.

Lemma uuid_digit_y (random : Q) :
  (0 <= random < 1)%Q ->
  exists c, uuid_digit "y" random = String c EmptyString /\ is_variant c = true.
Proof.
  intros Hr. apply draw_range in Hr. unfold uuid_digit. cbv zeta.
  change (Ascii.eqb "y" "x") with false. cbv iota.
  revert Hr. generalize (Qfloor (random * inject_Z 16)).
  apply sixteen_cases; eexists; split; reflexivity.
Qed.

Lemma one_char_app (c : ascii) (s : string) : String c EmptyString +:+ s = String c s.
Proof. reflexivity. Qed.

Lemma replace_xy_fits (random : nat -> Q) :
  (forall k, (0 <= random k < 1)%Q) ->
  forall template k, fits template (replace_xy uuid_digit template random k) = true.
Proof.
  intros Hr. induction template as [|c rest IH]; intros k; [reflexivity|].
  cbn [replace_xy fits].
  destruct (Ascii.eqb c "x") eqn:Ex.
  - apply Ascii.eqb_eq in Ex. subst c. cbn [orb].
    destruct (uuid_digit_x (random k) (Hr k)) as (d & -> & Hd).
    rewrite one_char_app. cbn [fits]. change (Ascii.eqb "x" "x") with true. cbv iota.
    now rewrite Hd, IH.
  - destruct (Ascii.eqb c "y") eqn:Ey; cbn [orb].
    + apply Ascii.eqb_eq in Ey. subst c.
      destruct (uuid_digit_y (random k) (Hr k)) as (d & -> & Hd).
      rewrite one_char_app. cbn [fits]. change (Ascii.eqb "y" "x") with false.
      change (Ascii.eqb "y" "y") with true. cbv iota.
      now rewrite Hd, IH.
    + now rewrite Ascii.eqb_refl, IH.
Qed.

Lemma fits_length template :
  forall s, fits template s = true -> String.length s = String.length template.
Proof.
  induction template as [|t template IH]; intros [|c s]; simpl; try discriminate;
    [reflexivity|].
  intros Hf. apply andb_prop in Hf as [_ Hf]. now rewrite (IH s Hf).
Qed.

(** X22: whatever [Math.random()] returns, within its range, [generateUUID]
    returns a string of the version-4 shape: 36 characters, hyphens after
    the 8th, 13th, 18th and 23rd, the digit [4] opening the third group, one
    of [8 9 a b] opening the fourth, and lower-case hexadecimal digits
    everywhere else. *)
Theorem generateUUID_has_the_v4_shape :
  forall random : nat -> Q,
    (forall k, (0 <= random k < 1)%Q) ->
    fits uuid_template (generateUUID random) = true /\
    String.length (generateUUID random) = 36%nat.
Proof.
  intros random Hr.
  assert (fits uuid_template (generateUUID random) = true) as Hfits
    by now apply replace_xy_fits.
  split; [exact Hfits|]. now rewrite (fits_length _ _ Hfits).
Qed.

Lemma generateUUID_has_the_v4_shape_witness :
  generateUUID (fun _ => 1 # 2)%Q = "88888888-8888-4888-8888-888888888888" /\
  fits uuid_template (generateUUID (fun _ => 1 # 2)%Q) = true.
Proof.
  split; [reflexivity|].
  apply (generateUUID_has_the_v4_shape (fun _ => 1 # 2)%Q).
  intros _. split; [unfold Qle|unfold Qlt]; simpl; lia.
Defined.

(** ** The network monitor *)

Lemma handle_all_snoc events state m :
  Network.handle_all (events ++ [state]) m
  = Network.handleNetworkChange state (Network.handle_all events m).
Proof. unfold Network.handle_all. now rewrite List.fold_left_app. Qed.

Lemma handle_all_listeners events :
  forall m, Network.listeners (Network.handle_all events m) = Network.listeners m.
Proof.
  induction events as [|state events IH]; intros m; [reflexivity|].
  simpl. now rewrite IH.
Qed.

Lemma handle_all_told events :
  forall m,
    Network.told (Network.handle_all events m)
    = (Network.told m
       ++ List.flat_map
            (fun state => List.map (fun listener => (listener, Network.parseNetInfoState state))
                                   (Network.listeners m))
            events)%list.
Proof.
  induction events as [|state events IH]; intros m; simpl.
  - now rewrite List.app_nil_r.
  - rewrite IH. simpl. now rewrite <- List.app_assoc.
Qed.


(** ** The HTTP client *)

Lemma apiRequest_with_token {T} token (answer : Attempt (Response T)) :
  truthy token = true ->
  apiRequest (Getter (Some token)) answer
  = match answer with
    | Resolves response =>
        match classify response with
        | Done value => Returned value
        | Throws e => Thrown e
        | Raises e => Thrown (wrapRaised e)
        end
    | Rejects e => Thrown (wrapRaised e)
    end.
Proof. intros Htoken. unfold apiRequest. now rewrite Htoken. Qed.

Lemma wrapRaised_network e : exists message, wrapRaised e = NetworkError message.
Proof.
  destruct e as [m|m|]; simpl; eauto. destruct (includes "fetch" m); eauto.
Qed.

(** The branch [classify] takes, by the status. *)
Lemma classify_cases {T} (response : Response T) :
  let status := resp_status response in
  (status < 400 /\ status = 204 /\ classify response = Done None) \/
  (status < 400 /\ status <> 204 /\
   classify response = match resp_json response with
                       | Resolves data => Done (Some (jb_data data))
                       | Rejects e => Raises e
                       end) \/
  (status = 409 /\ (exists e, resp_json response = Rejects e /\ classify response = Raises e)) \/
  (400 <= status /\
   exists e, classify response = Throws e /\ statusCode e = Some status /\
             is_not_found e = (status =? 404)).
Proof.
  cbv zeta. unfold classify. cbv zeta.
  destruct (Z.eqb_spec (resp_status response) 204) as [E204|N204];
    [left; repeat split; [lia|exact E204]|].
  destruct (Z.eqb_spec (resp_status response) 401) as [E401|N401].
  { right. right. right. split; [lia|]. eexists. split; [reflexivity|]. simpl.
    rewrite E401. split; reflexivity. }
  destruct (Z.eqb_spec (resp_status response) 404) as [E404|N404].
  { right. right. right. split; [lia|]. eexists. split; [reflexivity|]. simpl.
    rewrite E404. split; reflexivity. }
  destruct (Z.eqb_spec (resp_status response) 409) as [E409|N409].
  { destruct (resp_json response) as [errorData|e].
    - right. right. right. split; [lia|].
      destruct (jb_serverTask errorData); eexists; (split; [reflexivity|]); simpl;
        rewrite E409; split; reflexivity.
    - right. right. left. split; [exact E409|]. eauto. }
  destruct (Z.leb_spec 400 (resp_status response)) as [Hge|Hlt]; simpl.
  - right. right. right. split; [exact Hge|].
    destruct (Z.ltb_spec (resp_status response) 500) as [H4|H5].
    + eexists. repeat split.
    + assert ((500 <=? resp_status response) = true) as -> by now apply Z.leb_le.
      eexists. repeat split.
  - right. left. split; [exact Hlt|]. split; [exact N204|].
    assert ((500 <=? resp_status response) = false) as -> by (apply Z.leb_gt; lia).
    reflexivity.
Qed.

(** X24: how [apiRequest] turns a response into a result, for a caller that
    holds a token.  A status below 400 makes it return, provided the status
    is 204 or the body is JSON; a status of 400 or more always makes it
    throw; and what it throws is either one of the client's errors, whose
    [statusCode] is then the status of the response, or a [NetworkError],
    which happens only when the body that had to be read (that of a 409, or
    of a status below 400 other than 204) is not JSON. *)
Theorem apiRequest_error_carries_the_response_status :
  forall (T : Type) (token : string) (response : Response T),
    truthy token = true ->
    let result := apiRequest (Getter (Some token)) (Resolves response) in
    let status := resp_status response in
    (status < 400 -> status = 204 \/ json_parses response = true ->
     exists value, result = Returned value) /\
    (400 <= status -> exists e, result = Thrown e) /\
    (forall e, result = Thrown e ->
               (400 <= status /\ statusCode e = Some status) \/
               (json_parses response = false /\
                (status = 409 \/ (status < 400 /\ status <> 204)) /\
                exists message, e = NetworkError message)).
Proof.
  intros T token response Htoken result status. unfold result, status.
  rewrite (apiRequest_with_token token _ Htoken). unfold json_parses.
  destruct (classify_cases response)
    as [(Hlt & H204 & ->)|[(Hlt & N204 & ->)|[(H409 & e0 & Hjson & ->)|(Hge & e0 & -> & Hcode & Hnf)]]].
  - split; [eauto|]. split; [lia|]. discriminate.
  - split; [|split; [lia|]].
    + intros _ [?|Hp]; [lia|]. destruct (resp_json response); [eauto|discriminate].
    + intros e He. right. destruct (resp_json response) as [data|e0]; [discriminate|].
      split; [reflexivity|]. split; [right; split; assumption|].
      injection He as <-. apply wrapRaised_network.
  - split; [lia|]. split; [eauto|].
    intros e He. right. rewrite Hjson. split; [reflexivity|]. split; [now left|].
    injection He as <-. apply wrapRaised_network.
  - split; [lia|]. split; [eauto|].
    intros e He. left. injection He as <-. split; assumption.
Qed.

Lemma apiRequest_error_carries_the_response_status_witness :
  exists e,
    apiRequest (T := ApiTask) (Getter (Some "jwt"))
               (Resolves (mkResponse 503 (Rejects RaisedOther) (Rejects RaisedOther)))
    = Thrown e.
Proof.
  destruct (apiRequest_error_carries_the_response_status
              ApiTask "jwt" (mkResponse 503 (Rejects RaisedOther) (Rejects RaisedOther))
              eq_refl) as (_ & Hthrows & _).
  apply Hthrows. simpl. lia.
Defined.

(** X25: which answers to the DELETE of a soft-deleted record make the push
    phase remove it from the store.  With a token at hand and an answer
    from the network, the record is removed exactly when the status is 204,
    or 404 (the server no longer has it), or below 400 with a JSON body; on
    every other answer, among them a 200 whose body is not JSON, the store
    is left as it is and one message is added to the errors of the phase. *)
Theorem delete_answer_decides_removal :
  forall (w : World Http) (errors : list string) (task : Task) (token : string)
         (response : Response unit),
    http_token (w_remote w) = Getter (Some token) ->
    truthy token = true ->
    http_delete_task (w_remote w) (task_id task) = Resolves response ->
    let status := resp_status response in
    let removed :=
      (status =? 204) || (status =? 404) || ((status <? 400) && json_parses response) in
    w_db (snd (pushDeletedTask errors task w))
    = (if removed then removeSyncedDeletedTask (task_id task) (w_db w) else w_db w) /\
    (if removed then fst (pushDeletedTask errors task w) = errors
     else exists message,
         fst (pushDeletedTask errors task w) = (errors ++ [message])%list).
Proof.
  intros w errors task token response Hgetter Htoken Hanswer status removed.
  unfold removed, status. rewrite pushDeletedTask_spec. cbv zeta.
  simpl api_deleteTask. cbn [fst snd].
  rewrite Hgetter, Hanswer, (apiRequest_with_token token _ Htoken). unfold json_parses.
  destruct (classify_cases response)
    as [(Hlt & H204 & ->)|[(Hlt & N204 & ->)|[(H409 & e0 & Hjson & ->)|(Hge & e0 & -> & Hcode & Hnf)]]].
  - rewrite H204. simpl. split; reflexivity.
  - assert ((resp_status response =? 204) = false) as -> by now apply Z.eqb_neq.
    assert ((resp_status response =? 404) = false) as -> by (apply Z.eqb_neq; lia).
    assert ((resp_status response <? 400) = true) as -> by now apply Z.ltb_lt.
    destruct (resp_json response) as [data|e0]; simpl.
    + split; reflexivity.
    + destruct (wrapRaised_network e0) as (m & ->). simpl. split; [reflexivity|eauto].
  - rewrite H409, Hjson. simpl.
    destruct (wrapRaised_network e0) as (m & ->). simpl. split; [reflexivity|eauto].
  - assert ((resp_status response =? 204) = false) as -> by (apply Z.eqb_neq; lia).
    assert ((resp_status response <? 400) = false) as -> by (apply Z.ltb_ge; lia).
    simpl. rewrite Hnf.
    destruct (resp_status response =? 404); simpl; split; eauto.
Qed.

Lemma delete_answer_decides_removal_witness :
  w_db (snd (pushDeletedTask [] deleted_task
               (http_world (bodiless_http 200) (run_ops edited_then_deleted))))
  = run_ops edited_then_deleted /\
  w_db (snd (pushDeletedTask [] deleted_task
               (http_world (bodiless_http 404) (run_ops edited_then_deleted))))
  = [].
Proof.
  assert (forall status,
             http_token (w_remote (http_world (bodiless_http status)
                                              (run_ops edited_then_deleted)))
             = Getter (Some "jwt")) as Hgetter by reflexivity.
  assert (truthy "jwt" = true) as Htoken by reflexivity.
  assert (forall status,
             http_delete_task (w_remote (http_world (bodiless_http status)
                                                    (run_ops edited_then_deleted)))
                              (task_id deleted_task)
             = Resolves (mkResponse status (Resolves EmptyString)
                           (Rejects (RaisedError "JSON Parse error: Unexpected end of input"))))
    as Hanswer by reflexivity.
  pose proof (delete_answer_decides_removal _ [] deleted_task "jwt" _
                (Hgetter 200) Htoken (Hanswer 200)) as Hkept.
  pose proof (delete_answer_decides_removal _ [] deleted_task "jwt" _
                (Hgetter 404) Htoken (Hanswer 404)) as Hremoved.
  cbv zeta in Hkept, Hremoved.
  destruct Hkept as [Hkept _]. destruct Hremoved as [Hremoved _].
  rewrite Hkept, Hremoved. split; vm_compute; reflexivity.
Defined.

(** ** From an HTTP 401 to the back-off of the retry wrapper *)

Lemma append_cons c a b : (String c a ++ b)%string = String c (a ++ b)%string.
Proof. reflexivity. Qed.

Lemma prefix_append n : forall a b, String.prefix n a = true -> String.prefix n (a ++ b)%string = true.
Proof.
  induction n as [|c n IH]; intros a b; [destruct (a ++ b)%string; reflexivity|].
  destruct a as [|c' a]; [discriminate|]. rewrite append_cons. cbn [String.prefix].
  destruct (Ascii.ascii_dec c c'); [apply IH|discriminate].
Qed.

Lemma includes_append_r n a b : includes n b = true -> includes n (a ++ b)%string = true.
Proof.
  intros Hb. induction a as [|c a IH]; [exact Hb|].
  rewrite append_cons. cbn [includes]. rewrite IH. apply Bool.orb_true_r.
Qed.

Lemma includes_append_l n a b : includes n a = true -> includes n (a ++ b)%string = true.
Proof.
  induction a as [|c a IH]; intros Ha.
  - cbn [includes] in Ha. rewrite Bool.orb_false_r in Ha.
    destruct n; [|discriminate]. destruct (EmptyString ++ b)%string; reflexivity.
  - cbn [includes] in Ha. apply Bool.orb_true_iff in Ha as [Hp|Hi].
    + apply (prefix_append _ _ b) in Hp. rewrite append_cons in *. cbn [includes].
      now rewrite Hp.
    + rewrite append_cons. cbn [includes]. rewrite (IH Hi). apply Bool.orb_true_r.
Qed.

Lemma concat_cons2 sep y z l :
  String.concat sep (y :: z :: l) = (y ++ sep ++ String.concat sep (z :: l))%string.
Proof. reflexivity. Qed.

Lemma includes_concat n sep l x :
  List.In x l -> includes n x = true -> includes n (String.concat sep l) = true.
Proof.
  intros Hin Hx. induction l as [|y l IH]; [contradiction|].
  destruct l as [|z l].
  - destruct Hin as [->|[]]. exact Hx.
  - rewrite concat_cons2.
    destruct Hin as [->|Hin].
    + now apply includes_append_l.
    + apply includes_append_r, includes_append_r. now apply IH.
Qed.

Lemma includes_truthy n s : truthy n = true -> includes n s = true -> truthy s = true.
Proof.
  intros Hn Hs. destruct s; [|reflexivity].
  destruct n; [discriminate|]. simpl in Hs. discriminate.
Qed.

Section FailureMessage.

Context {S : Type} `{RemoteService S}.

Implicit Types w : World S.

(** The error an accepted cycle that fails leaves in [lastError]. *)
Lemma sync_failure_message w :
  isSyncInProgress w = false ->
  isOnline w = true ->
  let w1 := snd (pushChanges (snd (syncBegin w))) in
  let message := syncErrorMsg (fst (pushChanges (snd (syncBegin w)))) (fst (pullChanges w1)) in
  pull_success (fst (pullChanges w1)) = false ->
  truthy message = true ->
  fst (sync w) = false /\ lastError (snd (sync w)) = Some message.
Proof.
  intros Hflag Hon w1 message. unfold message, w1. clear message w1.
  unfold sync, bind, gets. rewrite Hflag, Hon. cbn [negb].
  destruct (syncBegin w) as [[] w0]. cbn [snd].
  unfold syncCycle, bind.
  destruct (pushChanges w0) as [pushResult w1]. cbn [fst snd].
  destruct (pullChanges w1) as [pullResult w2]. cbn [fst snd].
  intros Hpull Hmsg. rewrite Hpull, Bool.andb_false_r.
  unfold setSyncState, bind, modify, notifySyncComplete, notifyStatusListeners, emit, modify.
  simpl. rewrite Hmsg. simpl. split; reflexivity.
Qed.

End FailureMessage.

Section HttpEngine.

Implicit Types w : World Http.

Lemma http_handleConflict_remote localTask serverTask w :
  w_remote (snd (handleConflict localTask serverTask w)) = w_remote w.
Proof.
  unfold handleConflict.
  destruct (api_lastUpdatedAt serverTask <? task_lastUpdatedAt localTask); [|reflexivity].
  cbv zeta. unfold bind. rewrite call_spec.
  destruct (api_updateTask _ _ (w_remote w)) as [r h] eqn:E.
  simpl in E. injection E as _ <-. cbn [fst snd].
  destruct r; reflexivity.
Qed.

Lemma http_pushCreatedTask_remote errors task w :
  w_remote (snd (pushCreatedTask errors task w)) = w_remote w.
Proof.
  rewrite pushCreatedTask_spec. cbv zeta.
  destruct (api_createTask _ (w_remote w)) as [r h] eqn:E.
  simpl in E. injection E as _ <-. cbn [fst snd].
  destruct r; reflexivity.
Qed.

Lemma http_pushModifiedTask_remote errors task w :
  w_remote (snd (pushModifiedTask errors task w)) = w_remote w.
Proof.
  rewrite pushModifiedTask_spec. cbv zeta.
  destruct (api_updateTask _ _ (w_remote w)) as [r h] eqn:E.
  simpl in E. injection E as _ <-. cbn [fst snd].
  destruct r as [v|err]; [reflexivity|].
  destruct err; try reflexivity. cbn [snd]. now rewrite http_handleConflict_remote.
Qed.

Lemma http_pushDeletedTask_remote errors task w :
  w_remote (snd (pushDeletedTask errors task w)) = w_remote w.
Proof.
  rewrite pushDeletedTask_spec. cbv zeta.
  destruct (api_deleteTask _ (w_remote w)) as [r h] eqn:E.
  simpl in E. injection E as _ <-. cbn [fst snd].
  destruct r as [v|err]; [reflexivity|].
  destruct (is_not_found err); reflexivity.
Qed.

Lemma http_pushChanges_remote w : w_remote (snd (pushChanges w)) = w_remote w.
Proof.
  destruct (pushChanges_batches w) as [_ ->]. cbv zeta.
  set (I := fun w' : World Http => w_remote w' = w_remote w).
  apply (for_each_preserves I).
  { intros e t w' _ Hw'. unfold I. now rewrite http_pushDeletedTask_remote. }
  apply (for_each_preserves I).
  { intros e t w' _ Hw'. unfold I. now rewrite http_pushModifiedTask_remote. }
  apply (for_each_preserves I); [|reflexivity].
  intros e t w' _ Hw'. unfold I. now rewrite http_pushCreatedTask_remote.
Qed.

(** X26: an HTTP 401 in answer to the fetch of the pull phase reaches the
    retry wrapper.  When a cycle is accepted, the client holds a token and
    the server answers the fetch with status 401, whatever the body, and
    whatever happened in the push phase, the cycle fails, the error it
    leaves contains [Unauthorized], and the delay the wrapper takes before
    the next attempt is [ERROR_BACKOFF_MS], whatever the attempt number. *)
Theorem unauthorized_fetch_selects_the_fixed_backoff :
  forall (RETRY_DELAY_MS ERROR_BACKOFF_MS : Z) (w : World Http) (token : string)
         (response : Response (list ApiTask)) (attempt : Z),
    isSyncInProgress w = false ->
    isOnline w = true ->
    http_token (w_remote w) = Getter (Some token) ->
    truthy token = true ->
    http_get_tasks (w_remote w) = Resolves response ->
    resp_status response = 401 ->
    fst (sync w) = false /\
    (exists message, lastError (snd (sync w)) = Some message /\
                     includes "Unauthorized" message = true) /\
    retryDelay RETRY_DELAY_MS ERROR_BACKOFF_MS (lastError (snd (sync w))) attempt
    = ERROR_BACKOFF_MS.
Proof.
  intros RETRY BACKOFF w token response attempt Hflag Hon Hgetter Htoken Hanswer Hstatus.
  set (w0 := snd (syncBegin w)).
  set (w1 := snd (pushChanges w0)).
  assert (w_remote w1 = w_remote w) as Hremote
    by (unfold w1; rewrite http_pushChanges_remote; reflexivity).
  assert (exists details,
             fst (pullChanges w1)
             = {| pull_success := false;
                  pull_error := Some ("Unauthorized - " +:+ details) |}) as (details & Hpull).
  { unfold pullChanges, bind. rewrite call_spec. simpl.
    rewrite Hremote, Hgetter, Hanswer, (apiRequest_with_token token _ Htoken).
    unfold classify. rewrite Hstatus. simpl. eauto. }
  set (message := syncErrorMsg (fst (pushChanges w0)) (fst (pullChanges w1))).
  assert (includes "Unauthorized" message = true) as Hinc.
  { unfold message, syncErrorMsg. rewrite Hpull. cbn [pull_error].
    apply (includes_concat _ _ _ ("Pull failed: " +:+ "Unauthorized - " +:+ details)).
    - apply List.filter_In. split; [|reflexivity].
      apply List.in_or_app. right. left. reflexivity.
    - reflexivity. }
  pose proof (sync_failure_message w Hflag Hon) as Hsync. cbv zeta in Hsync.
  fold w0 in Hsync. fold w1 in Hsync. fold message in Hsync.
  destruct Hsync as [Hres Herr].
  - now rewrite Hpull.
  - now apply (includes_truthy "Unauthorized").
  - split; [exact Hres|]. split; [eauto|].
    rewrite Herr. unfold retryDelay. now rewrite Hinc.
Qed.

End HttpEngine.

Lemma unauthorized_fetch_selects_the_fixed_backoff_witness :
  retryDelay 500 9000
    (lastError (snd (sync (http_world (bodiless_http 401) modified_store)))) 2
  = 9000.
Proof.
  assert (isSyncInProgress (http_world (bodiless_http 401) modified_store) = false)
    as Hflag by reflexivity.
  assert (isOnline (http_world (bodiless_http 401) modified_store) = true)
    as Hon by reflexivity.
  assert (http_token (w_remote (http_world (bodiless_http 401) modified_store))
          = Getter (Some "jwt")) as Hgetter by reflexivity.
  assert (truthy "jwt" = true) as Htoken by reflexivity.
  assert (http_get_tasks (w_remote (http_world (bodiless_http 401) modified_store))
          = bodiless_answer 401) as Hanswer by reflexivity.
  assert (resp_status (T := list ApiTask)
            (mkResponse 401 (Resolves EmptyString)
               (Rejects (RaisedError "JSON Parse error: Unexpected end of input"))) = 401)
    as Hstatus by reflexivity.
  exact (proj2 (proj2 (unauthorized_fetch_selects_the_fixed_backoff
                         500 9000 _ "jwt" _ 2 Hflag Hon Hgetter Htoken Hanswer Hstatus))).
Defined.

(** ** Records reported as pending *)

Lemma flagged_update set id db :
  (forall r, List.In r db -> has_id id r = true -> pending_flagged (set r)) ->
  List.Forall pending_flagged db -> List.Forall pending_flagged (update_where_id set id db).
Proof.
  intros Hset Hall. rewrite List.Forall_forall in *. intros r' Hin.
  apply in_update_where_id in Hin as (r & Hin & ->).
  destruct (has_id id r) eqn:E; auto.
Qed.

Lemma flagged_delete id db :
  List.Forall pending_flagged db -> List.Forall pending_flagged (delete_where_id id db).
Proof.
  intros Hall. rewrite List.Forall_forall in *. intros r Hin.
  apply in_delete_where_id in Hin as [Hin _]. auto.
Qed.

Lemma flagged_update_assignments now input r :
  pending_flagged (update_assignments now input (row_locallyCreated r =? 1) r).
Proof.
  unfold update_assignments, pending_flagged.
  destruct (row_locallyCreated r =? 1) eqn:E; simpl.
  - apply Z.eqb_eq in E. intros _. left.
    destruct input as [[?|] [?|] [?|]]; exact E.
  - intros _. right. left. reflexivity.
Qed.

Lemma flagged_apply_op db op :
  store_wf db -> List.Forall pending_flagged db ->
  List.Forall pending_flagged (apply_op db op).
Proof.
  intros Hwf Hall. destruct op; simpl.
  - unfold createTask, insert_row. simpl row_id.
    destruct (List.existsb (has_id id) db); [exact Hall|]. simpl.
    apply List.Forall_app. split; [exact Hall|].
    constructor; [|constructor]. intros _. now left.
  - rewrite updateTask_unfold.
    destruct (getTaskById db id) as [t|] eqn:Hget; [|exact Hall].
    destruct (no_updates input); [exact Hall|]. simpl.
    apply getTaskById_some_row in Hget as (r0 & Hfind & -> & _ & _).
    apply flagged_update; [|exact Hall]. intros r Hin Hid.
    assert (r = r0) as -> by (eapply unique_row; eauto; apply Hwf).
    apply flagged_update_assignments.
  - unfold deleteTask.
    destruct (getTaskById db id) as [t|] eqn:Hget; [|exact Hall].
    destruct (task_locallyCreated t); simpl.
    + now apply flagged_delete.
    + apply flagged_update; [|exact Hall]. intros r _ _ _. right. right. reflexivity.
  - unfold toggleTaskComplete.
    destruct (getTaskById db id) as [t|] eqn:Hget; [|exact Hall].
    rewrite updateTask_unfold, Hget. simpl.
    apply getTaskById_some_row in Hget as (r0 & Hfind & -> & _ & _).
    apply flagged_update; [|exact Hall]. intros r Hin Hid.
    assert (r = r0) as -> by (eapply unique_row; eauto; apply Hwf).
    apply flagged_update_assignments.
  - apply flagged_update; [|exact Hall]. intros r _ _.
    unfold pending_flagged. destruct serverTask; simpl; discriminate.
  - now apply flagged_delete.
  - unfold upsertTaskFromServer, insert_or_replace.
    apply List.Forall_app. split; [now apply flagged_delete|].
    constructor; [|constructor]. unfold pending_flagged. simpl. discriminate.
  - apply flagged_update; [|exact Hall]. intros r _ _.
    unfold pending_flagged. simpl. discriminate.
Qed.

Lemma run_ops_flagged ops : List.Forall pending_flagged (run_ops ops).
Proof.
  unfold run_ops.
  assert (store_wf [] /\ List.Forall pending_flagged []) as Hnil
    by (split; [split|]; constructor).
  revert Hnil. generalize (@nil TaskRow).
  induction ops as [|op ops IH]; simpl; intros db [Hwf Hall]; [exact Hall|].
  apply IH. split; [now apply store_wf_apply_op|now apply flagged_apply_op].
Qed.

(** A well-formed row that is reported as pending satisfies the condition
    of one of the three provenance queries. *)
Lemma pending_row_has_a_batch r :
  wf_row r -> pending_flagged r -> row_syncStatus r = "pending" -> pending_cond r = true.
Proof.
  intros (Hc & Hm & Hd & _ & _ & Halone) Hflag Hp.
  specialize (Hflag Hp).
  unfold pending_cond, created_cond, modified_cond, deleted_cond.
  destruct Hd as [Hd|Hd]; rewrite Hd; simpl; [|now rewrite !Bool.orb_true_r].
  rewrite !Bool.andb_true_r, Bool.orb_false_r.
  destruct Hc as [Hc|Hc]; rewrite Hc; simpl; [|reflexivity].
  destruct Hflag as [?|[->|?]]; [lia|reflexivity|lia].
Qed.

Lemma filter_length_le {A} (p q : A -> bool) l :
  (forall x, List.In x l -> p x = true -> q x = true) ->
  (List.length (List.filter p l) <= List.length (List.filter q l))%nat.
Proof.
  induction l as [|x l IH]; intros Himp; simpl; [lia|].
  assert (List.length (List.filter p l) <= List.length (List.filter q l))%nat as Hle
      by (apply IH; intros y Hy; apply Himp; now right).
  destruct (p x) eqn:Ep.
  - rewrite (Himp x (or_introl eq_refl) Ep). simpl. lia.
  - destruct (q x); simpl; lia.
Qed.

Lemma filter_pending_cond_length db :
  (List.length (List.filter pending_cond db)
   <= List.length (List.filter created_cond db) + List.length (List.filter modified_cond db)
      + List.length (List.filter deleted_cond db))%nat.
Proof.
  induction db as [|r db IH]; simpl; [lia|].
  unfold pending_cond at 1.
  destruct (created_cond r), (modified_cond r), (deleted_cond r); simpl; lia.
Qed.

(** X27: in every store that a history of operations can produce, a record
    that [getPendingSyncTasks] reports (its [syncStatus] is [pending]) is in
    one of the three batches of the push phase, so it is pushed in the next
    cycle; and the number of records reported as pending never exceeds the
    [pendingChanges] of the status. *)
Theorem pending_sync_records_are_in_a_push_batch :
  forall (ops : list StoreOp),
    (forall t, List.In t (getPendingSyncTasks (run_ops ops)) ->
               List.In t (getLocallyCreatedTasks (run_ops ops)) \/
               List.In t (getLocallyModifiedTasks (run_ops ops)) \/
               List.In t (getLocallyDeletedTasks (run_ops ops))) /\
    Z.of_nat (List.length (getPendingSyncTasks (run_ops ops)))
    <= getPendingChangesCount (run_ops ops).
Proof.
  intros ops.
  pose proof (run_ops_wf ops) as [_ Hwf]. pose proof (run_ops_flagged ops) as Hflag.
  rewrite List.Forall_forall in Hwf, Hflag.
  assert (forall r, List.In r (run_ops ops) ->
                    String.eqb (row_syncStatus r) "pending" = true ->
                    pending_cond r = true) as Hcond.
  { intros r Hin Hp. apply String.eqb_eq in Hp.
    apply pending_row_has_a_batch; auto. }
  split.
  - intros t Hin. unfold getPendingSyncTasks, select_where in Hin.
    apply List.in_map_iff in Hin as (r & <- & Hin).
    apply List.filter_In in Hin as [Hin Hp].
    specialize (Hcond r Hin Hp). unfold pending_cond in Hcond.
    unfold getLocallyCreatedTasks, getLocallyModifiedTasks, getLocallyDeletedTasks,
      select_where.
    destruct (created_cond r) eqn:C;
      [left; apply List.in_map; now apply List.filter_In|].
    destruct (modified_cond r) eqn:Mo;
      [right; left; apply List.in_map; now apply List.filter_In|].
    right. right. apply List.in_map. now apply List.filter_In.
  - unfold getPendingChangesCount, getPendingSyncTasks, getLocallyCreatedTasks,
      getLocallyModifiedTasks, getLocallyDeletedTasks, select_where.
    cbv zeta. rewrite !List.length_map.
    pose proof (filter_length_le _ pending_cond (run_ops ops) Hcond) as H1.
    pose proof (filter_pending_cond_length (run_ops ops)) as H2. lia.
Qed.

(** * One cycle in flight *)

Section SessionFacts.

Context {S : Type} `{RemoteService S}.

Implicit Types w : World S.
Implicit Types s : Session S.

(** [sync] is its entry followed, when the cycle is accepted, by the cycle;
    the cycle is its push phase followed by the rest. *)
Lemma sync_enters_then_runs w :
  sync w = match fst (syncEnter w) with
           | Some b => (b, snd (syncEnter w))
           | None => syncCycle (snd (syncEnter w))
           end.
Proof.
  unfold sync, syncEnter, bind, gets.
  destruct (isSyncInProgress w); [reflexivity|].
  destruct (isOnline w); simpl.
  - destruct (syncBegin w) as [[] w0]. reflexivity.
  - destruct (notifyStatusListeners w) as [[] w0]. reflexivity.
Qed.

Lemma syncCycle_push_then_rest w :
  syncCycle w = syncAfterPush (fst (pushChanges w)) (snd (pushChanges w)).
Proof.
  unfold syncCycle, syncAfterPush, bind.
  destruct (pushChanges w) as [pushResult w1]. reflexivity.
Qed.

Lemma syncEnter_rejected w :
  isSyncInProgress w = true -> syncEnter w = (Some false, w).
Proof. intros Hflag. unfold syncEnter, bind, gets. now rewrite Hflag. Qed.

Lemma syncEnter_offline w :
  isSyncInProgress w = false -> isOnline w = false ->
  fst (syncEnter w) = Some false /\ isSyncInProgress (snd (syncEnter w)) = false.
Proof.
  intros Hflag Hoff. unfold syncEnter, bind, gets. rewrite Hflag, Hoff. simpl.
  split; [reflexivity|exact Hflag].
Qed.

Lemma syncEnter_accepted w :
  isSyncInProgress w = false -> isOnline w = true ->
  fst (syncEnter w) = None /\ isSyncInProgress (snd (syncEnter w)) = true.
Proof.
  intros Hflag Hon. unfold syncEnter, bind, gets. rewrite Hflag, Hon. simpl.
  split; reflexivity.
Qed.

Lemma syncAfterPush_releases pushResult w :
  isSyncInProgress (snd (syncAfterPush pushResult w)) = false.
Proof.
  unfold syncAfterPush, bind.
  destruct (pullChanges w) as [pullResult w2].
  destruct (push_success pushResult && pull_success pullResult); simpl; [reflexivity|].
  unfold setSyncState, bind, modify, notifySyncComplete, notifyStatusListeners, emit, modify.
  simpl. destruct (truthy (syncErrorMsg pushResult pullResult)); reflexivity.
Qed.

(** A call of [sync] either starts the one cycle in flight or starts none. *)
Lemma syncEnter_single_flight w :
  (fst (syncEnter w) = None /\ isSyncInProgress w = false /\
   isSyncInProgress (snd (syncEnter w)) = true) \/
  (exists b, fst (syncEnter w) = Some b /\
             isSyncInProgress (snd (syncEnter w)) = isSyncInProgress w).
Proof.
  destruct (isSyncInProgress w) eqn:Hflag.
  - right. exists false. rewrite (syncEnter_rejected w Hflag). split; [reflexivity|].
    simpl. now rewrite Hflag.
  - destruct (isOnline w) eqn:Hon.
    + left. destruct (syncEnter_accepted w Hflag Hon). auto.
    + right. exists false. destruct (syncEnter_offline w Hflag Hon). auto.
Qed.

Lemma engine_step_single_flight step s :
  single_flight s -> step_allowed step s -> single_flight (engine_step step s).
Proof.
  intros Hinv Hquiet. destruct s as [w cycles]. unfold single_flight in *. simpl in *.
  destruct step as [| |i|f]; simpl in *.
  - destruct (syncEnter_single_flight w) as [(Hp & Hf & Hf')|(b & Hp & Hf')];
      destruct (syncEnter w) as [promise w']; simpl in *; subst promise; simpl.
    + destruct Hinv as [[-> _]|(stage & _ & Hflag)]; [|congruence].
      right. exists Entered. split; [reflexivity|exact Hf'].
    + rewrite List.app_nil_r, Hf'. exact Hinv.
  - subst cycles.
    destruct Hinv as [[_ Hflag]|(stage & Hc & _)]; [|discriminate].
    unfold initializeSync, bind, modify, gets. simpl.
    set (w0 := with_isSyncInProgress false w).
    assert (isSyncInProgress w0 = false) as Hflag0 by reflexivity.
    destruct (syncEnter_single_flight w0) as [(Hp & _ & Hf')|(b & Hp & Hf')];
      destruct (syncEnter w0) as [promise w1]; simpl in *; subst promise.
    + rewrite (syncEnter_rejected w1 Hf'). simpl.
      right. exists Entered. split; [reflexivity|exact Hf'].
    + assert (isSyncInProgress w1 = false) as Hf1 by (rewrite Hf'; reflexivity).
      destruct (syncEnter_single_flight w1) as [(Hp & _ & Hf'')|(b' & Hp & Hf'')];
        destruct (syncEnter w1) as [promise w2]; simpl in *; subst promise; simpl.
      * right. exists Entered. split; [reflexivity|exact Hf''].
      * left. split; [reflexivity|congruence].
  - destruct Hinv as [[-> Hflag]|(stage & -> & Hflag)].
    + rewrite ?lookup_nil. simpl. left. split; [reflexivity|exact Hflag].
    + destruct i as [|i]; simpl.
      * destruct stage as [|pushResult].
        -- destruct (pushChanges_same_engine w) as (_ & _ & _ & Hf & _).
           destruct (pushChanges w) as [pushResult w1]. simpl in *.
           right. exists (Pushed pushResult). split; [reflexivity|congruence].
        -- pose proof (syncAfterPush_releases pushResult w) as Hf.
           destruct (syncAfterPush pushResult w) as [b w1]. simpl in *.
           left. split; [reflexivity|exact Hf].
      * rewrite ?lookup_nil. simpl. right. exists stage. split; [reflexivity|exact Hflag].
  - rewrite Hquiet. exact Hinv.
Qed.

Lemma run_steps_single_flight steps :
  forall s, single_flight s -> quiet_inits steps s -> single_flight (run_steps steps s).
Proof.
  induction steps as [|step steps IH]; intros s Hinv Hquiet; [exact Hinv|].
  destruct Hquiet as [Hstep Hrest]. simpl. apply IH; [|exact Hrest].
  now apply engine_step_single_flight.
Qed.


End SessionFacts.



(** * The wording of the last error and the back-off *)

